(** * VideoCapture: the segmented ring-buffer recorder

    A shallow embedding of the Android core of the repository
    ([SegmentManager.kt], [VideoMuxer.kt], [CircularBufferRecorder.kt] and
    its [LifecycleCameraController] variant, and what the controller uses of
    [TelemetryCollector.kt]) and the properties of the Segment Store, the
    Concatenator and the Session Controller.

    Kotlin [Int] and [Long] values are integers of [Z] with the wrap-around
    of the JVM written out; files are paths (strings) into a finite map from
    paths to byte contents; objects with mutable fields are records that the
    operations pass along explicitly. *)

From Stdlib Require Import ZArith Lia.
From Stdlib.Strings Require Import Byte Ascii String.
From stdpp Require Import gmap strings list fin_maps pretty sorting.

Local Open Scope Z_scope.

(* ===================================================================== *)
(** ** Kotlin integer arithmetic *)
(* ===================================================================== *)

Module Kt.

(** Two's complement reduction of [x] to [bits] bits. *)
Definition wrap (bits : Z) (x : Z) : Z :=
  (x + 2 ^ (bits - 1)) mod 2 ^ bits - 2 ^ (bits - 1).

Definition Int_MAX_VALUE : Z := 2147483647.
Definition Int_MIN_VALUE : Z := -2147483648.
Definition Long_MAX_VALUE : Z := 9223372036854775807.
Definition Long_MIN_VALUE : Z := -9223372036854775808.

Definition toInt (x : Z) : Z := wrap 32 x.
Definition toLong (x : Z) : Z := wrap 64 x.

Definition isInt (x : Z) : Prop := Int_MIN_VALUE <= x <= Int_MAX_VALUE.
Definition isLong (x : Z) : Prop := Long_MIN_VALUE <= x <= Long_MAX_VALUE.

(** [Int] operators. Division truncates toward zero. *)
Definition iadd (a b : Z) : Z := toInt (a + b).
Definition isub (a b : Z) : Z := toInt (a - b).
Definition idiv (a b : Z) : Z := toInt (Z.quot a b).

(** [Long] operators. *)
Definition ladd (a b : Z) : Z := toLong (a + b).
Definition lmul (a b : Z) : Z := toLong (a * b).
Definition ldiv (a b : Z) : Z := toLong (Z.quot a b).
Definition lsub (a b : Z) : Z := toLong (a - b).

End Kt.

(* ===================================================================== *)
(** ** The file system *)
(* ===================================================================== *)

(** [java.io.File] is a path; the disk maps the paths of the existing files
    to their bytes. *)
Abbreviation File := string (only parsing).
Abbreviation Fs := (gmap string (list byte)) (only parsing).

Module Files.

(** [File(parent, child)] *)
Definition child (parent name : string) : File := parent +:+ "/" +:+ name.

Definition exists_ (f : File) (fs : Fs) : bool := bool_decide (is_Some (fs !! f)).

(** [File.length()]: [0L] when the file does not exist. *)
Definition length (f : File) (fs : Fs) : Z :=
  match fs !! f with
  | Some bytes => Z.of_nat (List.length bytes)
  | None => 0
  end.

(** [File.delete()] *)
Definition delete (f : File) (fs : Fs) : Fs := base.delete f fs.

(** [File.copyTo(target, overwrite = true)]: fails when the source is
    missing. *)
Definition copyTo (src target : File) (fs : Fs) : option Fs :=
  match fs !! src with
  | Some bytes => Some (<[target := bytes]> fs)
  | None => None
  end.

(** [s.removePrefix(pre)] when [s] starts with [pre]. *)
Fixpoint stripPrefix (pre s : string) : option string :=
  match pre, s with
  | EmptyString, _ => Some s
  | String a pre', String b s' => if Ascii.eqb a b then stripPrefix pre' s' else None
  | String _ _, EmptyString => None
  end.

(** What follows the last [c] of [s], [found] when there is none. *)
Fixpoint afterLast (c : Ascii.ascii) (s : string) (found : option string) : option string :=
  match s with
  | EmptyString => found
  | String a s' => afterLast c s' (if Ascii.eqb a c then Some s' else found)
  end.

(** [File.extension] of a file name. *)
Definition extension (name : string) : string := default "" (afterLast "."%char name None).

End Files.

(* ===================================================================== *)
(** ** SegmentManager.kt: the Segment Store *)
(* ===================================================================== *)

Module SegmentManager.

Definition SEGMENT_DURATION_MS : Z := 500.
Definition SEGMENT_PREFIX : string := "segment_".
Definition SEGMENT_EXTENSION : string := ".mp4".

Record SegmentInfo := {
  file : File;
  startTimeMs : Z;
  durationMs : Z;
  index : Z
}.

(** The fields of a [SegmentManager]; [cacheDir] is [context.cacheDir]. *)
Record t := {
  cacheDir : string;
  segments : list SegmentInfo;
  bufferDurationMs : Z;
  segmentCounter : Z
}.

Definition new (cache : string) : t :=
  {| cacheDir := cache; segments := []; bufferDurationMs := 5000; segmentCounter := 0 |}.

Definition segmentDir (sm : t) : File := Files.child (cacheDir sm) "video_buffer".

Definition setBufferDuration (durationSeconds : Z) (sm : t) : t :=
  {| cacheDir := cacheDir sm;
     segments := segments sm;
     bufferDurationMs := Kt.lmul durationSeconds 1000;
     segmentCounter := segmentCounter sm |}.

Definition getBufferDurationSeconds (sm : t) : Z :=
  Kt.toInt (Kt.ldiv (bufferDurationMs sm) 1000).

(** [ConcurrentLinkedDeque.size()], an [Int] that saturates. *)
Definition size (segs : list SegmentInfo) : Z :=
  Z.min (Z.of_nat (List.length segs)) Kt.Int_MAX_VALUE.

(** [pollFirst()]: the head and the rest, [None] on an empty deque. *)
Definition pollFirst (segs : list SegmentInfo) : option SegmentInfo * list SegmentInfo :=
  match segs with
  | [] => (None, [])
  | oldest :: rest => (Some oldest, rest)
  end.

Definition maxSegments (sm : t) : Z :=
  Kt.iadd (Kt.toInt (Kt.ldiv (bufferDurationMs sm) SEGMENT_DURATION_MS)) 2.

(** The [while (segments.size > maxSegments)] loop of [trimBuffer]; [None]
    when [fuel] iterations did not end it. *)
Fixpoint trimLoop (fuel : nat) (maxSegs : Z) (segs : list SegmentInfo) (fs : Fs)
  : option (list SegmentInfo * Fs) :=
  if size segs >? maxSegs then
    match fuel with
    | O => None
    | S fuel' =>
        let '(oldest, rest) := pollFirst segs in
        let fs' := match oldest with
                   | Some o => if Files.exists_ (file o) fs
                               then Files.delete (file o) fs else fs
                   | None => fs
                   end in
        trimLoop fuel' maxSegs rest fs'
    end
  else Some (segs, fs).

Definition trimBuffer (fuel : nat) (sm : t) (fs : Fs) : option (t * Fs) :=
  match trimLoop fuel (maxSegments sm) (segments sm) fs with
  | Some (segs, fs') =>
      Some ({| cacheDir := cacheDir sm;
               segments := segs;
               bufferDurationMs := bufferDurationMs sm;
               segmentCounter := segmentCounter sm |}, fs')
  | None => None
  end.

Definition fileName (counter : Z) : string :=
  SEGMENT_PREFIX +:+ pretty counter +:+ SEGMENT_EXTENSION.

(** [createNewSegment()]; [now] is [System.currentTimeMillis()]. *)
Definition createNewSegment (fuel : nat) (now : Z) (sm : t) (fs : Fs)
  : option (File * t * Fs) :=
  let segmentFile := Files.child (segmentDir sm) (fileName (segmentCounter sm)) in
  let segmentInfo := {| file := segmentFile;
                        startTimeMs := now;
                        durationMs := SEGMENT_DURATION_MS;
                        index := segmentCounter sm |} in
  let sm1 := {| cacheDir := cacheDir sm;
                segments := segments sm ++ [segmentInfo];
                bufferDurationMs := bufferDurationMs sm;
                segmentCounter := Kt.iadd (segmentCounter sm) 1 |} in
  match trimBuffer fuel sm1 fs with
  | Some (sm2, fs') => Some (segmentFile, sm2, fs')
  | None => None
  end.

(** [getNextSegmentPath()]: the absolute path of a segment it creates. *)
Definition getNextSegmentPath (fuel : nat) (now : Z) (sm : t) (fs : Fs)
  : option (string * t * Fs) :=
  createNewSegment fuel now sm fs.

(** [onSegmentCompleted] only logs. *)
Definition onSegmentCompleted (filePath : string) (actualDurationMs : Z) (sm : t) : t := sm.

Definition readable (fs : Fs) (it : SegmentInfo) : bool :=
  Files.exists_ (file it) fs && (Files.length (file it) fs >? 0).

(** [getPreCaptureSegments]: newest to oldest until the duration is met. *)
Fixpoint preCaptureWalk (fs : Fs) (neededMs : Z) (newestFirst : list SegmentInfo)
    (result : list File) (totalDuration : Z) : list File :=
  match newestFirst with
  | [] => result
  | segment :: older =>
      if readable fs segment then
        let result' := file segment :: result in
        let total' := Kt.ladd totalDuration (durationMs segment) in
        if total' >=? neededMs then result'
        else preCaptureWalk fs neededMs older result' total'
      else preCaptureWalk fs neededMs older result totalDuration
  end.

Definition getPreCaptureSegments (neededMs : Z) (sm : t) (fs : Fs) : list File :=
  preCaptureWalk fs neededMs (reverse (segments sm)) [] 0.

(** [getAllSegments]: [mapNotNull] over the deque, oldest first. *)
Definition getAllSegments (sm : t) (fs : Fs) : list File :=
  omap (λ it, if readable fs it then Some (file it) else None) (segments sm).

Definition freezeBuffer (sm : t) (fs : Fs) : list File := getAllSegments sm fs.

(** [clearBuffer()] *)
Definition clearBuffer (sm : t) (fs : Fs) : t * Fs :=
  let fs' := foldl (λ acc segment,
                      if Files.exists_ (file segment) acc
                      then Files.delete (file segment) acc else acc)
                   fs (segments sm) in
  ({| cacheDir := cacheDir sm;
      segments := [];
      bufferDurationMs := bufferDurationMs sm;
      segmentCounter := 0 |}, fs').

(** [cleanupOrphanFiles()]: a file of [segmentDir] named like a segment
    and not tracked is deleted. *)
Definition orphan (sm : t) (p : File) : bool :=
  match Files.stripPrefix (segmentDir sm +:+ "/") p with
  | Some name =>
      bool_decide (Files.afterLast "/"%char name None = None)
      && String.prefix SEGMENT_PREFIX name
      && String.eqb (Files.extension name) "mp4"
      && negb (existsb (λ it, String.eqb (file it) p) (segments sm))
  | None => false
  end.

Definition cleanupOrphanFiles (sm : t) (fs : Fs) : Fs :=
  filter (λ kv, orphan sm kv.1 = false) fs.

Record BufferStatus := {
  segmentCount : Z;
  totalDurationMs : Z;
  totalSizeBytes : Z;
  bufferCapacityMs : Z
}.

Definition getBufferStatus (sm : t) (fs : Fs) : BufferStatus :=
  {| segmentCount := Kt.toInt (Z.of_nat (List.length (segments sm)));
     totalDurationMs := foldl (λ acc it, Kt.ladd acc (durationMs it)) 0 (segments sm);
     totalSizeBytes := foldl (λ acc it, Kt.ladd acc (Files.length (file it) fs)) 0 (segments sm);
     bufferCapacityMs := bufferDurationMs sm |}.

End SegmentManager.

(** *** Sequences of Segment Store calls *)

Module StoreRun.

(** The calls the controller makes on the store, and what the recording
    backend or anything else does to the files meanwhile. *)
Inductive Op :=
| Create (now : Z)
| SetBufferDuration (durationSeconds : Z)
| Clear
| CleanupOrphans
| WriteFile (f : File) (bytes : list byte)
| RemoveFile (f : File).

Definition step (fuel : nat) (st : SegmentManager.t * Fs) (op : Op)
  : option (SegmentManager.t * Fs) :=
  match op with
  | Create now =>
      match SegmentManager.createNewSegment fuel now st.1 st.2 with
      | Some (_, sm, fs) => Some (sm, fs)
      | None => None
      end
  | SetBufferDuration d => Some (SegmentManager.setBufferDuration d st.1, st.2)
  | Clear => Some (SegmentManager.clearBuffer st.1 st.2)
  | CleanupOrphans => Some (st.1, SegmentManager.cleanupOrphanFiles st.1 st.2)
  | WriteFile f bytes => Some (st.1, <[f := bytes]> st.2)
  | RemoveFile f => Some (st.1, Files.delete f st.2)
  end.

Fixpoint run (fuel : nat) (ops : list Op) (st : SegmentManager.t * Fs)
  : option (SegmentManager.t * Fs) :=
  match ops with
  | [] => Some st
  | op :: rest =>
      match step fuel st op with
      | Some st' => run fuel rest st'
      | None => None
      end
  end.

(** [a] was created before [b]. *)
Definition older (a b : SegmentManager.SegmentInfo) : Prop :=
  SegmentManager.index a < SegmentManager.index b.

(** The deque is in creation order and the counter is ahead of it. *)
Definition ordered (sm : SegmentManager.t) : Prop :=
  StronglySorted older (SegmentManager.segments sm)
  ∧ Forall (λ it, SegmentManager.index it < SegmentManager.segmentCounter sm)
      (SegmentManager.segments sm)
  ∧ 0 <= SegmentManager.segmentCounter sm.

(** Every tracked segment has the file [createNewSegment] names after its
    index, in the segment directory, and the nominal duration. *)
Definition named (sm : SegmentManager.t) : Prop :=
  Forall (λ it, SegmentManager.file it
                = Files.child (SegmentManager.segmentDir sm)
                    (SegmentManager.fileName (SegmentManager.index it))
                ∧ SegmentManager.durationMs it = SegmentManager.SEGMENT_DURATION_MS)
    (SegmentManager.segments sm).

End StoreRun.

(** *** The bound as the specification words it *)

Module Spec.

(** [ceil (a / b)] for a positive [b]. *)
Definition ceilDiv (a b : Z) : Z := (a + b - 1) / b.

(** [maxSegments = ceil (windowDuration / segmentDuration) + safetyMargin],
    with the margin 2 and the durations in milliseconds. *)
Definition maxSegments (windowDurationMs : Z) : Z :=
  ceilDiv windowDurationMs SegmentManager.SEGMENT_DURATION_MS + 2.

End Spec.

(* ===================================================================== *)
(** ** VideoMuxer.kt: the Concatenator *)
(* ===================================================================== *)

Module Media.

(** What [MediaExtractor] exposes of one coded sample. *)
Record Sample := {
  sampleTime : Z;
  sampleFlags : Z;
  sampleData : list byte
}.

(** [MediaFormat]: the [KEY_MIME] entry, which may be absent, and the
    remaining codec parameters. *)
Record MediaFormat := {
  mime : option string;
  codecParams : list byte
}.

Record Track := {
  format : MediaFormat;
  samples : list Sample
}.

(** One [writeSampleData(trackIndex, buffer, bufferInfo)] call. *)
Record Written := {
  trackIndex : Z;
  presentationTimeUs : Z;
  size : Z;
  flags : Z;
  data : list byte
}.

(** The platform's container code, which the application only calls:
    [extract] is [MediaExtractor.setDataSource] on a file with these bytes
    ([None] when it throws) and gives the tracks in their order;
    [start_ok] tells whether [MediaMuxer.start()] returns with these tracks
    added; [container] gives the bytes a started muxer leaves behind. *)
Class Platform := {
  extract : list byte → option (list Track);
  start_ok : list MediaFormat → bool;
  container : list MediaFormat → list Written → list byte
}.

End Media.

Module VideoMuxer.
Import Media.

Definition BUFFER_SIZE : Z := 1024 * 1024.

(** The constant [copyTrack] adds to the largest timestamp it wrote. *)
Definition FRAME_DURATION_US : Z := 33333.

(** A [MediaMuxer]: the formats added, in track order, and the samples
    written so far. *)
Record Muxer := {
  formats : list MediaFormat;
  written : list Written
}.

Definition addTrack (fmt : MediaFormat) (m : Muxer) : Z * Muxer :=
  (Z.of_nat (List.length (formats m)),
   {| formats := formats m ++ [fmt]; written := written m |}).

Definition writeSampleData (w : Written) (m : Muxer) : Muxer :=
  {| formats := formats m; written := written m ++ [w] |}.

(** The local variables of [concatenateWithMuxer]. *)
Record MuxState := {
  muxer : Muxer;
  videoTrackIndex : Z;
  audioTrackIndex : Z;
  lastVideoPts : Z;
  lastAudioPts : Z;
  muxerStarted : bool
}.

Definition hasMime (mimePrefix : string) (trk : Track) : bool :=
  match mime (format trk) with
  | Some m => String.prefix mimePrefix m
  | None => false
  end.

(** The body of [for (i in 0 until extractor.trackCount)] on the first
    valid segment. *)
Definition registerTrack (st : MuxState) (trk : Track) : MuxState :=
  match mime (format trk) with
  | None => st
  | Some m =>
      if String.prefix "video/" m && (videoTrackIndex st <? 0) then
        let '(i, mx) := addTrack (format trk) (muxer st) in
        {| muxer := mx; videoTrackIndex := i; audioTrackIndex := audioTrackIndex st;
           lastVideoPts := lastVideoPts st; lastAudioPts := lastAudioPts st;
           muxerStarted := muxerStarted st |}
      else if String.prefix "audio/" m && (audioTrackIndex st <? 0) then
        let '(i, mx) := addTrack (format trk) (muxer st) in
        {| muxer := mx; videoTrackIndex := videoTrackIndex st; audioTrackIndex := i;
           lastVideoPts := lastVideoPts st; lastAudioPts := lastAudioPts st;
           muxerStarted := muxerStarted st |}
      else st
  end.

(** The [while (true)] loop of [copyTrack] over the samples of the
    selected track. *)
Fixpoint copySamples (targetTrackIndex ptsOffset : Z) (todo : list Sample)
    (maxPts : Z) (m : Muxer) : Z * Muxer :=
  match todo with
  | [] => (maxPts, m)
  | s :: rest =>
      let pts := Kt.ladd (sampleTime s) ptsOffset in
      let maxPts' := if pts >? maxPts then pts else maxPts in
      let m' := writeSampleData
                  {| trackIndex := targetTrackIndex;
                     presentationTimeUs := pts;
                     size := Z.of_nat (List.length (sampleData s));
                     flags := sampleFlags s;
                     data := sampleData s |} m in
      copySamples targetTrackIndex ptsOffset rest maxPts' m'
  end.

(** The samples [readSampleData] yields after the selection loop: those of
    the first track whose mime starts with [mimePrefix], none when there is
    no such track. *)
Definition selectedSamples (tracks : list Track) (mimePrefix : string) : list Sample :=
  match List.find (hasMime mimePrefix) tracks with
  | Some trk => samples trk
  | None => []
  end.

Definition copyTrack (tracks : list Track) (m : Muxer) (targetTrackIndex : Z)
    (mimePrefix : string) (ptsOffset : Z) : Z * Muxer :=
  let '(maxPts, m') :=
    copySamples targetTrackIndex ptsOffset (selectedSamples tracks mimePrefix) ptsOffset m in
  (Kt.ladd maxPts FRAME_DURATION_US, m').

Section WithPlatform.
Context `{Platform}.

(** One iteration of [for ((index, segment) in segments.withIndex())];
    an exception inside it is caught and leaves what was done before. *)
Definition processSegment (fs : Fs) (st : MuxState) (segment : File) : MuxState :=
  if negb (Files.exists_ segment fs) || (Files.length segment fs =? 0) then st
  else
    match fs !! segment ≫= extract with
    | None => st
    | Some tracks =>
        let st1 := if muxerStarted st then st else foldl registerTrack st tracks in
        if negb (muxerStarted st) && negb (start_ok (formats (muxer st1))) then st1
        else
          let '(lastV, m2) :=
            if videoTrackIndex st1 >=? 0
            then copyTrack tracks (muxer st1) (videoTrackIndex st1) "video/" (lastVideoPts st1)
            else (lastVideoPts st1, muxer st1) in
          let '(lastA, m3) :=
            if audioTrackIndex st1 >=? 0
            then copyTrack tracks m2 (audioTrackIndex st1) "audio/" (lastAudioPts st1)
            else (lastAudioPts st1, m2) in
          {| muxer := m3;
             videoTrackIndex := videoTrackIndex st1;
             audioTrackIndex := audioTrackIndex st1;
             lastVideoPts := lastV;
             lastAudioPts := lastA;
             muxerStarted := true |}
    end.

Definition initialMuxState : MuxState :=
  {| muxer := {| formats := []; written := [] |};
     videoTrackIndex := -1; audioTrackIndex := -1;
     lastVideoPts := 0; lastAudioPts := 0;
     muxerStarted := false |}.

(** The state after the [for] loop; the [MediaMuxer] constructor has
    created [output] empty before the first segment is read. *)
Definition muxSegments (segments : list File) (output : File) (fs : Fs) : MuxState :=
  foldl (processSegment (<[output := []]> fs)) initialMuxState segments.

(** [concatenateWithMuxer]: [stop()] and [release()] leave the container
    in [output] when the muxer was started. *)
Definition concatenateWithMuxer (segments : list File) (output : File) (fs : Fs) : Fs :=
  let st := muxSegments segments output fs in
  if muxerStarted st
  then <[output := container (formats (muxer st)) (written (muxer st))]> fs
  else <[output := []]> fs.

End WithPlatform.

(** An entry of [MediaStore.Video.Media.EXTERNAL_CONTENT_URI]. *)
Record StoreEntry := {
  displayName : string;
  mimeType : string;
  relativePath : option string;
  isPending : bool;
  content : list byte
}.

(** What the platform answers while [saveToMediaStore] runs. *)
Record SinkEnv := {
  sdkAtLeastQ : bool;
  insertResult : option string;
  opensOutputStream : bool
}.

Record World := {
  fs : Fs;
  mediaStore : gmap string StoreEntry
}.

(** [saveToMediaStore]: the saved uri, or [None] when it throws, and the
    world it leaves. *)
Definition saveToMediaStore (env : SinkEnv) (tempFile : File) (fileName : string)
    (w : World) : option string * World :=
  match insertResult env with
  | None => (None, w)
  | Some uri =>
      let entry pending bytes :=
        {| displayName := fileName;
           mimeType := "video/mp4";
           relativePath := if sdkAtLeastQ env then Some "Movies/RORK" else None;
           isPending := pending;
           content := bytes |} in
      let inserted := <[uri := entry (sdkAtLeastQ env) []]> (mediaStore w) in
      if opensOutputStream env then
        match fs w !! tempFile with
        | None => (None, {| fs := fs w; mediaStore := inserted |})
        | Some bytes =>
            (Some uri, {| fs := fs w; mediaStore := <[uri := entry false bytes]> inserted |})
        end
      else (Some uri, {| fs := fs w; mediaStore := <[uri := entry false []]> inserted |})
  end.

(** [File(context.cacheDir, "temp_output_$timestamp.mp4")] *)
Definition tempOutputFile (cacheDir stamp : string) : File :=
  Files.child cacheDir ("temp_output_" +:+ stamp +:+ ".mp4").

Section WithPlatform.
Context `{Platform}.

(** [concatenateSegments]; [stamp] is the formatted [Date()]. *)
Definition concatenateSegments (cacheDir : string) (stamp : string) (env : SinkEnv)
    (segments : list File) (username : string) (w : World) : option string * World :=
  match segments with
  | [] => (None, w)
  | first :: others =>
      let outputFileName := username +:+ "_" +:+ stamp +:+ ".mp4" in
      let tempOutput := tempOutputFile cacheDir stamp in
      let copied :=
        match others with
        | [] => Files.copyTo first tempOutput (fs w)
        | _ => Some (concatenateWithMuxer segments tempOutput (fs w))
        end in
      match copied with
      | None =>
          (None, {| fs := Files.delete tempOutput (fs w); mediaStore := mediaStore w |})
      | Some fs1 =>
          let w1 := {| fs := fs1; mediaStore := mediaStore w |} in
          match saveToMediaStore env tempOutput outputFileName w1 with
          | (Some savedPath, w2) =>
              (Some savedPath,
               {| fs := Files.delete tempOutput (fs w2); mediaStore := mediaStore w2 |})
          | (None, w2) =>
              (None, {| fs := Files.delete tempOutput (fs w2); mediaStore := mediaStore w2 |})
          end
      end
  end.

End WithPlatform.

End VideoMuxer.

(** *** Observing the Concatenator *)

Module MuxObs.
Import Media VideoMuxer.

(** The timestamps written to output track [i], in writing order. *)
Definition ptsOf (i : Z) (m : Muxer) : list Z :=
  presentationTimeUs <$> filter (λ w, trackIndex w = i) (written m).

(** The original timestamps [copyTrack] reads from these tracks for a
    mime prefix. *)
Definition timesOf (mimePrefix : string) (tracks : list Track) : list Z :=
  sampleTime <$> selectedSamples tracks mimePrefix.

(** What [copyTrack] writes for sample [s] to track [i] under the offset
    [ptsOffset]. *)
Definition rewriteSample (i ptsOffset : Z) (s : Sample) : Written :=
  {| trackIndex := i;
     presentationTimeUs := Kt.ladd (sampleTime s) ptsOffset;
     size := Z.of_nat (List.length (sampleData s));
     flags := sampleFlags s;
     data := sampleData s |}.

(** The largest timestamp [copyTrack] has seen after these samples. *)
Definition maxPtsAfter (ptsOffset : Z) (todo : list Sample) (maxPts : Z) : Z :=
  foldl (λ acc s, let pts := Kt.ladd (sampleTime s) ptsOffset in
                  if pts >? acc then pts else acc) maxPts todo.

(** The two kinds of track the muxer carries. *)
Inductive Kind := Video | Audio.

Definition mimePrefix (k : Kind) : string :=
  match k with
  | Video => "video/"
  | Audio => "audio/"
  end.

Definition indexOf (k : Kind) (st : MuxState) : Z :=
  match k with
  | Video => videoTrackIndex st
  | Audio => audioTrackIndex st
  end.

Definition lastPtsOf (k : Kind) (st : MuxState) : Z :=
  match k with
  | Video => lastVideoPts st
  | Audio => lastAudioPts st
  end.

(** A track of one of the two kinds the muxer carries. *)
Definition usable (trk : Track) : bool := hasMime "video/" trk || hasMime "audio/" trk.

Definition other (k : Kind) : Kind :=
  match k with
  | Video => Audio
  | Audio => Video
  end.

(** What was written to output track [i] besides the timestamps: the
    flags, the size and the bytes of each sample, in writing order. *)
Definition payloadOf (i : Z) (m : Muxer) : list (Z * Z * list byte) :=
  (λ w, (flags w, size w, data w)) <$> filter (λ w, trackIndex w = i) (written m).

(** The same for the samples [copyTrack] reads from these tracks for a
    mime prefix. *)
Definition payloadsOf (mimePrefix : string) (tracks : list Track)
  : list (Z * Z * list byte) :=
  (λ s, (sampleFlags s, Z.of_nat (List.length (sampleData s)), sampleData s))
    <$> selectedSamples tracks mimePrefix.

Section WithPlatform.
Context `{Platform}.

(** The tracks of a segment that is not skipped: the file exists, is not
    empty and the extractor opens it. *)
Definition tracksOf (fs : Fs) (segment : File) : option (list Track) :=
  if negb (Files.exists_ segment fs) || (Files.length segment fs =? 0) then None
  else fs !! segment ≫= extract.



End WithPlatform.

Section WithPlatform.
Context `{Platform}.

(** What [processSegment] does with a segment that is not skipped,
    given its tracks. *)
Definition processTracks (st : MuxState) (tracks : list Track) : MuxState :=
  let st1 := if muxerStarted st then st else foldl registerTrack st tracks in
  if negb (muxerStarted st) && negb (start_ok (formats (muxer st1))) then st1
  else
    let v := videoTrackIndex st1 in
    let a := audioTrackIndex st1 in
    let videoSamples := if v >=? 0 then selectedSamples tracks "video/" else [] in
    let audioSamples := if a >=? 0 then selectedSamples tracks "audio/" else [] in
    {| muxer :=
         {| formats := formats (muxer st1);
            written :=
              written (muxer st1)
              ++ (rewriteSample v (lastVideoPts st1) <$> videoSamples)
              ++ (rewriteSample a (lastAudioPts st1) <$> audioSamples) |};
       videoTrackIndex := v;
       audioTrackIndex := a;
       lastVideoPts :=
         if v >=? 0
         then Kt.ladd (maxPtsAfter (lastVideoPts st1) (selectedSamples tracks "video/")
                         (lastVideoPts st1)) FRAME_DURATION_US
         else lastVideoPts st1;
       lastAudioPts :=
         if a >=? 0
         then Kt.ladd (maxPtsAfter (lastAudioPts st1) (selectedSamples tracks "audio/")
                         (lastAudioPts st1)) FRAME_DURATION_US
         else lastAudioPts st1;
       muxerStarted := true |}.

End WithPlatform.

(** The two output tracks, when both are there, are different tracks. *)
Definition distinct (st : MuxState) : Prop :=
  0 <= videoTrackIndex st → 0 <= audioTrackIndex st →
  videoTrackIndex st ≠ audioTrackIndex st.

(** Each track index is [-1] or the position of a registered format. *)
Definition registered (st : MuxState) : Prop :=
  (videoTrackIndex st = -1
   ∨ 0 <= videoTrackIndex st < Z.of_nat (List.length (formats (muxer st))))
  ∧ (audioTrackIndex st = -1
     ∨ 0 <= audioTrackIndex st < Z.of_nat (List.length (formats (muxer st))))
  ∧ distinct st.

(** The state with the muxer started. *)
Definition setStarted (st : MuxState) : MuxState :=
  {| muxer := muxer st;
     videoTrackIndex := videoTrackIndex st; audioTrackIndex := audioTrackIndex st;
     lastVideoPts := lastVideoPts st; lastAudioPts := lastAudioPts st;
     muxerStarted := true |}.


End MuxObs.

(** *** The timeline as the specification words it *)

Module Timeline.

(** [maxTimestampWritten], the running offset when nothing was written. *)
Definition maxTimestamp (offset : Z) (out : list Z) : Z := foldl Z.max offset out.

(** Each sample's timestamp becomes [originalTimestamp + runningOffset];
    after a segment the offset advances to
    [maxTimestampWritten + oneNominalFrameDuration]. One list of original
    timestamps per segment, one list of rewritten timestamps per segment. *)
Fixpoint rewritten (frame offset : Z) (segments : list (list Z)) : list (list Z) :=
  match segments with
  | [] => []
  | times :: rest =>
      let out := (λ t, t + offset) <$> times in
      out :: rewritten frame (maxTimestamp offset out + frame) rest
  end.

(** The largest timestamp of a segment, [None] when it has no sample. *)
Definition latest (out : list Z) : option Z :=
  match out with
  | [] => None
  | x :: rest => Some (foldl Z.max x rest)
  end.

(** No original timestamp is negative. *)
Definition nonneg (segments : list (list Z)) : Prop :=
  ∀ times t, times ∈ segments → t ∈ times → 0 <= t.

(** The step of the timestamps from the last sample of one segment to the
    first sample of the next. *)
Definition boundaryGap (prev next : list Z) : option Z :=
  match last prev, head next with
  | Some a, Some b => Some (b - a)
  | _, _ => None
  end.

(** Strictly increasing across every segment boundary, with no step larger
    than one nominal frame duration. *)
Definition continuous (frame : Z) (chunks : list (list Z)) : Prop :=
  ∀ i prev next gap,
    chunks !! i = Some prev → chunks !! S i = Some next →
    boundaryGap prev next = Some gap → 0 < gap <= frame.

End Timeline.

(** *** A small platform to run the model on *)

Module Toy.
Import Media.

Definition videoFormat : MediaFormat := {| mime := Some "video/avc"; codecParams := [] |}.

(** A file is one video track with one sample per byte, the byte giving
    the timestamp in milliseconds. *)
Definition track (bytes : list byte) : Track :=
  {| format := videoFormat;
     samples := (λ b, {| sampleTime := 1000 * Z.of_N (Byte.to_N b);
                         sampleFlags := 0;
                         sampleData := [b] |}) <$> bytes |}.

Definition toyExtract (bytes : list byte) : option (list Track) := Some [track bytes].

Definition toyContainer (fmts : list MediaFormat) (ws : list Written) : list byte :=
  concat (data <$> ws).

Definition platform : Platform :=
  {| extract := toyExtract;
     start_ok := λ fmts, negb (bool_decide (fmts = []));
     container := toyContainer |}.

End Toy.

(* ===================================================================== *)
(** ** CircularBufferRecorder.kt: the Session Controller *)
(* ===================================================================== *)

Module Recorder.
Import VideoMuxer.

(** The repository has the controller twice: bound to CameraX use cases
    ([CircularBufferRecorder.kt]) and to a [LifecycleCameraController]. *)
Inductive Variant := UseCases | Controller.

Definition SEGMENT_DURATION_MS (v : Variant) : Z :=
  match v with
  | UseCases => 500
  | Controller => 2000
  end.

Definition DEFAULT_BUFFER_SECONDS : Z := 5.

Inductive State := IDLE | BUFFERING | CAPTURING_POST | FINALIZING.

Global Instance State_eq_dec : EqDecision State.
Proof. solve_decision. Defined.

(** An invocation of one of the callback fields. *)
Inductive Event :=
| BufferReady
| CaptureStarted
| CaptureCompleted (outputPath : string)
| Error (code message : string)
| StateChanged (s : State).

(** The fields of [TelemetryCollector] the controller writes. *)
Record Telemetry := {
  isCollecting : bool;
  triggerPressTime : Z;
  recordingStartTime : Z;
  metrics : list (Z * Z)
}.

(** A CameraX [Recording] handle. *)
Record Recording := { stopped : bool }.

Record t := {
  variant : Variant;
  state : State;
  isTriggerActive : bool;
  currentRecording : option Recording;
  cameraBound : bool;
  segmentManager : SegmentManager.t;
  telemetry : Telemetry;
  executorShutdown : bool;
  scopeActive : bool;
  preBufferSeconds : Z;
  postBufferSeconds : Z;
  currentUsername : string;
  jobActive : bool;
  preSegments : list File;
  postSegments : list File;
  emitted : list Event
}.

Definition new (v : Variant) (cache : string) : t :=
  {| variant := v; state := IDLE; isTriggerActive := false;
     currentRecording := None; cameraBound := false;
     segmentManager := SegmentManager.new cache;
     telemetry := {| isCollecting := false; triggerPressTime := 0;
                     recordingStartTime := 0; metrics := [] |};
     executorShutdown := false; scopeActive := true;
     preBufferSeconds := DEFAULT_BUFFER_SECONDS;
     postBufferSeconds := DEFAULT_BUFFER_SECONDS;
     currentUsername := "user"; jobActive := false;
     preSegments := []; postSegments := []; emitted := [] |}.

(** Field updates. *)
Definition set_state (s : State) (r : t) : t :=
  {| variant := variant r; state := s; isTriggerActive := isTriggerActive r;
     currentRecording := currentRecording r; cameraBound := cameraBound r;
     segmentManager := segmentManager r; telemetry := telemetry r;
     executorShutdown := executorShutdown r; scopeActive := scopeActive r;
     preBufferSeconds := preBufferSeconds r; postBufferSeconds := postBufferSeconds r;
     currentUsername := currentUsername r; jobActive := jobActive r;
     preSegments := preSegments r; postSegments := postSegments r;
     emitted := emitted r |}.

Definition set_isTriggerActive (b : bool) (r : t) : t :=
  {| variant := variant r; state := state r; isTriggerActive := b;
     currentRecording := currentRecording r; cameraBound := cameraBound r;
     segmentManager := segmentManager r; telemetry := telemetry r;
     executorShutdown := executorShutdown r; scopeActive := scopeActive r;
     preBufferSeconds := preBufferSeconds r; postBufferSeconds := postBufferSeconds r;
     currentUsername := currentUsername r; jobActive := jobActive r;
     preSegments := preSegments r; postSegments := postSegments r;
     emitted := emitted r |}.

Definition set_currentRecording (c : option Recording) (r : t) : t :=
  {| variant := variant r; state := state r; isTriggerActive := isTriggerActive r;
     currentRecording := c; cameraBound := cameraBound r;
     segmentManager := segmentManager r; telemetry := telemetry r;
     executorShutdown := executorShutdown r; scopeActive := scopeActive r;
     preBufferSeconds := preBufferSeconds r; postBufferSeconds := postBufferSeconds r;
     currentUsername := currentUsername r; jobActive := jobActive r;
     preSegments := preSegments r; postSegments := postSegments r;
     emitted := emitted r |}.

Definition set_segmentManager (sm : SegmentManager.t) (r : t) : t :=
  {| variant := variant r; state := state r; isTriggerActive := isTriggerActive r;
     currentRecording := currentRecording r; cameraBound := cameraBound r;
     segmentManager := sm; telemetry := telemetry r;
     executorShutdown := executorShutdown r; scopeActive := scopeActive r;
     preBufferSeconds := preBufferSeconds r; postBufferSeconds := postBufferSeconds r;
     currentUsername := currentUsername r; jobActive := jobActive r;
     preSegments := preSegments r; postSegments := postSegments r;
     emitted := emitted r |}.

Definition set_telemetry (tl : Telemetry) (r : t) : t :=
  {| variant := variant r; state := state r; isTriggerActive := isTriggerActive r;
     currentRecording := currentRecording r; cameraBound := cameraBound r;
     segmentManager := segmentManager r; telemetry := tl;
     executorShutdown := executorShutdown r; scopeActive := scopeActive r;
     preBufferSeconds := preBufferSeconds r; postBufferSeconds := postBufferSeconds r;
     currentUsername := currentUsername r; jobActive := jobActive r;
     preSegments := preSegments r; postSegments := postSegments r;
     emitted := emitted r |}.

Definition set_buffers (pre post : Z) (r : t) : t :=
  {| variant := variant r; state := state r; isTriggerActive := isTriggerActive r;
     currentRecording := currentRecording r; cameraBound := cameraBound r;
     segmentManager := segmentManager r; telemetry := telemetry r;
     executorShutdown := executorShutdown r; scopeActive := scopeActive r;
     preBufferSeconds := pre; postBufferSeconds := post;
     currentUsername := currentUsername r; jobActive := jobActive r;
     preSegments := preSegments r; postSegments := postSegments r;
     emitted := emitted r |}.

Definition set_preSegments (l : list File) (r : t) : t :=
  {| variant := variant r; state := state r; isTriggerActive := isTriggerActive r;
     currentRecording := currentRecording r; cameraBound := cameraBound r;
     segmentManager := segmentManager r; telemetry := telemetry r;
     executorShutdown := executorShutdown r; scopeActive := scopeActive r;
     preBufferSeconds := preBufferSeconds r; postBufferSeconds := postBufferSeconds r;
     currentUsername := currentUsername r; jobActive := jobActive r;
     preSegments := l; postSegments := postSegments r;
     emitted := emitted r |}.

Definition set_postSegments (l : list File) (r : t) : t :=
  {| variant := variant r; state := state r; isTriggerActive := isTriggerActive r;
     currentRecording := currentRecording r; cameraBound := cameraBound r;
     segmentManager := segmentManager r; telemetry := telemetry r;
     executorShutdown := executorShutdown r; scopeActive := scopeActive r;
     preBufferSeconds := preBufferSeconds r; postBufferSeconds := postBufferSeconds r;
     currentUsername := currentUsername r; jobActive := jobActive r;
     preSegments := preSegments r; postSegments := l;
     emitted := emitted r |}.

(** Cancelling the job and the scope, unbinding, shutting the executor. *)
Definition set_resources (job scope bound shut : bool) (r : t) : t :=
  {| variant := variant r; state := state r; isTriggerActive := isTriggerActive r;
     currentRecording := currentRecording r; cameraBound := bound;
     segmentManager := segmentManager r; telemetry := telemetry r;
     executorShutdown := shut; scopeActive := scope;
     preBufferSeconds := preBufferSeconds r; postBufferSeconds := postBufferSeconds r;
     currentUsername := currentUsername r; jobActive := job;
     preSegments := preSegments r; postSegments := postSegments r;
     emitted := emitted r |}.

(** [callback?.invoke(...)] *)
Definition emit (e : Event) (r : t) : t :=
  {| variant := variant r; state := state r; isTriggerActive := isTriggerActive r;
     currentRecording := currentRecording r; cameraBound := cameraBound r;
     segmentManager := segmentManager r; telemetry := telemetry r;
     executorShutdown := executorShutdown r; scopeActive := scopeActive r;
     preBufferSeconds := preBufferSeconds r; postBufferSeconds := postBufferSeconds r;
     currentUsername := currentUsername r; jobActive := jobActive r;
     preSegments := preSegments r; postSegments := postSegments r;
     emitted := emitted r ++ [e] |}.

(** The loop job lives in the recording scope: it is not active once the
    scope is cancelled. *)
Definition job_in_scope (r : t) : Prop := jobActive r = true → scopeActive r = true.

(** *** Telemetry calls *)

Definition onTriggerPressed (now : Z) (tl : Telemetry) : Telemetry :=
  {| isCollecting := isCollecting tl; triggerPressTime := now;
     recordingStartTime := recordingStartTime tl; metrics := metrics tl |}.

Definition onRecordingStarted (now : Z) (tl : Telemetry) : Telemetry :=
  {| isCollecting := isCollecting tl; triggerPressTime := triggerPressTime tl;
     recordingStartTime := now; metrics := metrics tl |}.

Definition stopCollection (tl : Telemetry) : Telemetry :=
  {| isCollecting := false; triggerPressTime := triggerPressTime tl;
     recordingStartTime := recordingStartTime tl; metrics := metrics tl |}.

Definition updateBufferInfo (segs sizeKb : Z) (tl : Telemetry) : Telemetry :=
  {| isCollecting := isCollecting tl; triggerPressTime := triggerPressTime tl;
     recordingStartTime := recordingStartTime tl;
     metrics := match reverse (metrics tl) with
                | [] => []
                | _ :: earlier => reverse earlier ++ [(segs, sizeKb)]
                end |}.

Definition clearMetrics (tl : Telemetry) : Telemetry :=
  {| isCollecting := isCollecting tl; triggerPressTime := 0;
     recordingStartTime := 0; metrics := [] |}.

Record LatencyMetrics := {
  triggerToRecordingMs : Z;
  recordingToCompletionMs : Z;
  totalCaptureMs : Z
}.

(** [getLatencyMetrics()]; [now] is [System.currentTimeMillis()]. *)
Definition getLatencyMetrics (now : Z) (tl : Telemetry) : LatencyMetrics :=
  {| triggerToRecordingMs :=
       if (recordingStartTime tl >? 0) && (triggerPressTime tl >? 0)
       then Kt.lsub (recordingStartTime tl) (triggerPressTime tl) else 0;
     recordingToCompletionMs :=
       if recordingStartTime tl >? 0 then Kt.lsub now (recordingStartTime tl) else 0;
     totalCaptureMs :=
       if triggerPressTime tl >? 0 then Kt.lsub now (triggerPressTime tl) else 0 |}.

(** *** Configuration *)

Definition setClipDuration (totalSeconds : Z) (r : t) : t :=
  let pre := Kt.idiv totalSeconds 2 in
  let post := Kt.isub totalSeconds pre in
  set_segmentManager (SegmentManager.setBufferDuration pre (segmentManager r))
    (set_buffers pre post r).

(** The character class [[a-zA-Z0-9_]]. *)
Definition wordChar (c : Ascii.ascii) : bool :=
  let n := Ascii.N_of_ascii c in
  ((97 <=? n) && (n <=? 122) || (65 <=? n) && (n <=? 90)
   || (48 <=? n) && (n <=? 57) || (n =? 95))%N.

(** [username.replace(Regex("[^a-zA-Z0-9_]"), "_")] on a string of
    one-unit characters. *)
Fixpoint sanitize (username : string) : string :=
  match username with
  | EmptyString => EmptyString
  | String c rest => String (if wordChar c then c else "_"%char) (sanitize rest)
  end.

Definition set_currentUsername (name : string) (r : t) : t :=
  {| variant := variant r; state := state r; isTriggerActive := isTriggerActive r;
     currentRecording := currentRecording r; cameraBound := cameraBound r;
     segmentManager := segmentManager r; telemetry := telemetry r;
     executorShutdown := executorShutdown r; scopeActive := scopeActive r;
     preBufferSeconds := preBufferSeconds r; postBufferSeconds := postBufferSeconds r;
     currentUsername := name; jobActive := jobActive r;
     preSegments := preSegments r; postSegments := postSegments r;
     emitted := emitted r |}.

Definition setUsername (username : string) (r : t) : t :=
  set_currentUsername (sanitize username) r.

(** *** The state machine *)

(** [startBuffering()]; [permitted] is the answer of [checkPermissions()].
    Launching the loop in a cancelled scope gives a cancelled job. *)
Definition startBuffering (permitted : bool) (r : t) (w : World) : t * World :=
  if negb (bool_decide (state r = IDLE)) then (r, w)
  else if negb permitted then
    (emit (Error "PERMISSION_DENIED" "Camera or audio permission not granted") r, w)
  else
    let r1 := emit (StateChanged BUFFERING) (set_state BUFFERING r) in
    let w1 := {| fs := SegmentManager.cleanupOrphanFiles (segmentManager r1) (fs w);
                 mediaStore := mediaStore w |} in
    let r2 := set_resources (scopeActive r1) (scopeActive r1) (cameraBound r1)
                (executorShutdown r1) r1 in
    (emit BufferReady r2, w1).

(** [triggerCapture()]; the two arguments are the clock readings of
    [onTriggerPressed] and [onRecordingStarted]. *)
Definition triggerCapture (nowPressed nowStarted : Z) (r : t) (w : World) : t :=
  if negb (bool_decide (state r = BUFFERING)) then
    emit (Error "INVALID_STATE" "Camera not in buffering state") r
  else
    let r1 := set_telemetry (onTriggerPressed nowPressed (telemetry r)) r in
    let r2 := set_isTriggerActive true r1 in
    let r3 := set_preSegments (SegmentManager.freezeBuffer (segmentManager r2) (fs w)) r2 in
    let r4 := set_postSegments [] r3 in
    let r5 := emit (StateChanged CAPTURING_POST) (set_state CAPTURING_POST r4) in
    let r6 := set_telemetry (onRecordingStarted nowStarted (telemetry r5)) r5 in
    emit CaptureStarted r6.

Definition resetToIdle (r : t) (w : World) : t * World :=
  let r1 := set_isTriggerActive false (set_postSegments [] (set_preSegments [] r)) in
  let '(sm, fs') := SegmentManager.clearBuffer (segmentManager r1) (fs w) in
  let r2 := set_segmentManager sm r1 in
  (emit (StateChanged IDLE) (set_state IDLE r2),
   {| fs := fs'; mediaStore := mediaStore w |}).

(** What the surroundings decide while [finalizeCapture] runs: the
    formatted date, the answers of the media store, and an exception
    raised inside the [try] block before the muxer is called. *)
Record FinalizeEnv := {
  stamp : string;
  sink : SinkEnv;
  fault : option string
}.

Section WithPlatform.
Context `{Media.Platform}.

(** [finalizeCapture()]; the coroutine it launches runs only in a scope
    that was not cancelled. *)
Definition finalizeCapture (env : FinalizeEnv) (r : t) (w : World) : t * World :=
  let r1 := emit (StateChanged FINALIZING) (set_state FINALIZING r) in
  if negb (scopeActive r1) then (r1, w)
  else
    match fault env with
    | Some message => resetToIdle (emit (Error "FINALIZE_FAILED" message) r1) w
    | None =>
        let allSegments := preSegments r1 ++ postSegments r1 in
        match allSegments with
        | [] => resetToIdle (emit (Error "NO_SEGMENTS" "No video segments to save") r1) w
        | _ =>
            let '(outputPath, w1) :=
              concatenateSegments (SegmentManager.cacheDir (segmentManager r1))
                (stamp env) (sink env) allSegments (currentUsername r1) w in
            match outputPath with
            | Some path => resetToIdle (emit (CaptureCompleted path) r1) w1
            | None =>
                resetToIdle (emit (Error "MUXER_FAILED" "Failed to create final video") r1) w1
            end
        end
    end.

End WithPlatform.

(** [stopCamera()] *)
Definition stopCamera (r : t) (w : World) : t * World :=
  let r1 := set_resources false (scopeActive r) (cameraBound r) (executorShutdown r) r in
  let r2 := set_currentRecording
              (match variant r1 with
               | UseCases => (λ _, {| stopped := true |}) <$> currentRecording r1
               | Controller => None
               end) r1 in
  let r3 := set_telemetry (stopCollection (telemetry r2)) r2 in
  let '(sm, fs') := SegmentManager.clearBuffer (segmentManager r3) (fs w) in
  let r4 := set_segmentManager sm r3 in
  let r5 := set_resources false false false true r4 in
  (set_state IDLE r5, {| fs := fs'; mediaStore := mediaStore w |}).

(** *** The segment-record loop *)

(** A call made from the caller's context while the loop is suspended in
    [recordSegment]. *)
Inductive Call :=
| CallTrigger (nowPressed nowStarted : Z)
| CallStop
| CallSetClipDuration (totalSeconds : Z).

Definition applyCall (rw : t * World) (c : Call) : t * World :=
  match c with
  | CallTrigger nowPressed nowStarted => (triggerCapture nowPressed nowStarted rw.1 rw.2, rw.2)
  | CallStop => stopCamera rw.1 rw.2
  | CallSetClipDuration totalSeconds => (setClipDuration totalSeconds rw.1, rw.2)
  end.

(** What happens around one iteration: the clock, whether the backend
    started a recording, the bytes it left in the segment file ([None]: no
    file), and the calls that arrived meanwhile. A call is applied with
    these bytes in the file: it sees the segment as the recording leaves
    it, not an earlier stage of it. *)
Record Iteration := {
  now : Z;
  started : bool;
  recorded : option (list byte);
  during : list Call
}.

Definition recordSegment (it : Iteration) (segmentFile : File) (r : t) (w : World)
  : t * World :=
  let rec :=
    match variant r with
    | UseCases =>
        if started it then Some {| stopped := true |}
        else (λ _, {| stopped := true |}) <$> currentRecording r
    | Controller => None
    end in
  (set_currentRecording rec r,
   {| fs := match recorded it with
            | Some bytes => <[segmentFile := bytes]> (fs w)
            | None => fs w
            end;
      mediaStore := mediaStore w |}).

Definition telemetryUpdate (r : t) (w : World) : t :=
  let status := SegmentManager.getBufferStatus (segmentManager r) (fs w) in
  set_telemetry
    (updateBufferInfo (SegmentManager.segmentCount status)
       (Kt.ldiv (SegmentManager.totalSizeBytes status) 1024) (telemetry r)) r.

Inductive LoopStep :=
| Continue (r : t) (w : World)
| Break (r : t) (w : World).

Definition stepRecorder (s : LoopStep) : t :=
  match s with
  | Continue r _ => r
  | Break r _ => r
  end.

Definition stepWorld (s : LoopStep) : World :=
  match s with
  | Continue _ w => w
  | Break _ w => w
  end.

Definition isBreak (s : LoopStep) : bool :=
  match s with
  | Continue _ _ => false
  | Break _ _ => true
  end.

(** The [while] condition. *)
Definition loopCond (r : t) : bool :=
  jobActive r
  && (bool_decide (state r = BUFFERING) || bool_decide (state r = CAPTURING_POST)).

(** The body of the [while] loop; [None] when [trimBuffer] does not
    return within [fuel]. *)
Definition loopBody (fuel : nat) (it : Iteration) (r : t) (w : World) : option LoopStep :=
  match SegmentManager.createNewSegment fuel (now it) (segmentManager r) (fs w) with
  | None => None
  | Some (segmentFile, sm, fs1) =>
      let r1 := set_segmentManager sm r in
      let w1 := {| fs := fs1; mediaStore := mediaStore w |} in
      let '(r2, w2) := recordSegment it segmentFile r1 w1 in
      let '(r3, w3) := foldl applyCall (r2, w2) (during it) in
      if bool_decide (state r3 = CAPTURING_POST) then
        let r4 := set_postSegments (postSegments r3 ++ [segmentFile]) r3 in
        let postDurationMs :=
          Kt.lmul (Kt.toInt (Z.of_nat (List.length (postSegments r4))))
            (SEGMENT_DURATION_MS (variant r4)) in
        if postDurationMs >=? Kt.lmul (postBufferSeconds r4) 1000
        then Some (Break r4 w3)
        else Some (Continue (telemetryUpdate r4 w3) w3)
      else Some (Continue (telemetryUpdate r3 w3) w3)
  end.

Section WithPlatform.
Context `{Media.Platform}.

(** After the loop: [withContext] runs [finalizeCapture] unless the job
    was cancelled. *)
Definition afterLoop (env : FinalizeEnv) (r : t) (w : World) : t * World :=
  if bool_decide (state r = CAPTURING_POST) && jobActive r
  then finalizeCapture env r w
  else (r, w).

(** The coroutine of [startSegmentLoop] run over the scripted
    iterations; [None] while it has not ended. *)
Fixpoint segmentLoop (fuel : nat) (env : FinalizeEnv) (its : list Iteration)
    (r : t) (w : World) : option (t * World) :=
  if loopCond r then
    match its with
    | [] => None
    | it :: rest =>
        match loopBody fuel it r w with
        | None => None
        | Some (Break r' w') => Some (afterLoop env r' w')
        | Some (Continue r' w') => segmentLoop fuel env rest r' w'
        end
    end
  else Some (afterLoop env r w).

End WithPlatform.

End Recorder.

(* ===================================================================== *)
(** ** CameraModule.kt: the bridge to JavaScript *)
(* ===================================================================== *)

Module CameraModule.
Import VideoMuxer.

(** What a method hands to its promise. *)
Inductive Value :=
| VTrue
| VNull
| VString (s : string)
| VSuccess (message username : string)
| VStatus (status : SegmentManager.BufferStatus).

Inductive Settled :=
| Resolved (value : Value)
| Rejected (code message : string).

(** [SecureAuthManager.AuthResult] *)
Inductive AuthResult :=
| Success (username : string)
| Error (message : string).

(** The fields of the module. *)
Record t := {
  recorder : option Recorder.t;
  currentUsername : option string
}.

Definition new : t := {| recorder := None; currentUsername := None |}.

(** [register]; [result] is the answer of [authManager.register]. *)
Definition register (result : AuthResult) (m : t) : Settled * t :=
  match result with
  | Success username =>
      (Resolved (VSuccess "Registration successful" username),
       {| recorder := recorder m; currentUsername := Some username |})
  | Error message => (Rejected "REGISTER_FAILED" message, m)
  end.

(** [login]; [result] is the answer of [authManager.login]. *)
Definition login (result : AuthResult) (m : t) : Settled * t :=
  match result with
  | Success username =>
      (Resolved (VSuccess "Login successful" username),
       {| recorder := Recorder.setUsername username <$> recorder m;
          currentUsername := Some username |})
  | Error message => (Rejected "LOGIN_FAILED" message, m)
  end.

Definition logout (m : t) : Settled * t :=
  (Resolved VTrue, {| recorder := recorder m; currentUsername := None |}).

(** [getUsername]; [stored] is the answer of [authManager.getUsername()]. *)
Definition getUsername (stored : option string) (m : t) : Settled * t :=
  let name := match currentUsername m with
              | Some username => Some username
              | None => stored
              end in
  (Resolved (match name with
             | Some username => VString username
             | None => VNull
             end),
   {| recorder := recorder m; currentUsername := name |}).

(** [initializeCamera]; the recorder it creates is of variant [v] and
    works in the cache directory [cache] of the context. *)
Definition initializeCamera (v : Recorder.Variant) (cache : string) (m : t) : Settled * t :=
  match currentUsername m with
  | None => (Rejected "NOT_AUTHENTICATED" "Please login first", m)
  | Some username =>
      (Resolved VTrue,
       {| recorder := Some (match recorder m with
                            | None => Recorder.setUsername username (Recorder.new v cache)
                            | Some r => r
                            end);
          currentUsername := currentUsername m |})
  end.

Definition setClipDuration (totalSeconds : Z) (m : t) : Settled * t :=
  match recorder m with
  | Some r =>
      (Resolved VTrue,
       {| recorder := Some (Recorder.setClipDuration totalSeconds r);
          currentUsername := currentUsername m |})
  | None => (Rejected "SET_DURATION_ERROR" "Camera not initialized", m)
  end.

Definition startBuffering (permitted : bool) (m : t) (w : World) : Settled * t * World :=
  match recorder m with
  | Some r =>
      let '(r', w') := Recorder.startBuffering permitted r w in
      (Resolved VTrue, {| recorder := Some r'; currentUsername := currentUsername m |}, w')
  | None => (Rejected "BUFFERING_ERROR" "Camera not initialized", m, w)
  end.

Definition triggerCapture (nowPressed nowStarted : Z) (m : t) (w : World) : Settled * t :=
  match recorder m with
  | Some r =>
      (Resolved VTrue,
       {| recorder := Some (Recorder.triggerCapture nowPressed nowStarted r w);
          currentUsername := currentUsername m |})
  | None => (Rejected "CAPTURE_ERROR" "Camera not initialized", m)
  end.

Definition stopCamera (m : t) (w : World) : Settled * t * World :=
  match recorder m with
  | Some r =>
      let '(r', w') := Recorder.stopCamera r w in
      (Resolved VTrue, {| recorder := Some r'; currentUsername := currentUsername m |}, w')
  | None => (Resolved VTrue, m, w)
  end.

Definition getBufferStatus (m : t) (w : World) : Settled :=
  match recorder m with
  | Some r =>
      Resolved (VStatus (SegmentManager.getBufferStatus (Recorder.segmentManager r) (fs w)))
  | None => Rejected "NOT_INITIALIZED" "Camera not initialized"
  end.

(** The names of the states on the JavaScript side. *)
Definition stateString (s : Recorder.State) : string :=
  match s with
  | Recorder.IDLE => "idle"
  | Recorder.BUFFERING => "buffering"
  | Recorder.CAPTURING_POST => "capturing"
  | Recorder.FINALIZING => "finalizing"
  end.

Definition getCameraState (m : t) : Settled :=
  Resolved (VString (stateString (match recorder m with
                                  | Some r => Recorder.state r
                                  | None => Recorder.IDLE
                                  end))).

End CameraModule.

(* ===================================================================== *)
(** * Properties *)
(* ===================================================================== *)

(** ** Integer arithmetic within range *)

Lemma toInt_id x : Kt.isInt x → Kt.toInt x = x.
Proof.
  unfold Kt.isInt, Kt.Int_MIN_VALUE, Kt.Int_MAX_VALUE, Kt.toInt, Kt.wrap.
  intros Hx. change (2 ^ (32 - 1)) with 2147483648. change (2 ^ 32) with 4294967296.
  rewrite Z.mod_small by lia. lia.
Qed.

Lemma toLong_id x : Kt.isLong x → Kt.toLong x = x.
Proof.
  unfold Kt.isLong, Kt.Long_MIN_VALUE, Kt.Long_MAX_VALUE, Kt.toLong, Kt.wrap.
  intros Hx. change (2 ^ (64 - 1)) with 9223372036854775808.
  change (2 ^ 64) with 18446744073709551616.
  rewrite Z.mod_small by lia. lia.
Qed.

Lemma isInt_isLong x : Kt.isInt x → Kt.isLong x.
Proof.
  unfold Kt.isInt, Kt.isLong, Kt.Int_MIN_VALUE, Kt.Int_MAX_VALUE,
    Kt.Long_MIN_VALUE, Kt.Long_MAX_VALUE. lia.
Qed.

Ltac unfold_ranges :=
  unfold Kt.isInt, Kt.isLong, Kt.Int_MIN_VALUE, Kt.Int_MAX_VALUE,
    Kt.Long_MIN_VALUE, Kt.Long_MAX_VALUE in *.

(** ** Configuration of the clip duration *)

(** C5. For a total clip duration [T >= 2], [setClipDuration T] sets the
    pre-window to [floor (T / 2)] and the post-window to [T] minus the
    pre-window, the two add up to [T], and the Segment Store's window
    duration becomes the pre-window. *)
Theorem setClipDuration_split (T : Z) (r : Recorder.t) :
  2 <= T → Kt.isInt T →
  let r' := Recorder.setClipDuration T r in
  Recorder.preBufferSeconds r' = T / 2
  ∧ Recorder.postBufferSeconds r' = T - Recorder.preBufferSeconds r'
  ∧ Recorder.preBufferSeconds r' + Recorder.postBufferSeconds r' = T
  ∧ SegmentManager.bufferDurationMs (Recorder.segmentManager r')
    = Recorder.preBufferSeconds r' * 1000
  ∧ SegmentManager.getBufferDurationSeconds (Recorder.segmentManager r')
    = Recorder.preBufferSeconds r'.
Proof.
  intros HT HI. cbn.
  assert (Hq : T ÷ 2 = T / 2) by (apply Z.quot_div_nonneg; lia).
  assert (Hd : 0 <= T / 2 <= T) by (split; [apply Z.div_pos; lia | apply Z.div_le_upper_bound; lia]).
  unfold Kt.idiv, Kt.isub, SegmentManager.getBufferDurationSeconds, Kt.lmul, Kt.ldiv. cbn.
  rewrite Hq.
  rewrite (toInt_id (T / 2)) by (unfold_ranges; lia).
  rewrite (toInt_id (T - T / 2)) by (unfold_ranges; lia).
  unfold Kt.lmul.
  rewrite (toLong_id (T / 2 * 1000)) by (unfold_ranges; lia).
  rewrite Z.quot_mul by lia.
  rewrite (toLong_id (T / 2)) by (unfold_ranges; lia).
  rewrite (toInt_id (T / 2)) by (unfold_ranges; lia).
  repeat split; lia.
Qed.

Lemma setClipDuration_split_witness :
  let r' := Recorder.setClipDuration 11 (Recorder.new Recorder.UseCases "/cache") in
  Recorder.preBufferSeconds r' = 11 / 2
  ∧ Recorder.postBufferSeconds r' = 11 - Recorder.preBufferSeconds r'
  ∧ Recorder.preBufferSeconds r' + Recorder.postBufferSeconds r' = 11
  ∧ SegmentManager.bufferDurationMs (Recorder.segmentManager r')
    = Recorder.preBufferSeconds r' * 1000
  ∧ SegmentManager.getBufferDurationSeconds (Recorder.segmentManager r')
    = Recorder.preBufferSeconds r'.
Proof.
  apply (setClipDuration_split 11 (Recorder.new Recorder.UseCases "/cache")).
  - lia.
  - unfold Kt.isInt, Kt.Int_MIN_VALUE, Kt.Int_MAX_VALUE. lia.
Defined.

(** ** Clearing the Segment Store *)

Lemma delete_if_exists (f : File) (fs : Fs) :
  (if Files.exists_ f fs then Files.delete f fs else fs) = delete f fs.
Proof.
  unfold Files.exists_, Files.delete. case_bool_decide as Hf; [done|].
  symmetry. apply delete_id. by apply eq_None_not_Some.
Qed.

Lemma clear_fold_lookup (segs : list SegmentManager.SegmentInfo) (fs : Fs) (f : File) :
  foldl (λ acc segment,
           if Files.exists_ (SegmentManager.file segment) acc
           then Files.delete (SegmentManager.file segment) acc else acc) fs segs !! f
  = if bool_decide (f ∈ SegmentManager.file <$> segs) then None else fs !! f.
Proof.
  revert fs. induction segs as [|s segs IH]; intros fs; cbn [foldl].
  - rewrite bool_decide_eq_false_2; [done|]. rewrite fmap_nil. apply not_elem_of_nil.
  - rewrite IH, delete_if_exists, fmap_cons.
    destruct (decide (f = SegmentManager.file s)) as [->|Hne].
    + rewrite lookup_delete_eq. rewrite (bool_decide_eq_true_2 (_ ∈ _ :: _)) by apply list_elem_of_here.
      destruct (bool_decide _); reflexivity.
    + rewrite lookup_delete_ne by done.
      rewrite (bool_decide_ext (f ∈ SegmentManager.file s :: (SegmentManager.file <$> segs))
                 (f ∈ SegmentManager.file <$> segs)); [done|].
      rewrite elem_of_cons.
      split; [intros [Heq|Hin]; [by destruct Hne | exact Hin] | by right].
Qed.

Lemma clearBuffer_segments sm fs : SegmentManager.segments (SegmentManager.clearBuffer sm fs).1 = [].
Proof. reflexivity. Qed.

Lemma clearBuffer_deletes sm fs it :
  it ∈ SegmentManager.segments sm →
  (SegmentManager.clearBuffer sm fs).2 !! SegmentManager.file it = None.
Proof.
  intros Hin. unfold SegmentManager.clearBuffer. cbn [snd].
  rewrite clear_fold_lookup, bool_decide_eq_true_2; [done|].
  by apply list_elem_of_fmap_2.
Qed.

Lemma clearBuffer_keeps sm fs f :
  f ∉ SegmentManager.file <$> SegmentManager.segments sm →
  (SegmentManager.clearBuffer sm fs).2 !! f = fs !! f.
Proof.
  intros Hin. unfold SegmentManager.clearBuffer. cbn [snd].
  by rewrite clear_fold_lookup, bool_decide_eq_false_2.
Qed.

(** ** The trigger *)

(** C4. In every state other than [BUFFERING], [triggerCapture] invokes the
    error callback with [INVALID_STATE] and changes nothing else: the state,
    the frozen pre-segments and the post-segments are as before. *)
Theorem triggerCapture_invalid_state (nowPressed nowStarted : Z)
    (r : Recorder.t) (w : VideoMuxer.World) :
  Recorder.state r ≠ Recorder.BUFFERING →
  let r' := Recorder.triggerCapture nowPressed nowStarted r w in
  r' = Recorder.emit (Recorder.Error "INVALID_STATE" "Camera not in buffering state") r
  ∧ Recorder.state r' = Recorder.state r
  ∧ Recorder.preSegments r' = Recorder.preSegments r
  ∧ Recorder.postSegments r' = Recorder.postSegments r
  ∧ Recorder.segmentManager r' = Recorder.segmentManager r
  ∧ Recorder.telemetry r' = Recorder.telemetry r
  ∧ Recorder.isTriggerActive r' = Recorder.isTriggerActive r.
Proof.
  intros Hst. unfold Recorder.triggerCapture.
  rewrite bool_decide_eq_false_2 by done. cbn. done.
Qed.

Lemma triggerCapture_invalid_state_witness :
  let r := Recorder.set_preSegments ["/cache/video_buffer/segment_0.mp4"]
             (Recorder.set_state Recorder.FINALIZING (Recorder.new Recorder.Controller "/cache")) in
  let w := {| VideoMuxer.fs := ∅; VideoMuxer.mediaStore := ∅ |} in
  let r' := Recorder.triggerCapture 10 11 r w in
  r' = Recorder.emit (Recorder.Error "INVALID_STATE" "Camera not in buffering state") r
  ∧ Recorder.state r' = Recorder.state r
  ∧ Recorder.preSegments r' = Recorder.preSegments r
  ∧ Recorder.postSegments r' = Recorder.postSegments r
  ∧ Recorder.segmentManager r' = Recorder.segmentManager r
  ∧ Recorder.telemetry r' = Recorder.telemetry r
  ∧ Recorder.isTriggerActive r' = Recorder.isTriggerActive r.
Proof.
  apply triggerCapture_invalid_state. cbn. discriminate.
Defined.

(** ** Stopping *)

(** Call-by-value reduction of recorder updates and projections, for
    recorders given by their fields; it leaves the file system and the
    arithmetic folded. *)
Ltac recorder_simpl :=
  cbv beta iota zeta delta
    [Recorder.emit Recorder.set_state Recorder.set_isTriggerActive
     Recorder.set_currentRecording Recorder.set_segmentManager Recorder.set_telemetry
     Recorder.set_buffers Recorder.set_preSegments Recorder.set_postSegments
     Recorder.set_resources
     Recorder.variant Recorder.state Recorder.isTriggerActive Recorder.currentRecording
     Recorder.cameraBound Recorder.segmentManager Recorder.telemetry
     Recorder.executorShutdown Recorder.scopeActive Recorder.preBufferSeconds
     Recorder.postBufferSeconds Recorder.currentUsername Recorder.jobActive
     Recorder.preSegments Recorder.postSegments Recorder.emitted
     Recorder.stopCollection Recorder.onTriggerPressed Recorder.onRecordingStarted
     Recorder.isCollecting Recorder.triggerPressTime Recorder.recordingStartTime
     Recorder.metrics
     VideoMuxer.fs VideoMuxer.mediaStore fst snd
     SegmentManager.clearBuffer SegmentManager.setBufferDuration
     SegmentManager.segments SegmentManager.cacheDir SegmentManager.bufferDurationMs
     SegmentManager.segmentCounter].

(** C9. [stopCamera] is defined in every state and raises nothing; after it
    the state is [IDLE], the Segment Store tracks no segment and the files it
    tracked are gone; a second call in a row changes nothing, so the same
    holds after it. *)
Theorem stopCamera_idempotent (r : Recorder.t) (w : VideoMuxer.World) :
  let r1 := (Recorder.stopCamera r w).1 in
  let w1 := (Recorder.stopCamera r w).2 in
  Recorder.state r1 = Recorder.IDLE
  ∧ SegmentManager.segments (Recorder.segmentManager r1) = []
  ∧ (∀ it, it ∈ SegmentManager.segments (Recorder.segmentManager r) →
           VideoMuxer.fs w1 !! SegmentManager.file it = None)
  ∧ Recorder.emitted r1 = Recorder.emitted r
  ∧ Recorder.stopCamera r1 w1 = (r1, w1).
Proof.
  destruct r as [v st ita cr cb sm tl es sa pre post un ja ps pos em], w as [fs ms].
  intros r1 w1. subst r1 w1. unfold Recorder.stopCamera. recorder_simpl.
  split_and!; try reflexivity.
  - intros it Hin. by apply (clearBuffer_deletes sm fs).
  - cbn [foldl]. by destruct v, cr.
Qed.

(** ** Finalization *)

Lemma resetToIdle_spec (r : Recorder.t) (w : VideoMuxer.World) :
  let r' := (Recorder.resetToIdle r w).1 in
  let w' := (Recorder.resetToIdle r w).2 in
  Recorder.state r' = Recorder.IDLE
  ∧ Recorder.preSegments r' = []
  ∧ Recorder.postSegments r' = []
  ∧ Recorder.isTriggerActive r' = false
  ∧ SegmentManager.segments (Recorder.segmentManager r') = []
  ∧ SegmentManager.segmentCounter (Recorder.segmentManager r') = 0
  ∧ Recorder.emitted r' = Recorder.emitted r ++ [Recorder.StateChanged Recorder.IDLE]
  ∧ VideoMuxer.mediaStore w' = VideoMuxer.mediaStore w
  ∧ (∀ it, it ∈ SegmentManager.segments (Recorder.segmentManager r) →
           VideoMuxer.fs w' !! SegmentManager.file it = None).
Proof.
  destruct r as [v st ita cr cb sm tl es sa pre post un ja ps pos em], w as [fs ms].
  unfold Recorder.resetToIdle. recorder_simpl. split_and!; try reflexivity.
  intros it Hin. by apply (clearBuffer_deletes sm fs).
Qed.

(** C8. Once the finalization coroutine runs (its scope was not cancelled),
    every outcome of [finalizeCapture] ends in [resetToIdle]: the state is
    [IDLE], the pre- and post-segments are empty, the Segment Store tracks
    nothing and its files are deleted. Between the [FINALIZING] and the
    [IDLE] notifications exactly one outcome is reported: [FINALIZE_FAILED]
    for an exception, [NO_SEGMENTS] for an empty combined list,
    [MUXER_FAILED] when the Concatenator returns null, and the capture
    otherwise. *)
Theorem finalizeCapture_resets `{Media.Platform} (env : Recorder.FinalizeEnv)
    (r : Recorder.t) (w : VideoMuxer.World) :
  Recorder.scopeActive r = true →
  let r' := (Recorder.finalizeCapture env r w).1 in
  let w' := (Recorder.finalizeCapture env r w).2 in
  Recorder.state r' = Recorder.IDLE
  ∧ Recorder.preSegments r' = []
  ∧ Recorder.postSegments r' = []
  ∧ SegmentManager.segments (Recorder.segmentManager r') = []
  ∧ (∀ it, it ∈ SegmentManager.segments (Recorder.segmentManager r) →
           VideoMuxer.fs w' !! SegmentManager.file it = None)
  ∧ ∃ e, Recorder.emitted r'
         = Recorder.emitted r
           ++ [Recorder.StateChanged Recorder.FINALIZING; e; Recorder.StateChanged Recorder.IDLE]
       ∧ e = match Recorder.fault env with
             | Some message => Recorder.Error "FINALIZE_FAILED" message
             | None =>
                 match Recorder.preSegments r ++ Recorder.postSegments r with
                 | [] => Recorder.Error "NO_SEGMENTS" "No video segments to save"
                 | allSegments =>
                     match (VideoMuxer.concatenateSegments
                              (SegmentManager.cacheDir (Recorder.segmentManager r))
                              (Recorder.stamp env) (Recorder.sink env) allSegments
                              (Recorder.currentUsername r) w).1 with
                     | Some path => Recorder.CaptureCompleted path
                     | None => Recorder.Error "MUXER_FAILED" "Failed to create final video"
                     end
                 end
             end.
Proof.
  intros Hscope r' w'. subst r' w'.
  destruct r as [v st ita cr cb sm tl es sa pre post un ja ps pos em].
  cbv beta iota delta [Recorder.scopeActive] in Hscope. subst sa.
  unfold Recorder.finalizeCapture.
  cbv beta iota zeta delta
    [Recorder.emit Recorder.set_state Recorder.scopeActive Recorder.preSegments
     Recorder.postSegments Recorder.segmentManager Recorder.currentUsername negb
     Recorder.emitted].
  set (r1 := Recorder.Build_t v Recorder.FINALIZING ita cr cb sm tl es true pre post un ja ps pos
               (em ++ [Recorder.StateChanged Recorder.FINALIZING])).
  assert (Hgo : ∀ e w1,
    let r' := (Recorder.resetToIdle (Recorder.emit e r1) w1).1 in
    let w' := (Recorder.resetToIdle (Recorder.emit e r1) w1).2 in
    Recorder.state r' = Recorder.IDLE
    ∧ Recorder.preSegments r' = []
    ∧ Recorder.postSegments r' = []
    ∧ SegmentManager.segments (Recorder.segmentManager r') = []
    ∧ (∀ it, it ∈ SegmentManager.segments sm →
             VideoMuxer.fs w' !! SegmentManager.file it = None)
    ∧ Recorder.emitted r'
      = em ++ [Recorder.StateChanged Recorder.FINALIZING; e; Recorder.StateChanged Recorder.IDLE]).
  { intros e w1.
    destruct (resetToIdle_spec (Recorder.emit e r1) w1)
      as (H1 & H2 & H3 & _ & H5 & _ & H7 & _ & H9).
    split_and!; try done.
    rewrite H7. subst r1. recorder_simpl. by rewrite <- !app_assoc. }
  fold (Recorder.emit (Recorder.Error "NO_SEGMENTS" "No video segments to save") r1).
  destruct (Recorder.fault env) as [message|].
  { fold (Recorder.emit (Recorder.Error "FINALIZE_FAILED" message) r1).
    destruct (Hgo (Recorder.Error "FINALIZE_FAILED" message) w) as (?&?&?&?&?&?).
    split_and!; try done. by eexists. }
  destruct (ps ++ pos) as [|f rest] eqn:Hall.
  { destruct (Hgo (Recorder.Error "NO_SEGMENTS" "No video segments to save") w) as (?&?&?&?&?&?).
    split_and!; try done. by eexists. }
  destruct (VideoMuxer.concatenateSegments _ _ _ _ _ w) as [[path|] w1].
  - fold (Recorder.emit (Recorder.CaptureCompleted path) r1).
    destruct (Hgo (Recorder.CaptureCompleted path) w1) as (?&?&?&?&?&?).
    split_and!; try done. by eexists.
  - fold (Recorder.emit (Recorder.Error "MUXER_FAILED" "Failed to create final video") r1).
    destruct (Hgo (Recorder.Error "MUXER_FAILED" "Failed to create final video") w1)
      as (?&?&?&?&?&?).
    split_and!; try done. by eexists.
Qed.

(** ** The Segment Store keeps its bound *)

Lemma toInt_high x : 2147483648 <= x < 6442450944 → Kt.toInt x = x - 4294967296.
Proof.
  intros Hx. unfold Kt.toInt, Kt.wrap.
  change (2 ^ (32 - 1)) with 2147483648. change (2 ^ 32) with 4294967296.
  replace (x + 2147483648) with (x - 2147483648 + 1 * 4294967296) by lia.
  rewrite Z_mod_plus_full, Z.mod_small by lia. lia.
Qed.

Lemma size_le segs : SegmentManager.size segs <= Z.of_nat (length segs).
Proof. unfold SegmentManager.size. lia. Qed.

Lemma size_nonneg segs : 0 <= SegmentManager.size segs.
Proof. unfold SegmentManager.size, Kt.Int_MAX_VALUE. lia. Qed.

(** When the loop of [trimBuffer] ends it has dropped the oldest segments
    and what is left is within the limit. *)
Lemma trimLoop_Some fuel maxSegs segs fs segs' fs' :
  SegmentManager.trimLoop fuel maxSegs segs fs = Some (segs', fs') →
  SegmentManager.size segs' <= maxSegs ∧ ∃ k, segs' = drop k segs.
Proof.
  revert segs fs. induction fuel as [|fuel IH]; intros segs fs; cbn [SegmentManager.trimLoop].
  - destruct (Z.gtb_spec (SegmentManager.size segs) maxSegs); [done|].
    intros [= <- <-]. split; [lia|]. by exists 0%nat.
  - destruct (Z.gtb_spec (SegmentManager.size segs) maxSegs).
    + destruct segs as [|oldest rest]; cbn [SegmentManager.pollFirst].
      * intros Hrun. apply IH in Hrun as [? [k ->]]. split; [done|].
        exists 0%nat. by rewrite drop_nil.
      * intros Hrun. apply IH in Hrun as [? [k ->]]. split; [done|]. by exists (S k).
    + intros [= <- <-]. split; [lia|]. by exists 0%nat.
Qed.

(** The loop ends within [fuel] rounds when the limit is not negative and
    [fuel] covers the excess. *)
Lemma trimLoop_total fuel maxSegs segs fs :
  0 <= maxSegs → Z.of_nat (length segs) - maxSegs <= Z.of_nat fuel →
  is_Some (SegmentManager.trimLoop fuel maxSegs segs fs).
Proof.
  intros Hmax. revert segs fs.
  induction fuel as [|fuel IH]; intros segs fs Hlen; cbn [SegmentManager.trimLoop].
  - destruct (Z.gtb_spec (SegmentManager.size segs) maxSegs) as [Hgt|]; [|by eexists].
    pose proof (size_le segs). lia.
  - destruct (Z.gtb_spec (SegmentManager.size segs) maxSegs) as [Hgt|]; [|by eexists].
    pose proof (size_le segs).
    destruct segs as [|oldest rest]; cbn [SegmentManager.pollFirst].
    + cbn in *. lia.
    + apply IH. cbn [length] in *. lia.
Qed.

(** With a negative limit the loop never ends: once the deque is empty,
    [pollFirst] keeps returning null. *)
Lemma trimLoop_diverges fuel maxSegs segs fs :
  maxSegs < 0 → SegmentManager.trimLoop fuel maxSegs segs fs = None.
Proof.
  intros Hmax. revert segs fs.
  induction fuel as [|fuel IH]; intros segs fs; cbn [SegmentManager.trimLoop];
    pose proof (size_nonneg segs);
    destruct (Z.gtb_spec (SegmentManager.size segs) maxSegs); try lia; [done|].
  destruct segs; cbn [SegmentManager.pollFirst]; apply IH.
Qed.

Lemma ceilDiv_window d : Spec.maxSegments (d * 1000) = 2 * d + 2.
Proof.
  unfold Spec.maxSegments, Spec.ceilDiv, SegmentManager.SEGMENT_DURATION_MS.
  replace (d * 1000 + 500 - 1) with (499 + (2 * d) * 500) by lia.
  rewrite Z.div_add by lia. change (499 / 500) with 0. lia.
Qed.

Lemma bufferDurationMs_set d sm :
  Kt.isInt d →
  SegmentManager.bufferDurationMs (SegmentManager.setBufferDuration d sm) = d * 1000.
Proof.
  intros Hd. cbn. unfold Kt.lmul. apply toLong_id. unfold_ranges. lia.
Qed.

(** The limit [trimBuffer] computes for a window of [d] seconds. *)
Lemma maxSegments_small d sm :
  0 <= d <= 1073741822 → SegmentManager.bufferDurationMs sm = d * 1000 →
  SegmentManager.maxSegments sm = 2 * d + 2.
Proof.
  intros Hd Hms. unfold SegmentManager.maxSegments, Kt.iadd, Kt.ldiv. rewrite Hms.
  unfold SegmentManager.SEGMENT_DURATION_MS.
  replace (d * 1000) with ((2 * d) * 500) by lia. rewrite Z.quot_mul by lia.
  rewrite (toLong_id (2 * d)) by (unfold_ranges; lia).
  rewrite (toInt_id (2 * d)) by (unfold_ranges; lia).
  apply toInt_id. unfold_ranges. lia.
Qed.

Lemma maxSegments_wrapped d sm :
  1073741823 <= d <= Kt.Int_MAX_VALUE → SegmentManager.bufferDurationMs sm = d * 1000 →
  SegmentManager.maxSegments sm <= 0.
Proof.
  intros Hd Hms. unfold SegmentManager.maxSegments, Kt.iadd, Kt.ldiv. rewrite Hms.
  unfold SegmentManager.SEGMENT_DURATION_MS, Kt.Int_MAX_VALUE in *.
  replace (d * 1000) with ((2 * d) * 500) by lia. rewrite Z.quot_mul by lia.
  rewrite (toLong_id (2 * d)) by (unfold_ranges; lia).
  destruct (decide (d = 1073741823)) as [->|Hne].
  - vm_compute. discriminate.
  - rewrite (toInt_high (2 * d)) by lia.
    rewrite toInt_id by (unfold_ranges; lia). lia.
Qed.

Lemma createNewSegment_Some fuel now sm fs f sm' fs' :
  SegmentManager.createNewSegment fuel now sm fs = Some (f, sm', fs') →
  SegmentManager.bufferDurationMs sm' = SegmentManager.bufferDurationMs sm
  ∧ SegmentManager.cacheDir sm' = SegmentManager.cacheDir sm
  ∧ SegmentManager.segmentCounter sm' = Kt.iadd (SegmentManager.segmentCounter sm) 1
  ∧ f = Files.child (SegmentManager.segmentDir sm)
          (SegmentManager.fileName (SegmentManager.segmentCounter sm))
  ∧ SegmentManager.size (SegmentManager.segments sm') <= SegmentManager.maxSegments sm
  ∧ ∃ k, SegmentManager.segments sm'
         = drop k (SegmentManager.segments sm
                   ++ [{| SegmentManager.file := f;
                          SegmentManager.startTimeMs := now;
                          SegmentManager.durationMs := SegmentManager.SEGMENT_DURATION_MS;
                          SegmentManager.index := SegmentManager.segmentCounter sm |}]).
Proof.
  unfold SegmentManager.createNewSegment, SegmentManager.trimBuffer.
  cbn [SegmentManager.segments SegmentManager.bufferDurationMs SegmentManager.cacheDir
       SegmentManager.segmentCounter].
  match goal with |- context [SegmentManager.trimLoop ?a ?b ?c ?d] =>
    destruct (SegmentManager.trimLoop a b c d) as [[segs fs1]|] eqn:Htrim end; [|done].
  intros [= <- <- <-]. apply trimLoop_Some in Htrim as [Hsize Hdrop].
  cbn [SegmentManager.segments SegmentManager.bufferDurationMs SegmentManager.cacheDir
       SegmentManager.segmentCounter].
  split_and!; try done.
Qed.

Lemma createNewSegment_total fuel now sm fs :
  0 <= SegmentManager.maxSegments sm →
  Z.of_nat (length (SegmentManager.segments sm)) + 1 - SegmentManager.maxSegments sm
    <= Z.of_nat fuel →
  is_Some (SegmentManager.createNewSegment fuel now sm fs).
Proof.
  intros Hmax Hfuel.
  unfold SegmentManager.createNewSegment, SegmentManager.trimBuffer.
  cbn [SegmentManager.segments].
  match goal with |- context [SegmentManager.trimLoop ?a ?b ?c ?d] =>
    destruct (trimLoop_total a b c d) as [[segs fs1] ->] end; [done| |by eexists].
  rewrite length_app. cbn [length].
  change (SegmentManager.maxSegments _) with (SegmentManager.maxSegments sm). lia.
Qed.

Lemma maxSegments_ext sm sm' :
  SegmentManager.bufferDurationMs sm' = SegmentManager.bufferDurationMs sm →
  SegmentManager.maxSegments sm' = SegmentManager.maxSegments sm.
Proof. unfold SegmentManager.maxSegments. by intros ->. Qed.

Lemma run_creates_bound fuel nows sm fs sm' fs' :
  nows ≠ [] →
  StoreRun.run fuel (StoreRun.Create <$> nows) (sm, fs) = Some (sm', fs') →
  SegmentManager.bufferDurationMs sm' = SegmentManager.bufferDurationMs sm
  ∧ SegmentManager.size (SegmentManager.segments sm') <= SegmentManager.maxSegments sm.
Proof.
  revert sm fs. induction nows as [|now rest IH]; intros sm fs Hne; [done|].
  rewrite fmap_cons. cbn [StoreRun.run StoreRun.step fst snd].
  destruct (SegmentManager.createNewSegment fuel now sm fs) as [[[f sm1] fs1]|] eqn:Hc; [|done].
  apply createNewSegment_Some in Hc as (Hms & _ & _ & _ & Hsize & _).
  destruct rest as [|now' rest].
  - cbn. by intros [= <- <-].
  - intros Hrun. apply IH in Hrun as [Hms' Hsize']; [|done].
    rewrite Hms', Hms. split; [done|]. by rewrite <- (maxSegments_ext sm sm1).
Qed.

Lemma run_creates_total fuel nows sm fs :
  0 <= SegmentManager.maxSegments sm < Kt.Int_MAX_VALUE →
  1 <= Z.of_nat fuel →
  Z.of_nat (length (SegmentManager.segments sm)) + 1 - SegmentManager.maxSegments sm
    <= Z.of_nat fuel →
  is_Some (StoreRun.run fuel (StoreRun.Create <$> nows) (sm, fs)).
Proof.
  intros Hmax Hfuel. revert sm fs Hmax.
  induction nows as [|now rest IH]; intros sm fs Hmax Hlen; [by eexists|].
  rewrite fmap_cons. cbn [StoreRun.run StoreRun.step fst snd].
  destruct (createNewSegment_total fuel now sm fs) as [[[f sm1] fs1] Hc]; [lia|done|].
  rewrite Hc. apply createNewSegment_Some in Hc as (Hms & _ & _ & _ & Hsize & _).
  apply maxSegments_ext in Hms. apply IH; [by rewrite Hms|].
  rewrite Hms. unfold SegmentManager.size in Hsize. lia.
Qed.

(** C1. For a window of [d] seconds and any sequence of [createNewSegment]
    calls — from any store when there is at least one call, from an empty
    store otherwise — the store tracks at most
    [ceil (windowDuration / segmentDuration) + 2] segments whenever the calls
    return; and they do return (every [trimBuffer] loop ends) for every
    window whose limit fits an [Int]. *)
Theorem store_size_bound (d : Z) (sm : SegmentManager.t) (fs : Fs)
    (nows : list Z) (fuel : nat) :
  0 <= d <= Kt.Int_MAX_VALUE →
  nows ≠ [] ∨ SegmentManager.segments sm = [] →
  let start := (SegmentManager.setBufferDuration d sm, fs) in
  (∀ sm' fs',
     StoreRun.run fuel (StoreRun.Create <$> nows) start = Some (sm', fs') →
     SegmentManager.bufferDurationMs sm' = d * 1000
     ∧ Z.of_nat (length (SegmentManager.segments sm'))
       <= Spec.maxSegments (SegmentManager.bufferDurationMs sm'))
  ∧ (d <= 1073741822 →
     (length (SegmentManager.segments sm) < fuel)%nat →
     is_Some (StoreRun.run fuel (StoreRun.Create <$> nows) start)).
Proof.
  intros Hd Hfrom start. subst start.
  assert (HI : Kt.isInt d) by (unfold_ranges; lia).
  pose proof (bufferDurationMs_set d sm HI) as Hms.
  split.
  - intros sm' fs' Hrun.
    destruct (decide (nows = [])) as [->|Hne].
    + cbn in Hrun. injection Hrun as <- <-. rewrite Hms, ceilDiv_window.
      destruct Hfrom as [|Hempty]; [done|].
      split; [done|]. cbn [SegmentManager.setBufferDuration SegmentManager.segments].
      rewrite Hempty. cbn [length]. lia.
    + apply run_creates_bound in Hrun as [Hms' Hsize]; [|done].
      rewrite Hms', Hms, ceilDiv_window. split; [done|].
      unfold SegmentManager.size in Hsize.
      destruct (decide (d <= 1073741822)).
      * rewrite (maxSegments_small d) in Hsize by (done || lia).
        unfold Kt.Int_MAX_VALUE in *. lia.
      * assert (Hr : 1073741823 <= d <= Kt.Int_MAX_VALUE) by lia.
        pose proof (maxSegments_wrapped d _ Hr Hms) as Hw.
        revert Hw Hsize. generalize (SegmentManager.maxSegments (SegmentManager.setBufferDuration d sm)).
        unfold Kt.Int_MAX_VALUE in *. intros m Hw Hsize. lia.
  - intros Hsmall Hfuel.
    pose proof (maxSegments_small d _ ltac:(lia) Hms) as Hmax.
    apply run_creates_total; rewrite ?Hmax; unfold Kt.Int_MAX_VALUE;
      cbn [SegmentManager.setBufferDuration SegmentManager.segments]; lia.
Qed.

Lemma store_size_bound_witness :
  let start := (SegmentManager.setBufferDuration 1 (SegmentManager.new "/cache"), ∅) in
  (∀ sm' fs',
     StoreRun.run 3 (StoreRun.Create <$> [0; 1; 2; 3; 4; 5]) start = Some (sm', fs') →
     SegmentManager.bufferDurationMs sm' = 1 * 1000
     ∧ Z.of_nat (length (SegmentManager.segments sm'))
       <= Spec.maxSegments (SegmentManager.bufferDurationMs sm'))
  ∧ (1 <= 1073741822 →
     (length (SegmentManager.segments (SegmentManager.new "/cache")) < 3)%nat →
     is_Some (StoreRun.run 3 (StoreRun.Create <$> [0; 1; 2; 3; 4; 5]) start)).
Proof.
  apply (store_size_bound 1 (SegmentManager.new "/cache") ∅ [0; 1; 2; 3; 4; 5] 3).
  - unfold Kt.Int_MAX_VALUE. lia.
  - left. discriminate.
Defined.

(** Six insertions into a one-second window leave the newest four. *)
Example store_after_six_insertions :
  (λ st, SegmentManager.index <$> SegmentManager.segments st.1)
    <$> StoreRun.run 3 (StoreRun.Create <$> [0; 1; 2; 3; 4; 5])
          (SegmentManager.setBufferDuration 1 (SegmentManager.new "/cache"), ∅)
  = Some [2; 3; 4; 5].
Proof. vm_compute. reflexivity. Qed.

Example fileName_7 : SegmentManager.fileName 7 = "segment_7.mp4".
Proof. vm_compute. reflexivity. Qed.

(** A window of [-1] seconds gives the limit 0 and an empty store; a window
    of [-2] seconds gives a negative limit, and [createNewSegment] does not
    return. *)
Example negative_window_diverges fuel now sm fs :
  SegmentManager.createNewSegment fuel now (SegmentManager.setBufferDuration (-2) sm) fs = None.
Proof.
  unfold SegmentManager.createNewSegment, SegmentManager.trimBuffer.
  rewrite trimLoop_diverges; [done|]. vm_compute. reflexivity.
Qed.

(** ** Freezing the Segment Store *)

Lemma StronglySorted_drop {A} (R : relation A) k (l : list A) :
  StronglySorted R l → StronglySorted R (drop k l).
Proof.
  intros Hl. rewrite <- (take_drop k l) in Hl. by apply StronglySorted_app_1_r in Hl.
Qed.

Lemma StronglySorted_filter {A} (R : relation A) (P : A → Prop) `{∀ x, Decision (P x)}
    (l : list A) :
  StronglySorted R l → StronglySorted R (filter P l).
Proof.
  induction 1 as [|x l Hl IH Hx]; [constructor|].
  rewrite filter_cons. case_decide; [|done].
  constructor; [done|]. apply Forall_forall. intros y [_ Hy]%list_elem_of_filter.
  by eapply Forall_forall in Hx.
Qed.

(** [createNewSegment] keeps the deque in creation order as long as the
    counter does not wrap. *)
Lemma createNewSegment_ordered fuel now sm fs f sm' fs' :
  StoreRun.ordered sm → SegmentManager.segmentCounter sm < Kt.Int_MAX_VALUE →
  SegmentManager.createNewSegment fuel now sm fs = Some (f, sm', fs') →
  StoreRun.ordered sm'
  ∧ SegmentManager.segmentCounter sm' = SegmentManager.segmentCounter sm + 1.
Proof.
  intros (Hsorted & Hbelow & Hpos) Hmax Hc.
  apply createNewSegment_Some in Hc as (_ & _ & Hcnt & _ & _ & k & Hsegs).
  assert (Hcnt' : SegmentManager.segmentCounter sm' = SegmentManager.segmentCounter sm + 1).
  { rewrite Hcnt. unfold Kt.iadd. apply toInt_id. unfold_ranges. lia. }
  split; [|done]. unfold StoreRun.ordered. rewrite Hsegs, Hcnt'. split_and!; [| |lia].
  - apply StronglySorted_drop, StronglySorted_app_2; [|done|repeat constructor].
    intros a b Ha ->%list_elem_of_singleton. unfold StoreRun.older. cbn.
    by eapply Forall_forall in Hbelow.
  - apply Forall_drop, Forall_app_2.
    + eapply Forall_impl; [done|]. cbn. intros. lia.
    + constructor; [cbn; lia|constructor].
Qed.

Lemma step_ordered fuel op sm fs sm' fs' :
  StoreRun.ordered sm → SegmentManager.segmentCounter sm < Kt.Int_MAX_VALUE →
  StoreRun.step fuel (sm, fs) op = Some (sm', fs') →
  StoreRun.ordered sm'
  ∧ SegmentManager.segmentCounter sm' <= SegmentManager.segmentCounter sm + 1.
Proof.
  intros Hord Hmax. destruct op; cbn [StoreRun.step fst snd].
  - destruct (SegmentManager.createNewSegment _ _ _ _) as [[[f sm1] fs1]|] eqn:Hc; [|done].
    intros [= <- <-]. eapply createNewSegment_ordered in Hc as [? ->]; [|done..].
    split; [done|lia].
  - intros [= <- <-]. split; [exact Hord|cbn; lia].
  - unfold SegmentManager.clearBuffer. intros [= <- <-].
    destruct Hord as (_ & _ & Hpos).
    split; [|cbn; lia]. split_and!; cbn; [constructor|constructor|lia].
  - intros [= <- <-]. split; [done|lia].
  - intros [= <- <-]. split; [done|lia].
  - intros [= <- <-]. split; [done|lia].
Qed.

Lemma run_ordered fuel ops sm fs sm' fs' :
  StoreRun.ordered sm →
  SegmentManager.segmentCounter sm + Z.of_nat (length ops) <= Kt.Int_MAX_VALUE →
  StoreRun.run fuel ops (sm, fs) = Some (sm', fs') →
  StoreRun.ordered sm'.
Proof.
  revert sm fs. induction ops as [|op ops IH]; intros sm fs Hord Hlen; cbn [StoreRun.run].
  - by intros [= <- <-].
  - destruct (StoreRun.step fuel (sm, fs) op) as [[sm1 fs1]|] eqn:Hstep; [|done].
    cbn [length] in Hlen.
    apply step_ordered in Hstep as [Hord1 Hcnt]; [|done|lia].
    apply IH; [done|lia].
Qed.

Lemma new_ordered cache : StoreRun.ordered (SegmentManager.new cache).
Proof. split_and!; cbn; [constructor|constructor|lia]. Qed.

Lemma readable_spec (fs : Fs) it :
  SegmentManager.readable fs it = true
  ↔ ∃ bytes, fs !! SegmentManager.file it = Some bytes ∧ bytes ≠ [].
Proof.
  unfold SegmentManager.readable, Files.exists_, Files.length.
  rewrite andb_true_iff, bool_decide_eq_true.
  destruct (fs !! SegmentManager.file it) as [bytes|].
  - split.
    + intros [_ Hlen]. exists bytes. split; [done|]. intros ->. cbn in Hlen. done.
    + intros (? & [= <-] & Hne). split; [by eexists|].
      destruct bytes; [done|]. cbn [length]. apply Z.gtb_lt. lia.
  - split; [intros [[? [=]] _]|intros (? & [=] & _)].
Qed.

Lemma getAllSegments_filter sm (fs : Fs) :
  SegmentManager.getAllSegments sm fs
  = SegmentManager.file <$> filter (λ it, SegmentManager.readable fs it = true)
                              (SegmentManager.segments sm).
Proof.
  unfold SegmentManager.getAllSegments.
  induction (SegmentManager.segments sm) as [|it segs IH]; [done|].
  cbn [omap list_omap]. rewrite filter_cons.
  destruct (SegmentManager.readable fs it) eqn:Hr.
  - rewrite decide_True by done. rewrite fmap_cons. f_equal. exact IH.
  - rewrite decide_False by done. exact IH.
Qed.

(** C3. In every state the store reaches from a fresh [SegmentManager] by
    its own calls and by changes to the files (fewer than [2^31] of them, so
    that the [Int] counter has not wrapped), [freezeBuffer] returns the files
    of exactly the tracked segments whose file exists with a non-zero length,
    in the order of the deque, which is strictly increasing in the creation
    index. *)
Theorem freezeBuffer_valid_ordered (cache : string) (fuel : nat) (ops : list StoreRun.Op)
    (fs0 : Fs) (sm : SegmentManager.t) (fs : Fs) :
  Z.of_nat (length ops) <= Kt.Int_MAX_VALUE →
  StoreRun.run fuel ops (SegmentManager.new cache, fs0) = Some (sm, fs) →
  let kept := filter (λ it, SegmentManager.readable fs it = true) (SegmentManager.segments sm) in
  SegmentManager.freezeBuffer sm fs = SegmentManager.file <$> kept
  ∧ kept `sublist_of` SegmentManager.segments sm
  ∧ StronglySorted StoreRun.older kept
  ∧ (∀ f, f ∈ SegmentManager.freezeBuffer sm fs
          ↔ ∃ it, it ∈ SegmentManager.segments sm ∧ SegmentManager.file it = f
                  ∧ ∃ bytes, fs !! f = Some bytes ∧ bytes ≠ []).
Proof.
  intros Hlen Hrun kept.
  apply run_ordered in Hrun as (Hsorted & _); [|apply new_ordered|cbn; lia].
  unfold SegmentManager.freezeBuffer. rewrite getAllSegments_filter. fold kept.
  split_and!; [done|apply sublist_filter|by apply StronglySorted_filter|].
  intros f. rewrite list_elem_of_fmap. split.
  - intros (it & -> & [Hr Hin]%list_elem_of_filter). exists it.
    split_and!; [done..|]. by apply readable_spec.
  - intros (it & Hin & <- & Hbytes). exists it. split; [done|].
    apply list_elem_of_filter. split; [|done]. by apply readable_spec.
Qed.

Lemma freezeBuffer_valid_ordered_witness :
  let ops := [StoreRun.Create 0;
              StoreRun.WriteFile "/cache/video_buffer/segment_0.mp4" ["a"; "b"]%byte;
              StoreRun.Create 500;
              StoreRun.Create 1000;
              StoreRun.WriteFile "/cache/video_buffer/segment_2.mp4" []] in
  let st := default (SegmentManager.new "/cache", ∅)
              (StoreRun.run 3 ops (SegmentManager.new "/cache", ∅)) in
  let kept := filter (λ it, SegmentManager.readable st.2 it = true)
                (SegmentManager.segments st.1) in
  SegmentManager.freezeBuffer st.1 st.2 = SegmentManager.file <$> kept
  ∧ kept `sublist_of` SegmentManager.segments st.1
  ∧ StronglySorted StoreRun.older kept
  ∧ (∀ f, f ∈ SegmentManager.freezeBuffer st.1 st.2
          ↔ ∃ it, it ∈ SegmentManager.segments st.1 ∧ SegmentManager.file it = f
                  ∧ ∃ bytes, st.2 !! f = Some bytes ∧ bytes ≠ []).
Proof.
  intros ops st.
  apply (freezeBuffer_valid_ordered "/cache" 3 ops ∅ st.1 st.2).
  - unfold Kt.Int_MAX_VALUE. cbn. lia.
  - vm_compute. reflexivity.
Defined.

(** Of three tracked segments, the one never written and the one left empty
    are not returned. *)
Example freezeBuffer_skips_unwritten :
  (λ st, SegmentManager.freezeBuffer st.1 st.2)
    <$> StoreRun.run 3
          [StoreRun.Create 0;
           StoreRun.WriteFile "/cache/video_buffer/segment_0.mp4" ["a"; "b"]%byte;
           StoreRun.Create 500;
           StoreRun.Create 1000;
           StoreRun.WriteFile "/cache/video_buffer/segment_2.mp4" []]
          (SegmentManager.new "/cache", ∅)
  = Some ["/cache/video_buffer/segment_0.mp4"].
Proof. vm_compute. reflexivity. Qed.

(** ** The segment-record loop during post-capture *)

Lemma toInt_range x : Kt.isInt (Kt.toInt x).
Proof.
  unfold Kt.toInt, Kt.wrap. unfold_ranges.
  change (2 ^ (32 - 1)) with 2147483648. change (2 ^ 32) with 4294967296.
  pose proof (Z.mod_pos_bound (x + 2147483648) 4294967296 ltac:(lia)). lia.
Qed.

(** A call other than [stopCamera] arriving during post-capture leaves the
    session in post-capture with the same post-segments. *)
Lemma applyCall_keeps (c : Recorder.Call) (r : Recorder.t) (w : VideoMuxer.World) :
  c ≠ Recorder.CallStop →
  Recorder.state r = Recorder.CAPTURING_POST →
  Kt.isInt (Recorder.postBufferSeconds r) →
  let rw := Recorder.applyCall (r, w) c in
  Recorder.state rw.1 = Recorder.CAPTURING_POST
  ∧ Recorder.postSegments rw.1 = Recorder.postSegments r
  ∧ Recorder.jobActive rw.1 = Recorder.jobActive r
  ∧ Recorder.variant rw.1 = Recorder.variant r
  ∧ Kt.isInt (Recorder.postBufferSeconds rw.1)
  ∧ rw.2 = w.
Proof.
  intros Hc Hst Hint.
  destruct r as [v st ita cr cb sm tl es sa pre post un ja ps pos em].
  cbn [Recorder.state Recorder.postBufferSeconds] in Hst, Hint. subst st.
  destruct c as [n1 n2| |T]; [|done|]; cbn [Recorder.applyCall fst snd].
  - unfold Recorder.triggerCapture. rewrite bool_decide_eq_false_2 by done.
    cbn [negb]. recorder_simpl. done.
  - unfold Recorder.setClipDuration. recorder_simpl. split_and!; try done.
    apply toInt_range.
Qed.

Lemma calls_keep (calls : list Recorder.Call) (r : Recorder.t) (w : VideoMuxer.World) :
  Forall (λ c, c ≠ Recorder.CallStop) calls →
  Recorder.state r = Recorder.CAPTURING_POST →
  Kt.isInt (Recorder.postBufferSeconds r) →
  let rw := foldl Recorder.applyCall (r, w) calls in
  Recorder.state rw.1 = Recorder.CAPTURING_POST
  ∧ Recorder.postSegments rw.1 = Recorder.postSegments r
  ∧ Recorder.jobActive rw.1 = Recorder.jobActive r
  ∧ Recorder.variant rw.1 = Recorder.variant r
  ∧ Kt.isInt (Recorder.postBufferSeconds rw.1)
  ∧ rw.2 = w.
Proof.
  intros Hcalls. revert r w.
  induction Hcalls as [|c calls Hc _ IH]; intros r w Hst Hint; [done|].
  cbn [foldl].
  destruct (applyCall_keeps c r w Hc Hst Hint) as (H1 & H2 & H3 & H4 & H5 & H6).
  destruct (Recorder.applyCall (r, w) c) as [r1 w1]. cbn [fst snd] in *.
  destruct (IH r1 w1 H1 H5) as (?&?&?&?&?&?).
  split_and!; congruence.
Qed.

Lemma SEGMENT_DURATION_MS_cases v :
  Recorder.SEGMENT_DURATION_MS v = 500 ∨ Recorder.SEGMENT_DURATION_MS v = 2000.
Proof. destruct v; [by left|by right]. Qed.

(** C10. During post-capture (no [stopCamera] arrives), one iteration of the
    loop appends the segment file it created to [postSegments] whatever the
    recording left behind — bytes, an empty file or no file at all — and it
    leaves the loop exactly when the number of post-segments times the
    nominal segment duration has reached the post-window; the loop then goes
    on to [finalizeCapture]. *)
Theorem loop_counts_every_segment `{Media.Platform} (fuel : nat) (env : Recorder.FinalizeEnv)
    (it : Recorder.Iteration) (rest : list Recorder.Iteration)
    (r : Recorder.t) (w : VideoMuxer.World)
    (segmentFile : File) (sm : SegmentManager.t) (fs1 : Fs) :
  Recorder.state r = Recorder.CAPTURING_POST →
  Recorder.jobActive r = true →
  Forall (λ c, c ≠ Recorder.CallStop) (Recorder.during it) →
  Kt.isInt (Recorder.postBufferSeconds r) →
  Z.of_nat (length (Recorder.postSegments r)) < Kt.Int_MAX_VALUE →
  SegmentManager.createNewSegment fuel (Recorder.now it) (Recorder.segmentManager r)
    (VideoMuxer.fs w) = Some (segmentFile, sm, fs1) →
  ∃ step,
    Recorder.loopBody fuel it r w = Some step
    ∧ Recorder.postSegments (Recorder.stepRecorder step)
      = Recorder.postSegments r ++ [segmentFile]
    ∧ VideoMuxer.fs (Recorder.stepWorld step) !! segmentFile
      = match Recorder.recorded it with
        | Some bytes => Some bytes
        | None => fs1 !! segmentFile
        end
    ∧ (Recorder.isBreak step = true
       ↔ Recorder.postBufferSeconds (Recorder.stepRecorder step) * 1000
         <= (Z.of_nat (length (Recorder.postSegments r)) + 1)
            * Recorder.SEGMENT_DURATION_MS (Recorder.variant r))
    ∧ Recorder.segmentLoop fuel env (it :: rest) r w
      = if Recorder.isBreak step
        then Some (Recorder.finalizeCapture env (Recorder.stepRecorder step)
                     (Recorder.stepWorld step))
        else Recorder.segmentLoop fuel env rest (Recorder.stepRecorder step)
               (Recorder.stepWorld step).
Proof.
  intros Hst Hjob Hcalls Hint Hlen Hcreate.
  cbn [Recorder.segmentLoop]. unfold Recorder.loopCond. rewrite Hjob, Hst.
  cbn [andb].
  rewrite (bool_decide_eq_true_2 (Recorder.CAPTURING_POST = Recorder.CAPTURING_POST)) by done.
  rewrite orb_true_r.
  unfold Recorder.loopBody. rewrite Hcreate.
  destruct r as [v st ita cr cb sm0 tl es sa pre post un ja ps pos em], w as [fs0 ms].
  cbn [Recorder.state Recorder.jobActive Recorder.postBufferSeconds Recorder.postSegments
       Recorder.variant] in *.
  subst st ja. unfold Recorder.recordSegment.
  cbv beta iota zeta delta [Recorder.set_segmentManager Recorder.set_currentRecording
    VideoMuxer.fs VideoMuxer.mediaStore].
  match goal with |- context [foldl Recorder.applyCall (?r2, ?w2) _] =>
    destruct (calls_keep (Recorder.during it) r2 w2 Hcalls eq_refl Hint)
      as (Hst3 & Hpost3 & Hjob3 & Hvar3 & Hint3 & Hw3);
    destruct (foldl Recorder.applyCall (r2, w2) (Recorder.during it)) as [r3 w3]
  end.
  destruct r3 as [v3 st3 ita3 cr3 cb3 sm3 tl3 es3 sa3 pre3 post3 un3 ja3 ps3 pos3 em3].
  cbn [fst snd Recorder.state Recorder.jobActive Recorder.postBufferSeconds
       Recorder.postSegments Recorder.variant] in *.
  subst st3 pos3 ja3 v3 w3.
  rewrite (bool_decide_eq_true_2 (Recorder.CAPTURING_POST = Recorder.CAPTURING_POST)) by done.
  cbv beta iota zeta delta [Recorder.set_postSegments Recorder.postSegments Recorder.variant
    Recorder.postBufferSeconds].
  assert (Hcmp :
    (Kt.lmul (Kt.toInt (Z.of_nat (length (pos ++ [segmentFile]))))
       (Recorder.SEGMENT_DURATION_MS v) >=? Kt.lmul post3 1000) = true
    ↔ post3 * 1000 <= (Z.of_nat (length pos) + 1) * Recorder.SEGMENT_DURATION_MS v).
  { rewrite length_app. cbn [length]. rewrite Nat2Z.inj_add. change (Z.of_nat 1) with 1.
    revert Hlen. generalize (Z.of_nat (length pos)) (Nat2Z.is_nonneg (length pos)).
    intros n Hn Hlen. unfold Kt.lmul.
    rewrite (toInt_id (n + 1)) by (unfold_ranges; lia).
    rewrite (toLong_id (post3 * 1000)) by (unfold_ranges; lia).
    destruct (SEGMENT_DURATION_MS_cases v) as [-> | ->].
    - rewrite toLong_id by (unfold_ranges; lia). rewrite Z.geb_le. lia.
    - rewrite toLong_id by (unfold_ranges; lia). rewrite Z.geb_le. lia. }
  assert (Hfile : (match Recorder.recorded it with
                   | Some bytes => <[segmentFile:=bytes]> fs1
                   | None => fs1
                   end) !! segmentFile
                  = match Recorder.recorded it with
                    | Some bytes => Some bytes
                    | None => fs1 !! segmentFile
                    end).
  { destruct (Recorder.recorded it); [by rewrite lookup_insert_eq|done]. }
  destruct (_ >=? _) eqn:Hge.
  - eexists (Recorder.Break _ _).
    cbn [Recorder.stepRecorder Recorder.stepWorld Recorder.isBreak
         Recorder.postSegments Recorder.postBufferSeconds VideoMuxer.fs].
    split_and!; [done|done|done|by apply Hcmp|].
    unfold Recorder.afterLoop. cbn [Recorder.state Recorder.jobActive andb].
    by rewrite bool_decide_eq_true_2.
  - eexists (Recorder.Continue _ _).
    cbn [Recorder.stepRecorder Recorder.stepWorld Recorder.isBreak VideoMuxer.fs].
    split_and!; [done| |done| |done].
    + unfold Recorder.telemetryUpdate. recorder_simpl. done.
    + unfold Recorder.telemetryUpdate. recorder_simpl.
      split; [done|]. intros Hle. apply Hcmp in Hle. congruence.
Qed.

(** ** The single-segment path of the Concatenator *)

(** C6. Given exactly one segment whose file exists, and a media store that
    accepts the insertion and opens the output stream, [concatenateSegments]
    returns the uri and the bytes stored under it are the bytes of the
    segment file: the file is copied, neither parsed nor re-muxed. *)
Theorem single_segment_copied_verbatim `{Media.Platform} (cacheDir stamp : string)
    (env : VideoMuxer.SinkEnv) (segment : File) (username : string)
    (w : VideoMuxer.World) (bytes : list byte) (uri : string) :
  VideoMuxer.fs w !! segment = Some bytes →
  VideoMuxer.insertResult env = Some uri →
  VideoMuxer.opensOutputStream env = true →
  let result := VideoMuxer.concatenateSegments cacheDir stamp env [segment] username w in
  result.1 = Some uri
  ∧ VideoMuxer.content <$> (VideoMuxer.mediaStore result.2 !! uri) = Some bytes
  ∧ VideoMuxer.displayName <$> (VideoMuxer.mediaStore result.2 !! uri)
    = Some (username +:+ "_" +:+ stamp +:+ ".mp4").
Proof.
  intros Hfile Hins Hopen result. subst result.
  unfold VideoMuxer.concatenateSegments, Files.copyTo. rewrite Hfile.
  unfold VideoMuxer.saveToMediaStore. rewrite Hins, Hopen.
  cbn [VideoMuxer.fs VideoMuxer.mediaStore]. rewrite lookup_insert_eq.
  cbn [fst snd VideoMuxer.mediaStore]. rewrite lookup_insert_eq. done.
Qed.

Lemma single_segment_copied_verbatim_witness :
  let w := {| VideoMuxer.fs := {[ "/cache/video_buffer/segment_0.mp4" := [x00; x21; x42] ]};
              VideoMuxer.mediaStore := ∅ |} in
  let env := {| VideoMuxer.sdkAtLeastQ := true;
                VideoMuxer.insertResult := Some "content://media/external/video/media/1";
                VideoMuxer.opensOutputStream := true |} in
  let result := @VideoMuxer.concatenateSegments Toy.platform "/cache" "20240101_120000" env
                  ["/cache/video_buffer/segment_0.mp4"] "user" w in
  result.1 = Some "content://media/external/video/media/1"
  ∧ VideoMuxer.content
      <$> (VideoMuxer.mediaStore result.2 !! "content://media/external/video/media/1")
    = Some [x00; x21; x42]
  ∧ VideoMuxer.displayName
      <$> (VideoMuxer.mediaStore result.2 !! "content://media/external/video/media/1")
    = Some ("user" +:+ "_" +:+ "20240101_120000" +:+ ".mp4").
Proof.
  intros w env.
  apply (@single_segment_copied_verbatim Toy.platform "/cache" "20240101_120000" env
           "/cache/video_buffer/segment_0.mp4" "user" w [x00; x21; x42]
           "content://media/external/video/media/1").
  - vm_compute. reflexivity.
  - reflexivity.
  - reflexivity.
Defined.

(** ** What the Concatenator writes *)

Lemma copySamples_spec i off todo maxPts m :
  VideoMuxer.copySamples i off todo maxPts m
  = (MuxObs.maxPtsAfter off todo maxPts,
     {| VideoMuxer.formats := VideoMuxer.formats m;
        VideoMuxer.written := VideoMuxer.written m ++ (MuxObs.rewriteSample i off <$> todo) |}).
Proof.
  revert maxPts m. induction todo as [|s todo IH]; intros maxPts m.
  - cbn. rewrite app_nil_r. by destruct m.
  - cbn [VideoMuxer.copySamples]. rewrite IH. unfold VideoMuxer.writeSampleData.
    cbn [VideoMuxer.formats VideoMuxer.written MuxObs.maxPtsAfter foldl fmap list_fmap].
    by rewrite <- app_assoc.
Qed.

Lemma copyTrack_spec tracks m i mimePrefix off :
  VideoMuxer.copyTrack tracks m i mimePrefix off
  = (Kt.ladd (MuxObs.maxPtsAfter off (VideoMuxer.selectedSamples tracks mimePrefix) off)
       VideoMuxer.FRAME_DURATION_US,
     {| VideoMuxer.formats := VideoMuxer.formats m;
        VideoMuxer.written :=
          VideoMuxer.written m
          ++ (MuxObs.rewriteSample i off <$> VideoMuxer.selectedSamples tracks mimePrefix) |}).
Proof. unfold VideoMuxer.copyTrack. by rewrite copySamples_spec. Qed.


Section Concatenator.
Context `{Media.Platform}.

(** [processSegment] in terms of the tracks of the segment. *)
Lemma processSegment_tracksOf (fs : Fs) st segment :
  VideoMuxer.processSegment fs st segment
  = match MuxObs.tracksOf fs segment with
    | None => st
    | Some tracks => MuxObs.processTracks st tracks
    end.
Proof.
  unfold VideoMuxer.processSegment, MuxObs.tracksOf.
  destruct (negb _ || _); [done|].
  destruct (fs !! segment ≫= Media.extract) as [tracks|]; [|done].
  unfold MuxObs.processTracks. cbv zeta.
  destruct (negb (VideoMuxer.muxerStarted st) && _); [done|].
  generalize (if VideoMuxer.muxerStarted st then st
              else foldl VideoMuxer.registerTrack st tracks).
  intros [[fmts ws] v a lastV lastA started].
  cbn [VideoMuxer.muxer VideoMuxer.videoTrackIndex VideoMuxer.audioTrackIndex
       VideoMuxer.lastVideoPts VideoMuxer.lastAudioPts].
  rewrite !copyTrack_spec.
  destruct (v >=? 0); cbv beta iota; rewrite ?copyTrack_spec;
    destruct (a >=? 0); cbv beta iota; rewrite ?copyTrack_spec;
    cbn [VideoMuxer.formats VideoMuxer.written fmap list_fmap];
    by rewrite ?app_nil_r, <- ?app_assoc.
Qed.




Lemma tracksOf_insert_empty (fs : Fs) output segment tracks :
  MuxObs.tracksOf (<[output := []]> fs) segment = Some tracks →
  segment ≠ output ∧ MuxObs.tracksOf fs segment = Some tracks.
Proof.
  unfold MuxObs.tracksOf, Files.exists_, Files.length.
  destruct (decide (output = segment)) as [->|Hne].
  - rewrite lookup_insert_eq. cbn [List.length Z.of_nat Z.eqb]. by rewrite orb_true_r.
  - rewrite lookup_insert_ne by done. intros Htr. split; [congruence|done].
Qed.



Lemma foldl_processSegment_omap (fs : Fs) segments st :
  foldl (VideoMuxer.processSegment fs) st segments
  = foldl MuxObs.processTracks st (omap (MuxObs.tracksOf fs) segments).
Proof.
  revert st. induction segments as [|s segments IH]; intros st; [done|].
  cbn [foldl omap list_omap]. rewrite IH, processSegment_tracksOf.
  by destruct (MuxObs.tracksOf fs s).
Qed.

End Concatenator.

(** ** Registration of the output tracks *)

Lemma snoc_not_nil {A} (l : list A) (x : A) : l ++ [x] ≠ [].
Proof. by destruct l. Qed.

Lemma registerTrack_cases st trk :
  VideoMuxer.registerTrack st trk = st
  ∨ (VideoMuxer.formats (VideoMuxer.muxer (VideoMuxer.registerTrack st trk))
       = VideoMuxer.formats (VideoMuxer.muxer st) ++ [Media.format trk]
     ∧ VideoMuxer.written (VideoMuxer.muxer (VideoMuxer.registerTrack st trk))
       = VideoMuxer.written (VideoMuxer.muxer st)
     ∧ VideoMuxer.muxerStarted (VideoMuxer.registerTrack st trk) = VideoMuxer.muxerStarted st
     ∧ VideoMuxer.lastVideoPts (VideoMuxer.registerTrack st trk) = VideoMuxer.lastVideoPts st
     ∧ VideoMuxer.lastAudioPts (VideoMuxer.registerTrack st trk) = VideoMuxer.lastAudioPts st).
Proof.
  unfold VideoMuxer.registerTrack. destruct (Media.mime (Media.format trk)) as [m|]; [|by left].
  destruct (String.prefix "video/" m && _); [by right|].
  destruct (String.prefix "audio/" m && _); [by right|by left].
Qed.

Lemma registerTrack_usable st trk :
  MuxObs.usable trk = true →
  VideoMuxer.videoTrackIndex st < 0 → VideoMuxer.audioTrackIndex st < 0 →
  VideoMuxer.formats (VideoMuxer.muxer (VideoMuxer.registerTrack st trk)) ≠ [].
Proof.
  unfold MuxObs.usable, VideoMuxer.hasMime, VideoMuxer.registerTrack.
  intros Hus Hv Ha. destruct (Media.mime (Media.format trk)) as [m|]; [|done].
  apply Z.ltb_lt in Hv, Ha. rewrite Hv, Ha, !andb_true_r.
  destruct (String.prefix "video/" m); cbn in *.
  - by destruct (VideoMuxer.formats _).
  - rewrite Hus. cbn. by destruct (VideoMuxer.formats _).
Qed.

Lemma registerTracks_keep st tracks :
  let st' := foldl VideoMuxer.registerTrack st tracks in
  VideoMuxer.written (VideoMuxer.muxer st') = VideoMuxer.written (VideoMuxer.muxer st)
  ∧ VideoMuxer.muxerStarted st' = VideoMuxer.muxerStarted st
  ∧ VideoMuxer.lastVideoPts st' = VideoMuxer.lastVideoPts st
  ∧ VideoMuxer.lastAudioPts st' = VideoMuxer.lastAudioPts st
  ∧ (VideoMuxer.formats (VideoMuxer.muxer st) ≠ [] →
     VideoMuxer.formats (VideoMuxer.muxer st') ≠ [])
  ∧ (VideoMuxer.formats (VideoMuxer.muxer st') = [] → st' = st).
Proof.
  revert st. induction tracks as [|trk tracks IH]; intros st; [done|].
  cbn [foldl]. destruct (IH (VideoMuxer.registerTrack st trk)) as (Hw & Hs & Hv & Ha & Hne & Hid).
  destruct (registerTrack_cases st trk) as [Hsame | (Hf & Hw' & Hs' & Hv' & Ha')].
  - rewrite Hsame in *. done.
  - split_and!; try congruence.
    + intros Hst. apply Hne. rewrite Hf. apply snoc_not_nil.
    + intros Hempty. exfalso. revert Hempty. apply Hne. rewrite Hf. apply snoc_not_nil.
Qed.

Lemma registerTracks_usable st tracks trk :
  trk ∈ tracks → MuxObs.usable trk = true →
  VideoMuxer.videoTrackIndex st < 0 → VideoMuxer.audioTrackIndex st < 0 →
  VideoMuxer.formats (VideoMuxer.muxer (foldl VideoMuxer.registerTrack st tracks)) ≠ [].
Proof.
  revert st. induction tracks as [|t tracks IH]; intros st Hin Hus Hv Ha; [by apply elem_of_nil in Hin|].
  cbn [foldl]. apply elem_of_cons in Hin as [->|Hin].
  - apply registerTracks_keep. by apply registerTrack_usable.
  - destruct (registerTrack_cases st t) as [Hsame | (Hf & _)].
    + rewrite Hsame. by apply IH.
    + apply registerTracks_keep. rewrite Hf. apply snoc_not_nil.
Qed.

Section Started.
Context `{Media.Platform}.

(** The muxer starts whenever a track was added. *)
Hypothesis start_with_track : ∀ fmts, fmts ≠ [] → Media.start_ok fmts = true.





End Started.

Section Provenance.
Context `{Media.Platform}.



End Provenance.



(** ** The rewritten timeline *)

Lemma foldl_max_ge (init : Z) (l : list Z) : init <= foldl Z.max init l.
Proof.
  revert init. induction l as [|x l IH]; intros init; cbn [foldl]; [lia|].
  specialize (IH (Z.max init x)). lia.
Qed.

Lemma foldl_max_elem (init : Z) (l : list Z) (x : Z) : x ∈ l → x <= foldl Z.max init l.
Proof.
  revert init. induction l as [|y l IH]; intros init Hin; [by apply elem_of_nil in Hin|].
  cbn [foldl]. apply elem_of_cons in Hin as [->|Hin].
  - pose proof (foldl_max_ge (Z.max init y) l). lia.
  - by apply IH.
Qed.

Lemma foldl_max_upper (init : Z) (l : list Z) (u : Z) :
  init <= u → (∀ x, x ∈ l → x <= u) → foldl Z.max init l <= u.
Proof.
  revert init. induction l as [|y l IH]; intros init Hinit Hl; cbn [foldl]; [done|].
  apply IH.
  - specialize (Hl y ltac:(left)). lia.
  - intros x Hx. apply Hl. by right.
Qed.

Lemma maxTimestamp_latest (offset : Z) (out : list Z) (m : Z) :
  Timeline.latest out = Some m → (∀ y, y ∈ out → offset <= y) →
  Timeline.maxTimestamp offset out = m.
Proof.
  destruct out as [|x rest]; [done|]. cbn. intros [= <-] Hge.
  specialize (Hge x ltac:(left)). by rewrite Z.max_r.
Qed.

Lemma last_le_latest (out : list Z) (a m : Z) :
  last out = Some a → Timeline.latest out = Some m → a <= m.
Proof.
  destruct out as [|x rest]; [done|]. cbn [Timeline.latest]. intros Hlast [= <-].
  destruct rest as [|y rest'].
  - cbn in *. injection Hlast as ->. lia.
  - apply foldl_max_elem. rewrite last_cons_cons in Hlast.
    by apply last_Some_elem_of.
Qed.

Section Rewritten.
Variable frame : Z.
Hypothesis frame_pos : 0 < frame.

Lemma nonneg_tail times segments : Timeline.nonneg (times :: segments) → Timeline.nonneg segments.
Proof. intros Hn ts t Hts. apply Hn. by right. Qed.

(** No rewritten timestamp is below the offset its segment started from. *)
Lemma rewritten_lower offset segments chunk y :
  Timeline.nonneg segments →
  chunk ∈ Timeline.rewritten frame offset segments → y ∈ chunk → offset <= y.
Proof.
  revert offset. induction segments as [|times segments IH]; intros offset Hn Hchunk Hy;
    [by apply elem_of_nil in Hchunk|].
  cbn [Timeline.rewritten] in Hchunk. apply elem_of_cons in Hchunk as [->|Hchunk].
  - apply list_elem_of_fmap in Hy as (t & -> & Ht).
    specialize (Hn times t ltac:(left) Ht). lia.
  - eapply IH in Hchunk; [|by eapply nonneg_tail|done].
    pose proof (foldl_max_ge offset ((λ t, t + offset) <$> times)).
    unfold Timeline.maxTimestamp in Hchunk. lia.
Qed.

(** Every timestamp of a later segment is larger than every timestamp of
    an earlier one. *)
Lemma rewritten_across offset segments (i j : nat) a b x y :
  Timeline.nonneg segments → (i < j)%nat →
  Timeline.rewritten frame offset segments !! i = Some a →
  Timeline.rewritten frame offset segments !! j = Some b →
  x ∈ a → y ∈ b → x < y.
Proof.
  revert offset i j. induction segments as [|times segments IH];
    intros offset i j Hn Hij Ha Hb Hx Hy; [done|].
  cbn [Timeline.rewritten] in Ha, Hb.
  destruct j as [|j]; [lia|]. cbn in Hb.
  destruct i as [|i].
  - cbn in Ha. injection Ha as <-.
    pose proof (foldl_max_elem offset _ x Hx) as Hmax.
    assert (Hlow : Timeline.maxTimestamp offset ((λ t, t + offset) <$> times) + frame <= y).
    { eapply rewritten_lower; [by eapply nonneg_tail| |done].
      by eapply list_elem_of_lookup_2. }
    unfold Timeline.maxTimestamp in Hlow. lia.
  - cbn in Ha. eapply (IH _ i j); [by eapply nonneg_tail|lia|done..].
Qed.

(** The first timestamp of a segment is one frame and its own original
    first timestamp after the largest timestamp of the segment before. *)
Lemma rewritten_gap offset segments (i : nat) prev next times m y0 t0 :
  Timeline.nonneg segments →
  Timeline.rewritten frame offset segments !! i = Some prev →
  Timeline.rewritten frame offset segments !! S i = Some next →
  segments !! S i = Some times →
  Timeline.latest prev = Some m → head next = Some y0 → head times = Some t0 →
  y0 - m = frame + t0.
Proof.
  revert offset i. induction segments as [|times0 segments IH];
    intros offset i Hn Hprev Hnext Htimes Hm Hy0 Ht0; [done|].
  cbn [Timeline.rewritten] in Hprev, Hnext.
  destruct i as [|i].
  - cbn in Hprev, Hnext, Htimes. injection Hprev as <-.
    destruct segments as [|times1 segments]; [done|].
    cbn in Hnext, Htimes. injection Hnext as <-. injection Htimes as ->.
    destruct times as [|t times]; [done|]. cbn in Ht0, Hy0.
    injection Ht0 as <-. injection Hy0 as <-.
    rewrite (maxTimestamp_latest offset _ m Hm).
    + lia.
    + intros y (t' & -> & Ht')%list_elem_of_fmap.
      specialize (Hn times0 t' ltac:(left) Ht'). lia.
  - cbn in Hprev, Hnext, Htimes. eapply (IH _ i); [by eapply nonneg_tail|done..].
Qed.

End Rewritten.

(** ** Track indices *)

Lemma audio_not_video m : String.prefix "audio/" m = true → String.prefix "video/" m = false.
Proof.
  intros Ha. destruct (String.prefix "video/" m) eqn:Hv; [|reflexivity].
  apply String.prefix_correct in Ha, Hv.
  change (String.length "audio/") with 6%nat in Ha.
  change (String.length "video/") with 6%nat in Hv.
  rewrite Hv in Ha. discriminate Ha.
Qed.

Lemma registerTrack_registered st trk :
  MuxObs.registered st → MuxObs.registered (VideoMuxer.registerTrack st trk).
Proof.
  intros (Hv & Ha & Hd). unfold VideoMuxer.registerTrack.
  destruct (Media.mime (Media.format trk)) as [m|]; [|done].
  destruct (String.prefix "video/" m && _) eqn:Hvid.
  { apply andb_true_iff in Hvid as [_ Hneg%Z.ltb_lt].
    unfold MuxObs.registered, MuxObs.distinct.
    cbn [VideoMuxer.addTrack VideoMuxer.muxer VideoMuxer.videoTrackIndex
         VideoMuxer.audioTrackIndex VideoMuxer.formats].
    rewrite length_app. cbn [length]. split_and!; [right; lia| |]; lia. }
  destruct (String.prefix "audio/" m && _) eqn:Haud; [|done].
  apply andb_true_iff in Haud as [_ Hneg%Z.ltb_lt].
  unfold MuxObs.registered, MuxObs.distinct.
  cbn [VideoMuxer.addTrack VideoMuxer.muxer VideoMuxer.videoTrackIndex
       VideoMuxer.audioTrackIndex VideoMuxer.formats].
  rewrite length_app. cbn [length]. split_and!; [|right; lia|]; lia.
Qed.

Lemma registerTracks_registered st tracks :
  MuxObs.registered st → MuxObs.registered (foldl VideoMuxer.registerTrack st tracks).
Proof.
  revert st. induction tracks as [|trk tracks IH]; intros st Hst; [done|].
  cbn [foldl]. by apply IH, registerTrack_registered.
Qed.

(** A registered track keeps its index. *)
Lemma registerTrack_index_keep k st trk :
  0 <= MuxObs.indexOf k st →
  MuxObs.indexOf k (VideoMuxer.registerTrack st trk) = MuxObs.indexOf k st.
Proof.
  intros Hk. unfold VideoMuxer.registerTrack.
  destruct (Media.mime (Media.format trk)) as [m|]; [|done].
  destruct k; cbn [MuxObs.indexOf] in *.
  - rewrite (proj2 (Z.ltb_ge _ _) Hk), andb_false_r.
    by destruct (String.prefix "audio/" m && _).
  - rewrite (proj2 (Z.ltb_ge (VideoMuxer.audioTrackIndex st) _) Hk), andb_false_r.
    by destruct (String.prefix "video/" m && _).
Qed.

(** A track of kind [k] gets kind [k] registered. *)
Lemma registerTrack_index_new k st trk :
  MuxObs.registered st →
  VideoMuxer.hasMime (MuxObs.mimePrefix k) trk = true →
  0 <= MuxObs.indexOf k (VideoMuxer.registerTrack st trk).
Proof.
  intros (Hv & Ha & _) Hmime.
  destruct (decide (0 <= MuxObs.indexOf k st)) as [Hk|Hk].
  { by rewrite registerTrack_index_keep. }
  unfold VideoMuxer.hasMime in Hmime. unfold VideoMuxer.registerTrack.
  destruct (Media.mime (Media.format trk)) as [m|]; [|done].
  destruct k; cbn [MuxObs.indexOf MuxObs.mimePrefix] in *.
  - rewrite Hmime, (proj2 (Z.ltb_lt _ _)) by lia. cbn. lia.
  - rewrite (audio_not_video m Hmime), Hmime,
      (proj2 (Z.ltb_lt (VideoMuxer.audioTrackIndex st) _)) by lia. cbn. lia.
Qed.

Lemma registerTracks_index_keep k st tracks :
  0 <= MuxObs.indexOf k st →
  MuxObs.indexOf k (foldl VideoMuxer.registerTrack st tracks) = MuxObs.indexOf k st.
Proof.
  revert st. induction tracks as [|trk tracks IH]; intros st Hk; [done|].
  cbn [foldl]. rewrite IH; rewrite registerTrack_index_keep; done.
Qed.

Lemma registerTracks_index_new k st tracks trk :
  MuxObs.registered st → trk ∈ tracks →
  VideoMuxer.hasMime (MuxObs.mimePrefix k) trk = true →
  0 <= MuxObs.indexOf k (foldl VideoMuxer.registerTrack st tracks).
Proof.
  revert st. induction tracks as [|t tracks IH]; intros st Hreg Hin Hmime;
    [by apply elem_of_nil in Hin|].
  cbn [foldl]. apply elem_of_cons in Hin as [->|Hin].
  - rewrite registerTracks_index_keep; by apply registerTrack_index_new.
  - apply IH; [by apply registerTrack_registered|done..].
Qed.

Lemma hasMime_usable k trk :
  VideoMuxer.hasMime (MuxObs.mimePrefix k) trk = true → MuxObs.usable trk = true.
Proof.
  unfold MuxObs.usable. destruct k; cbn [MuxObs.mimePrefix]; intros ->; [done|].
  apply orb_true_r.
Qed.

(** ** Timestamps of one output track *)

Lemma filter_track_same i off (l : list Media.Sample) :
  filter (λ w, Media.trackIndex w = i) (MuxObs.rewriteSample i off <$> l)
  = MuxObs.rewriteSample i off <$> l.
Proof.
  induction l as [|s l IH]; [done|].
  rewrite fmap_cons, filter_cons, decide_True by done. by rewrite IH.
Qed.

Lemma filter_track_other i j off (l : list Media.Sample) :
  i ≠ j → filter (λ w, Media.trackIndex w = i) (MuxObs.rewriteSample j off <$> l) = [].
Proof.
  intros Hne. induction l as [|s l IH]; [done|].
  rewrite fmap_cons, filter_cons, decide_False; [done|]. cbn. congruence.
Qed.

Lemma pts_exact i off (l : list Media.Sample) :
  (∀ s, s ∈ l → Kt.isLong (Media.sampleTime s + off)) →
  Media.presentationTimeUs <$> (MuxObs.rewriteSample i off <$> l)
  = (λ t, t + off) <$> (Media.sampleTime <$> l).
Proof.
  induction l as [|s l IH]; intros Hl; [done|].
  rewrite !fmap_cons. cbn [MuxObs.rewriteSample Media.presentationTimeUs].
  assert (Hs : Kt.ladd (Media.sampleTime s) off = Media.sampleTime s + off)
    by (apply toLong_id, Hl; left).
  rewrite Hs.
  f_equal. apply IH. intros s' Hs'. apply Hl. by right.
Qed.

Lemma maxPtsAfter_exact off (l : list Media.Sample) init :
  (∀ s, s ∈ l → Kt.isLong (Media.sampleTime s + off)) →
  MuxObs.maxPtsAfter off l init
  = foldl Z.max init ((λ t, t + off) <$> (Media.sampleTime <$> l)).
Proof.
  revert init. induction l as [|s l IH]; intros init Hl; [done|].
  rewrite !fmap_cons. unfold MuxObs.maxPtsAfter in *. cbn [foldl]. cbv zeta.
  assert (Hs : Kt.ladd (Media.sampleTime s) off = Media.sampleTime s + off)
    by (apply toLong_id, Hl; left).
  rewrite Hs.
  assert (Hmax : (if Media.sampleTime s + off >? init then Media.sampleTime s + off else init)
                 = Z.max init (Media.sampleTime s + off)).
  { destruct (Z.gtb_spec (Media.sampleTime s + off) init); lia. }
  rewrite Hmax. apply IH. intros s' Hs'. apply Hl. by right.
Qed.

Section Track.
Context `{Media.Platform}.
Variable k : MuxObs.Kind.
Variable B : Z.
Hypothesis B_nonneg : 0 <= B.

Local Abbreviation times tracks := (MuxObs.timesOf (MuxObs.mimePrefix k) tracks).

(** One more segment on a started muxer, seen from track [k]. *)
Lemma processTracks_step st tracks :
  VideoMuxer.muxerStarted st = true → MuxObs.distinct st →
  0 <= MuxObs.indexOf k st → 0 <= MuxObs.lastPtsOf k st →
  (∀ t, t ∈ times tracks → 0 <= t <= B) →
  MuxObs.lastPtsOf k st + B + VideoMuxer.FRAME_DURATION_US <= Kt.Long_MAX_VALUE →
  let st' := MuxObs.processTracks st tracks in
  let out := (λ t, t + MuxObs.lastPtsOf k st) <$> times tracks in
  VideoMuxer.muxerStarted st' = true
  ∧ VideoMuxer.videoTrackIndex st' = VideoMuxer.videoTrackIndex st
  ∧ VideoMuxer.audioTrackIndex st' = VideoMuxer.audioTrackIndex st
  ∧ MuxObs.ptsOf (MuxObs.indexOf k st) (VideoMuxer.muxer st')
    = MuxObs.ptsOf (MuxObs.indexOf k st) (VideoMuxer.muxer st) ++ out
  ∧ MuxObs.lastPtsOf k st'
    = Timeline.maxTimestamp (MuxObs.lastPtsOf k st) out + VideoMuxer.FRAME_DURATION_US
  ∧ MuxObs.lastPtsOf k st <= MuxObs.lastPtsOf k st'
    <= MuxObs.lastPtsOf k st + B + VideoMuxer.FRAME_DURATION_US.
Proof.
  intros Hstarted Hdist Hidx Hlast Htimes Hfit st' out.
  assert (Hexact : ∀ s, s ∈ VideoMuxer.selectedSamples tracks (MuxObs.mimePrefix k) →
                        Kt.isLong (Media.sampleTime s + MuxObs.lastPtsOf k st)).
  { intros s Hs. specialize (Htimes (Media.sampleTime s)).
    unfold MuxObs.timesOf in Htimes. specialize (Htimes (list_elem_of_fmap_2 _ _ _ Hs)).
    unfold_ranges. unfold VideoMuxer.FRAME_DURATION_US in Hfit. lia. }
  assert (Hmax : Timeline.maxTimestamp (MuxObs.lastPtsOf k st) out
                 <= MuxObs.lastPtsOf k st + B).
  { apply foldl_max_upper; [lia|]. subst out.
    intros x (t & -> & Ht)%list_elem_of_fmap. specialize (Htimes t Ht). lia. }
  pose proof (foldl_max_ge (MuxObs.lastPtsOf k st) out) as Hge.
  fold (Timeline.maxTimestamp (MuxObs.lastPtsOf k st) out) in Hge.
  assert (Hnext : Kt.ladd (MuxObs.maxPtsAfter (MuxObs.lastPtsOf k st)
                             (VideoMuxer.selectedSamples tracks (MuxObs.mimePrefix k))
                             (MuxObs.lastPtsOf k st)) VideoMuxer.FRAME_DURATION_US
                  = Timeline.maxTimestamp (MuxObs.lastPtsOf k st) out
                    + VideoMuxer.FRAME_DURATION_US).
  { rewrite maxPtsAfter_exact by done.
    fold (times tracks). fold out. fold (Timeline.maxTimestamp (MuxObs.lastPtsOf k st) out).
    unfold Kt.ladd. apply toLong_id.
    revert Hmax Hge. generalize (Timeline.maxTimestamp (MuxObs.lastPtsOf k st) out).
    intros m Hmax Hge. unfold_ranges. unfold VideoMuxer.FRAME_DURATION_US in *. lia. }
  subst st'. unfold MuxObs.processTracks. rewrite Hstarted. cbv zeta. cbn [negb andb].
  cbn [VideoMuxer.muxerStarted VideoMuxer.videoTrackIndex VideoMuxer.audioTrackIndex
       VideoMuxer.muxer].
  split; [done|]. split; [done|]. split; [done|]. split; [|split].
  - unfold MuxObs.ptsOf. cbn [VideoMuxer.written].
    rewrite !filter_app, !fmap_app. f_equal.
    destruct k; cbn [MuxObs.indexOf MuxObs.mimePrefix MuxObs.lastPtsOf] in *.
    + rewrite (proj2 (Z.geb_le _ _) Hidx), filter_track_same, pts_exact by done.
      fold out.
      destruct (Z.geb_spec (VideoMuxer.audioTrackIndex st) 0) as [Ha|Ha].
      * rewrite filter_track_other by (by apply Hdist). apply app_nil_r.
      * apply app_nil_r.
    + rewrite (proj2 (Z.geb_le (VideoMuxer.audioTrackIndex st) _) Hidx), filter_track_same,
        pts_exact by done.
      fold out.
      destruct (Z.geb_spec (VideoMuxer.videoTrackIndex st) 0) as [Hv|Hv]; [|done].
      rewrite filter_track_other; [done|]. intros Heq. by apply Hdist.
  - destruct k; cbn [MuxObs.indexOf MuxObs.mimePrefix MuxObs.lastPtsOf] in *.
    + by rewrite (proj2 (Z.geb_le _ _) Hidx).
    + by rewrite (proj2 (Z.geb_le (VideoMuxer.audioTrackIndex st) _) Hidx).
  - assert (Hl : MuxObs.lastPtsOf k (MuxObs.processTracks st tracks)
                 = Timeline.maxTimestamp (MuxObs.lastPtsOf k st) out
                   + VideoMuxer.FRAME_DURATION_US).
    { unfold MuxObs.processTracks. rewrite Hstarted. cbv zeta. cbn [negb andb].
      destruct k; cbn [MuxObs.indexOf MuxObs.mimePrefix MuxObs.lastPtsOf
                       VideoMuxer.lastVideoPts VideoMuxer.lastAudioPts] in *.
      - by rewrite (proj2 (Z.geb_le _ _) Hidx).
      - by rewrite (proj2 (Z.geb_le (VideoMuxer.audioTrackIndex st) _) Hidx). }
    unfold MuxObs.processTracks in Hl. rewrite Hstarted in Hl. cbv zeta in Hl.
    cbn [negb andb] in Hl. rewrite Hl.
    revert Hmax Hge. generalize (Timeline.maxTimestamp (MuxObs.lastPtsOf k st) out).
    intros m Hmax Hge. unfold VideoMuxer.FRAME_DURATION_US. lia.
Qed.

End Track.

Section Timestamps.
Context `{Media.Platform}.
Variable k : MuxObs.Kind.
Variable B : Z.
Hypothesis B_nonneg : 0 <= B.

Local Abbreviation times tracks := (MuxObs.timesOf (MuxObs.mimePrefix k) tracks).

(** The segments after the first, seen from track [k]. *)
Lemma foldl_processTracks_pts st (tl : list (list Media.Track)) :
  VideoMuxer.muxerStarted st = true → MuxObs.distinct st →
  0 <= MuxObs.indexOf k st → 0 <= MuxObs.lastPtsOf k st →
  (∀ tracks t, tracks ∈ tl → t ∈ times tracks → 0 <= t <= B) →
  MuxObs.lastPtsOf k st + (B + VideoMuxer.FRAME_DURATION_US) * Z.of_nat (length tl)
    <= Kt.Long_MAX_VALUE →
  let st' := foldl MuxObs.processTracks st tl in
  MuxObs.indexOf k st' = MuxObs.indexOf k st
  ∧ MuxObs.ptsOf (MuxObs.indexOf k st) (VideoMuxer.muxer st')
    = MuxObs.ptsOf (MuxObs.indexOf k st) (VideoMuxer.muxer st)
      ++ concat (Timeline.rewritten VideoMuxer.FRAME_DURATION_US (MuxObs.lastPtsOf k st)
                   ((λ tracks, times tracks) <$> tl)).
Proof.
  revert st. induction tl as [|tracks tl IH];
    intros st Hstarted Hdist Hidx Hlast Htimes Hfit; cbn [foldl].
  { cbn. by rewrite app_nil_r. }
  cbn [length] in Hfit.
  assert (HF : 0 < VideoMuxer.FRAME_DURATION_US) by done.
  destruct (processTracks_step k B B_nonneg st tracks) as (Hs & Hv & Ha & Hpts & Hl & Hrange);
    [done..| |nia|].
  { intros t Ht. apply (Htimes tracks); [left|done]. }
  set (st1 := MuxObs.processTracks st tracks) in *.
  assert (Hidx1 : MuxObs.indexOf k st1 = MuxObs.indexOf k st) by (by destruct k).
  destruct (IH st1) as (Hidx' & Hpts'); [done| |lia|lia| |nia|].
  { unfold MuxObs.distinct. rewrite Hv, Ha. exact Hdist. }
  { intros trs t Htrs. apply Htimes. by right. }
  split; [congruence|].
  rewrite Hidx1 in Hpts'. rewrite Hpts', Hpts, <- app_assoc. f_equal.
  rewrite fmap_cons. cbn [Timeline.rewritten concat]. by rewrite Hl.
Qed.

(** The first segment registers the tracks and starts the muxer. *)
Lemma processTracks_first st tracks :
  VideoMuxer.muxerStarted st = false →
  Media.start_ok
    (VideoMuxer.formats (VideoMuxer.muxer (foldl VideoMuxer.registerTrack st tracks))) = true →
  MuxObs.processTracks st tracks
  = MuxObs.processTracks (MuxObs.setStarted (foldl VideoMuxer.registerTrack st tracks)) tracks.
Proof.
  intros Hst Hok. unfold MuxObs.processTracks. cbv zeta.
  rewrite Hst. cbn [negb andb MuxObs.setStarted VideoMuxer.muxerStarted VideoMuxer.muxer].
  rewrite Hok. reflexivity.
Qed.

Hypothesis start_with_track : ∀ fmts, fmts ≠ [] → Media.start_ok fmts = true.

(** All segments, from the initial state. *)
Lemma muxSegments_pts (first : list Media.Track) (rest : list (list Media.Track)) trk :
  trk ∈ first → VideoMuxer.hasMime (MuxObs.mimePrefix k) trk = true →
  (∀ tracks t, tracks ∈ first :: rest → t ∈ times tracks → 0 <= t <= B) →
  (B + VideoMuxer.FRAME_DURATION_US) * Z.of_nat (length (first :: rest))
    <= Kt.Long_MAX_VALUE →
  let st := foldl MuxObs.processTracks VideoMuxer.initialMuxState (first :: rest) in
  0 <= MuxObs.indexOf k st
  ∧ MuxObs.ptsOf (MuxObs.indexOf k st) (VideoMuxer.muxer st)
    = concat (Timeline.rewritten VideoMuxer.FRAME_DURATION_US 0
                ((λ tracks, times tracks) <$> first :: rest)).
Proof.
  intros Htrk Hmime Htimes Hfit. cbn [foldl].
  set (st1 := foldl VideoMuxer.registerTrack VideoMuxer.initialMuxState first).
  assert (Hreg0 : MuxObs.registered VideoMuxer.initialMuxState).
  { split_and!; [by left|by left|]. intros Hv. cbn in Hv. lia. }
  assert (Hreg : MuxObs.registered st1) by by apply registerTracks_registered.
  assert (Hidx : 0 <= MuxObs.indexOf k st1) by by eapply registerTracks_index_new.
  destruct (registerTracks_keep VideoMuxer.initialMuxState first)
    as (Hw & _ & Hlv & Hla & _ & _). fold st1 in Hw, Hlv, Hla.
  assert (Hne : VideoMuxer.formats (VideoMuxer.muxer st1) ≠ []).
  { eapply registerTracks_usable; [done|by eapply hasMime_usable|cbn; lia..]. }
  rewrite processTracks_first by (done || by apply start_with_track).
  fold st1.
  change (MuxObs.processTracks (MuxObs.setStarted st1) first)
    with (foldl MuxObs.processTracks (MuxObs.setStarted st1) [first]).
  rewrite <- foldl_app. change ([first] ++ rest) with (first :: rest).
  assert (Hlast : MuxObs.lastPtsOf k (MuxObs.setStarted st1) = 0).
  { destruct k; cbn; [by rewrite Hlv|by rewrite Hla]. }
  assert (Hidx' : MuxObs.indexOf k (MuxObs.setStarted st1) = MuxObs.indexOf k st1)
    by by destruct k.
  destruct (foldl_processTracks_pts (MuxObs.setStarted st1) (first :: rest))
    as (Hi & Hpts); [done|by destruct Hreg as (_ & _ & ?)|lia|lia|done|by rewrite Hlast|].
  rewrite Hi, Hidx'. split; [done|].
  rewrite Hidx' in Hpts. rewrite Hpts, Hlast.
  unfold MuxObs.ptsOf at 1. cbn [MuxObs.setStarted VideoMuxer.muxer]. rewrite Hw. done.
Qed.

End Timestamps.

(** C2 (as amended). For each track kind the first processed segment
    carries, with original timestamps between 0 and [B] and sums that fit a
    [Long]: the timestamps written to the output track are the original ones
    plus the running offset, segment after segment; every timestamp of a
    later segment is larger than every timestamp of an earlier one; and the
    first timestamp of a segment exceeds the largest timestamp of the
    segment before by one nominal frame duration plus its own original
    value, so the step across the boundary is at least that much. *)
Theorem timestamps_across_segments `{Media.Platform} (k : MuxObs.Kind)
    (segments : list File) (output : File) (fs : Fs) (B : Z)
    (first : list Media.Track) (rest : list (list Media.Track)) (trk : Media.Track) :
  (∀ fmts, fmts ≠ [] → Media.start_ok fmts = true) →
  omap (MuxObs.tracksOf (<[output := []]> fs)) segments = first :: rest →
  trk ∈ first → VideoMuxer.hasMime (MuxObs.mimePrefix k) trk = true →
  0 <= B →
  (∀ tracks t, tracks ∈ first :: rest →
               t ∈ MuxObs.timesOf (MuxObs.mimePrefix k) tracks → 0 <= t <= B) →
  (B + VideoMuxer.FRAME_DURATION_US) * Z.of_nat (length (first :: rest))
    <= Kt.Long_MAX_VALUE →
  let st := VideoMuxer.muxSegments segments output fs in
  let originals := MuxObs.timesOf (MuxObs.mimePrefix k) <$> first :: rest in
  let chunks := Timeline.rewritten VideoMuxer.FRAME_DURATION_US 0 originals in
  0 <= MuxObs.indexOf k st
  ∧ MuxObs.ptsOf (MuxObs.indexOf k st) (VideoMuxer.muxer st) = concat chunks
  ∧ (∀ (i j : nat) a b x y,
       (i < j)%nat → chunks !! i = Some a → chunks !! j = Some b →
       x ∈ a → y ∈ b → x < y)
  ∧ (∀ (i : nat) prev next times m y0 t0,
       chunks !! i = Some prev → chunks !! S i = Some next →
       originals !! S i = Some times →
       Timeline.latest prev = Some m → head next = Some y0 → head times = Some t0 →
       y0 - m = VideoMuxer.FRAME_DURATION_US + t0)
  ∧ (∀ (i : nat) prev next times gap t0,
       chunks !! i = Some prev → chunks !! S i = Some next →
       originals !! S i = Some times →
       Timeline.boundaryGap prev next = Some gap → head times = Some t0 →
       VideoMuxer.FRAME_DURATION_US + t0 <= gap).
Proof.
  intros Hstart Hproc Htrk Hmime HB Htimes Hfit st originals chunks.
  assert (HF : 0 < VideoMuxer.FRAME_DURATION_US) by done.
  assert (Hnn : Timeline.nonneg originals).
  { intros ts t (tracks & -> & Htracks)%list_elem_of_fmap Ht.
    by apply (Htimes tracks t). }
  assert (Hgap : ∀ (i : nat) prev next times m y0 t0,
       chunks !! i = Some prev → chunks !! S i = Some next →
       originals !! S i = Some times →
       Timeline.latest prev = Some m → head next = Some y0 → head times = Some t0 →
       y0 - m = VideoMuxer.FRAME_DURATION_US + t0).
  { intros i prev next times m y0 t0. by apply rewritten_gap. }
  destruct (muxSegments_pts k B HB Hstart first rest trk Htrk Hmime Htimes Hfit)
    as (Hidx & Hpts).
  subst st. unfold VideoMuxer.muxSegments. rewrite foldl_processSegment_omap, Hproc.
  split_and!; [done|done| |done|].
  - intros i j a b x y. by apply rewritten_across.
  - intros i prev next times gap t0 Hprev Hnext Horig Hbg Ht0.
    unfold Timeline.boundaryGap in Hbg.
    destruct (last prev) as [a|] eqn:Ha; [|done].
    destruct (head next) as [y0|] eqn:Hy0; [|done]. injection Hbg as <-.
    destruct (Timeline.latest prev) as [m|] eqn:Hm; [|by destruct prev].
    pose proof (last_le_latest prev a m Ha Hm).
    pose proof (Hgap i prev next times m y0 t0 Hprev Hnext Horig Hm Hy0 Ht0). lia.
Qed.

Lemma toy_starts fmts : fmts ≠ [] → @Media.start_ok Toy.platform fmts = true.
Proof. intros Hne. cbn. by rewrite bool_decide_eq_false_2. Qed.

Lemma timestamps_across_segments_witness :
  let segments := ["/cache/video_buffer/segment_0.mp4"; "/cache/video_buffer/segment_1.mp4"] in
  let fs : Fs := {[ "/cache/video_buffer/segment_0.mp4" := [x00; x21];
                    "/cache/video_buffer/segment_1.mp4" := [x64; x85] ]} in
  let first := [Toy.track [x00; x21]] in
  let rest := [[Toy.track [x64; x85]]] in
  let st := @VideoMuxer.muxSegments Toy.platform segments "/cache/temp_output_t.mp4" fs in
  let originals := MuxObs.timesOf (MuxObs.mimePrefix MuxObs.Video) <$> first :: rest in
  let chunks := Timeline.rewritten VideoMuxer.FRAME_DURATION_US 0 originals in
  0 <= MuxObs.indexOf MuxObs.Video st
  ∧ MuxObs.ptsOf (MuxObs.indexOf MuxObs.Video st) (VideoMuxer.muxer st) = concat chunks
  ∧ (∀ (i j : nat) a b x y,
       (i < j)%nat → chunks !! i = Some a → chunks !! j = Some b →
       x ∈ a → y ∈ b → x < y)
  ∧ (∀ (i : nat) prev next times m y0 t0,
       chunks !! i = Some prev → chunks !! S i = Some next →
       originals !! S i = Some times →
       Timeline.latest prev = Some m → head next = Some y0 → head times = Some t0 →
       y0 - m = VideoMuxer.FRAME_DURATION_US + t0)
  ∧ (∀ (i : nat) prev next times gap t0,
       chunks !! i = Some prev → chunks !! S i = Some next →
       originals !! S i = Some times →
       Timeline.boundaryGap prev next = Some gap → head times = Some t0 →
       VideoMuxer.FRAME_DURATION_US + t0 <= gap).
Proof.
  intros segments fs first rest.
  apply (@timestamps_across_segments Toy.platform MuxObs.Video segments
           "/cache/temp_output_t.mp4" fs 133000 first rest (Toy.track [x00; x21])).
  - exact toy_starts.
  - vm_compute. reflexivity.
  - apply list_elem_of_here.
  - reflexivity.
  - lia.
  - intros tracks t Htracks Ht.
    assert (H0 : MuxObs.timesOf "video/" [Toy.track [x00; x21]] = [0; 33000])
      by (vm_compute; reflexivity).
    assert (H1 : MuxObs.timesOf "video/" [Toy.track [x64; x85]] = [100000; 133000])
      by (vm_compute; reflexivity).
    subst first rest. cbn [MuxObs.mimePrefix] in Ht.
    apply elem_of_cons in Htracks as [->|Htracks];
      [rewrite H0 in Ht|apply list_elem_of_singleton in Htracks as ->; rewrite H1 in Ht].
    all: revert Ht; rewrite !elem_of_cons, elem_of_nil; lia.
  - vm_compute. discriminate.
Defined.

(** C2 as the specification states it fails: two segments whose second one
    starts 100 ms into its own timeline are written with a step of 133333
    microseconds across the boundary, four nominal frame durations. *)
Lemma boundary_gap_counterexample :
  let segments := ["/cache/video_buffer/segment_0.mp4"; "/cache/video_buffer/segment_1.mp4"] in
  let fs : Fs := {[ "/cache/video_buffer/segment_0.mp4" := [x00; x21];
                    "/cache/video_buffer/segment_1.mp4" := [x64; x85] ]} in
  let output := "/cache/temp_output_t.mp4" in
  let st := @VideoMuxer.muxSegments Toy.platform segments output fs in
  let originals :=
    MuxObs.timesOf "video/"
      <$> omap (@MuxObs.tracksOf Toy.platform (<[output := []]> fs)) segments in
  let chunks := Timeline.rewritten VideoMuxer.FRAME_DURATION_US 0 originals in
  originals = [[0; 33000]; [100000; 133000]]
  ∧ MuxObs.ptsOf (VideoMuxer.videoTrackIndex st) (VideoMuxer.muxer st) = concat chunks
  ∧ chunks = [[0; 33000]; [166333; 199333]]
  ∧ ¬ Timeline.continuous VideoMuxer.FRAME_DURATION_US chunks.
Proof.
  intros segments fs output st originals chunks.
  assert (Hchunks : chunks = [[0; 33000]; [166333; 199333]]) by (vm_compute; reflexivity).
  split_and!; [vm_compute; reflexivity|vm_compute; reflexivity|done|].
  rewrite Hchunks. intros Hcont.
  specialize (Hcont 0%nat [0; 33000] [166333; 199333] 133333 eq_refl eq_refl eq_refl).
  unfold VideoMuxer.FRAME_DURATION_US in Hcont. lia.
Qed.

(** ** Runs on the small platform *)

(** Segments {1, missing, 3}: the stored bytes are those of 1 and 3. *)
Example concatenate_one_missing_three :
  let fs : Fs := {[ "/cache/video_buffer/segment_1.mp4" := [x00; x21];
                    "/cache/video_buffer/segment_3.mp4" := [x00; x21; x42] ]} in
  let result :=
    @VideoMuxer.concatenateSegments Toy.platform "/cache" "20240101_120000"
      {| VideoMuxer.sdkAtLeastQ := true;
         VideoMuxer.insertResult := Some "content://media/external/video/media/7";
         VideoMuxer.opensOutputStream := true |}
      ["/cache/video_buffer/segment_1.mp4"; "/cache/video_buffer/segment_2.mp4";
       "/cache/video_buffer/segment_3.mp4"] "user"
      {| VideoMuxer.fs := fs; VideoMuxer.mediaStore := ∅ |} in
  result.1 = Some "content://media/external/video/media/7"
  ∧ VideoMuxer.content
      <$> (VideoMuxer.mediaStore result.2 !! "content://media/external/video/media/7")
    = Some [x00; x21; x00; x21; x42].
Proof. vm_compute. done. Qed.

Lemma finalizeCapture_resets_witness :
  let env := {| Recorder.stamp := "20240101_120000";
                Recorder.sink := {| VideoMuxer.sdkAtLeastQ := true;
                                    VideoMuxer.insertResult := None;
                                    VideoMuxer.opensOutputStream := true |};
                Recorder.fault := None |} in
  let r := Recorder.set_state Recorder.CAPTURING_POST (Recorder.new Recorder.UseCases "/cache") in
  let w := {| VideoMuxer.fs := ∅; VideoMuxer.mediaStore := ∅ |} in
  let r' := (@Recorder.finalizeCapture Toy.platform env r w).1 in
  let w' := (@Recorder.finalizeCapture Toy.platform env r w).2 in
  Recorder.state r' = Recorder.IDLE
  ∧ Recorder.preSegments r' = []
  ∧ Recorder.postSegments r' = []
  ∧ SegmentManager.segments (Recorder.segmentManager r') = []
  ∧ (∀ it, it ∈ SegmentManager.segments (Recorder.segmentManager r) →
           VideoMuxer.fs w' !! SegmentManager.file it = None)
  ∧ ∃ e, Recorder.emitted r'
         = Recorder.emitted r
           ++ [Recorder.StateChanged Recorder.FINALIZING; e; Recorder.StateChanged Recorder.IDLE]
       ∧ e = match Recorder.fault env with
             | Some message => Recorder.Error "FINALIZE_FAILED" message
             | None =>
                 match Recorder.preSegments r ++ Recorder.postSegments r with
                 | [] => Recorder.Error "NO_SEGMENTS" "No video segments to save"
                 | allSegments =>
                     match (@VideoMuxer.concatenateSegments Toy.platform
                              (SegmentManager.cacheDir (Recorder.segmentManager r))
                              (Recorder.stamp env) (Recorder.sink env) allSegments
                              (Recorder.currentUsername r) w).1 with
                     | Some path => Recorder.CaptureCompleted path
                     | None => Recorder.Error "MUXER_FAILED" "Failed to create final video"
                     end
                 end
             end.
Proof.
  intros env r w.
  apply (@finalizeCapture_resets Toy.platform env r w). reflexivity.
Defined.

Lemma loop_counts_every_segment_witness :
  let env := {| Recorder.stamp := "20240101_120000";
                Recorder.sink := {| VideoMuxer.sdkAtLeastQ := true;
                                    VideoMuxer.insertResult := Some "content://media/1";
                                    VideoMuxer.opensOutputStream := true |};
                Recorder.fault := None |} in
  let it := {| Recorder.now := 1000; Recorder.started := false;
               Recorder.recorded := None; Recorder.during := [] |} in
  let r := Recorder.set_resources true true true false
             (Recorder.set_state Recorder.CAPTURING_POST
                (Recorder.setClipDuration 2 (Recorder.new Recorder.UseCases "/cache"))) in
  let w := {| VideoMuxer.fs := ∅; VideoMuxer.mediaStore := ∅ |} in
  let created := default ("", Recorder.segmentManager r, ∅)
                   (SegmentManager.createNewSegment 2 (Recorder.now it)
                      (Recorder.segmentManager r) (VideoMuxer.fs w)) in
  ∃ step,
    Recorder.loopBody 2 it r w = Some step
    ∧ Recorder.postSegments (Recorder.stepRecorder step)
      = Recorder.postSegments r ++ [created.1.1]
    ∧ VideoMuxer.fs (Recorder.stepWorld step) !! created.1.1
      = match Recorder.recorded it with
        | Some bytes => Some bytes
        | None => created.2 !! created.1.1
        end
    ∧ (Recorder.isBreak step = true
       ↔ Recorder.postBufferSeconds (Recorder.stepRecorder step) * 1000
         <= (Z.of_nat (length (Recorder.postSegments r)) + 1)
            * Recorder.SEGMENT_DURATION_MS (Recorder.variant r))
    ∧ @Recorder.segmentLoop Toy.platform 2 env [it] r w
      = if Recorder.isBreak step
        then Some (@Recorder.finalizeCapture Toy.platform env (Recorder.stepRecorder step)
                     (Recorder.stepWorld step))
        else @Recorder.segmentLoop Toy.platform 2 env [] (Recorder.stepRecorder step)
               (Recorder.stepWorld step).
Proof.
  intros env it r w created.
  apply (@loop_counts_every_segment Toy.platform 2 env it [] r w
           created.1.1 created.1.2 created.2).
  - reflexivity.
  - reflexivity.
  - constructor.
  - vm_compute. split; discriminate.
  - vm_compute. reflexivity.
  - vm_compute. reflexivity.
Defined.

(** A whole capture: a one-second pre-window and a one-second post-window
    of 500 ms segments. Three segments are buffered and the trigger arrives
    while the third is recorded, so that segment is frozen and counted as
    post-segment too; the next recording fails and is counted all the same:
    the loop leaves after these two post-segments, the capture is saved
    without the failed segment, and the session is back in [IDLE] with an
    empty store. *)
Example capture_end_to_end :
  let env := {| Recorder.stamp := "20240101_120000";
                Recorder.sink := {| VideoMuxer.sdkAtLeastQ := true;
                                    VideoMuxer.insertResult := Some "content://media/1";
                                    VideoMuxer.opensOutputStream := true |};
                Recorder.fault := None |} in
  let ok (n : Z) (b : byte) (calls : list Recorder.Call) :=
    {| Recorder.now := n; Recorder.started := true;
       Recorder.recorded := Some [b]; Recorder.during := calls |} in
  let failed (n : Z) :=
    {| Recorder.now := n; Recorder.started := false;
       Recorder.recorded := None; Recorder.during := [] |} in
  let r0 := Recorder.setClipDuration 2 (Recorder.new Recorder.UseCases "/cache") in
  let w0 := {| VideoMuxer.fs := ∅; VideoMuxer.mediaStore := ∅ |} in
  let rw1 := Recorder.startBuffering true r0 w0 in
  (λ rw : Recorder.t * VideoMuxer.World,
     (Recorder.state rw.1,
      SegmentManager.segments (Recorder.segmentManager rw.1),
      Recorder.emitted rw.1,
      VideoMuxer.content <$> (VideoMuxer.mediaStore rw.2 !! "content://media/1")))
    <$> @Recorder.segmentLoop Toy.platform 2 env
          [ok 0 x00 []; ok 500 x01 [];
           ok 1000 x02 [Recorder.CallTrigger 1400 1401];
           failed 1500]
          rw1.1 rw1.2
  = Some (Recorder.IDLE, [],
          [Recorder.StateChanged Recorder.BUFFERING; Recorder.BufferReady;
           Recorder.StateChanged Recorder.CAPTURING_POST; Recorder.CaptureStarted;
           Recorder.StateChanged Recorder.FINALIZING;
           Recorder.CaptureCompleted "content://media/1";
           Recorder.StateChanged Recorder.IDLE],
          Some [x00; x01; x02; x02]).
Proof. vm_compute. reflexivity. Qed.

(** ** The loop never leaves the session in [FINALIZING] *)

Lemma finalizeCapture_state `{Media.Platform} (env : Recorder.FinalizeEnv)
    (r : Recorder.t) (w : VideoMuxer.World) :
  Recorder.scopeActive r = true →
  Recorder.state (Recorder.finalizeCapture env r w).1 = Recorder.IDLE
  ∧ Recorder.jobActive (Recorder.finalizeCapture env r w).1 = Recorder.jobActive r
  ∧ Recorder.scopeActive (Recorder.finalizeCapture env r w).1 = true.
Proof.
  intros Hscope.
  destruct r as [v st ita cr cb sm tl es sa pre post un ja ps pos em].
  cbn [Recorder.scopeActive] in Hscope. subst sa.
  unfold Recorder.finalizeCapture. recorder_simpl. cbn [negb].
  destruct (Recorder.fault env); [by unfold Recorder.resetToIdle|].
  destruct (ps ++ pos); [by unfold Recorder.resetToIdle|].
  destruct (VideoMuxer.concatenateSegments _ _ _ _ _ w) as [[path|] w1];
    by unfold Recorder.resetToIdle.
Qed.

Lemma new_job_in_scope v cache : Recorder.job_in_scope (Recorder.new v cache).
Proof. intros [=]. Qed.

Lemma startBuffering_job_in_scope permitted r w :
  Recorder.job_in_scope r → Recorder.job_in_scope (Recorder.startBuffering permitted r w).1.
Proof.
  destruct r as [v st ita cr cb sm tl es sa pre post un ja ps pos em].
  unfold Recorder.job_in_scope, Recorder.startBuffering. recorder_simpl.
  destruct (negb (bool_decide (st = Recorder.IDLE))); [done|].
  destruct (negb permitted); done.
Qed.

Lemma applyCall_job_in_scope c r w :
  Recorder.job_in_scope r → Recorder.state r ≠ Recorder.FINALIZING →
  Recorder.job_in_scope (Recorder.applyCall (r, w) c).1
  ∧ Recorder.state (Recorder.applyCall (r, w) c).1 ≠ Recorder.FINALIZING.
Proof.
  destruct r as [v st ita cr cb sm tl es sa pre post un ja ps pos em], w as [fs ms].
  unfold Recorder.job_in_scope. cbn [Recorder.jobActive Recorder.scopeActive Recorder.state].
  intros Hjob Hst. destruct c as [n1 n2| |T]; cbn [Recorder.applyCall fst snd].
  - unfold Recorder.triggerCapture. recorder_simpl.
    destruct (negb (bool_decide (st = Recorder.BUFFERING))); done.
  - unfold Recorder.stopCamera. recorder_simpl. done.
  - unfold Recorder.setClipDuration. recorder_simpl. done.
Qed.

Lemma calls_job_in_scope calls r w :
  Recorder.job_in_scope r → Recorder.state r ≠ Recorder.FINALIZING →
  Recorder.job_in_scope (foldl Recorder.applyCall (r, w) calls).1
  ∧ Recorder.state (foldl Recorder.applyCall (r, w) calls).1 ≠ Recorder.FINALIZING.
Proof.
  revert r w. induction calls as [|c calls IH]; intros r w Hjob Hst; [done|].
  cbn [foldl]. destruct (applyCall_job_in_scope c r w Hjob Hst) as [Hjob1 Hst1].
  destruct (Recorder.applyCall (r, w) c) as [r1 w1]. by apply IH.
Qed.

Lemma loopBody_job_in_scope fuel it r w step :
  Recorder.job_in_scope r → Recorder.state r ≠ Recorder.FINALIZING →
  Recorder.loopBody fuel it r w = Some step →
  Recorder.job_in_scope (Recorder.stepRecorder step)
  ∧ Recorder.state (Recorder.stepRecorder step) ≠ Recorder.FINALIZING.
Proof.
  intros Hjob Hst. unfold Recorder.loopBody.
  destruct (SegmentManager.createNewSegment _ _ _ _) as [[[f sm1] fs1]|]; [|done].
  destruct r as [v st ita cr cb sm tl es sa pre post un ja ps pos em], w as [fs ms].
  unfold Recorder.job_in_scope in Hjob.
  cbn [Recorder.jobActive Recorder.scopeActive Recorder.state] in Hjob, Hst.
  unfold Recorder.recordSegment. recorder_simpl.
  match goal with |- context [foldl Recorder.applyCall (?r2, ?w2) _] =>
    destruct (calls_job_in_scope (Recorder.during it) r2 w2 Hjob Hst) as [Hjob3 Hst3];
    destruct (foldl Recorder.applyCall (r2, w2) (Recorder.during it)) as [r3 w3]
  end.
  destruct r3 as [v3 st3 ita3 cr3 cb3 sm3 tl3 es3 sa3 pre3 post3 un3 ja3 ps3 pos3 em3].
  unfold Recorder.job_in_scope in *.
  cbn [fst Recorder.jobActive Recorder.scopeActive Recorder.state] in Hjob3, Hst3.
  unfold Recorder.telemetryUpdate. recorder_simpl.
  destruct (bool_decide (st3 = Recorder.CAPTURING_POST)).
  - destruct (_ >=? _); intros [= <-]; done.
  - intros [= <-]; done.
Qed.

(** X24. Whatever the backend does and whichever calls arrive, the loop
    does not end with the session in [FINALIZING]: the finalization it
    starts runs in the scope of the loop and resets the session. *)
Lemma segmentLoop_not_stuck `{Media.Platform} fuel env its r w r' w' :
  Recorder.job_in_scope r → Recorder.state r ≠ Recorder.FINALIZING →
  Recorder.segmentLoop fuel env its r w = Some (r', w') →
  Recorder.state r' ≠ Recorder.FINALIZING.
Proof.
  assert (Hafter : ∀ r w, Recorder.job_in_scope r → Recorder.state r ≠ Recorder.FINALIZING →
            Recorder.state (Recorder.afterLoop env r w).1 ≠ Recorder.FINALIZING).
  { intros r0 w0 Hjob Hst. unfold Recorder.afterLoop.
    destruct (bool_decide _ && Recorder.jobActive r0) eqn:Hc; [|done].
    apply andb_true_iff in Hc as [_ Hactive].
    destruct (finalizeCapture_state env r0 w0 (Hjob Hactive)) as [-> _]. done. }
  revert r w. induction its as [|it its IH]; intros r w Hjob Hst; cbn [Recorder.segmentLoop].
  - destruct (Recorder.loopCond r); [done|]. intros [= Heq].
    pose proof (Hafter r w Hjob Hst) as Hne. by rewrite Heq in Hne.
  - destruct (Recorder.loopCond r).
    + destruct (Recorder.loopBody fuel it r w) as [step|] eqn:Hbody; [|done].
      apply loopBody_job_in_scope in Hbody as [Hjob1 Hst1]; [|done..].
      destruct step as [r1 w1|r1 w1]; cbn [Recorder.stepRecorder] in *.
      * by apply IH.
      * intros [= Heq]. pose proof (Hafter r1 w1 Hjob1 Hst1) as Hne.
        by rewrite Heq in Hne.
    + intros [= Heq]. pose proof (Hafter r w Hjob Hst) as Hne. by rewrite Heq in Hne.
Qed.

(** ** Paths and file names *)

Lemma string_app_assoc (s1 s2 s3 : string) : (s1 +:+ s2) +:+ s3 = s1 +:+ (s2 +:+ s3).
Proof.
  induction s1 as [|a s1 IH]; [done|].
  change (String a ((s1 +:+ s2) +:+ s3) = String a (s1 +:+ (s2 +:+ s3))).
  by rewrite IH.
Qed.

Lemma string_app_length (s t : string) :
  String.length (s +:+ t) = (String.length s + String.length t)%nat.
Proof.
  induction s as [|a s IH]; [done|].
  change (S (String.length (s +:+ t)) = S (String.length s + String.length t)).
  by rewrite IH.
Qed.

Lemma string_app_inj_r (s1 s2 t : string) : s1 +:+ t = s2 +:+ t → s1 = s2.
Proof.
  revert s2. induction s1 as [|a s1 IH]; intros [|b s2] Heq; [done| | |].
  - apply (f_equal String.length) in Heq.
    change (String b s2 +:+ t) with (String b (s2 +:+ t)) in Heq.
    change ("" +:+ t) with t in Heq. cbn [String.length] in Heq.
    rewrite string_app_length in Heq. lia.
  - apply (f_equal String.length) in Heq.
    change (String a s1 +:+ t) with (String a (s1 +:+ t)) in Heq.
    change ("" +:+ t) with t in Heq. cbn [String.length] in Heq.
    rewrite string_app_length in Heq. lia.
  - change (String a (s1 +:+ t) = String b (s2 +:+ t)) in Heq.
    injection Heq as -> Heq. f_equal. by apply IH.
Qed.

(** [createNewSegment] gives different counters different file names. *)
Lemma fileName_inj (a b : Z) : SegmentManager.fileName a = SegmentManager.fileName b → a = b.
Proof.
  unfold SegmentManager.fileName. intros Heq.
  apply (inj (String.app _)) in Heq. apply string_app_inj_r in Heq.
  by apply (inj pretty) in Heq.
Qed.

Lemma child_inj (dir a b : string) : Files.child dir a = Files.child dir b → a = b.
Proof.
  unfold Files.child. intros Heq.
  apply (inj (String.app _)) in Heq. by apply (inj (String.app _)) in Heq.
Qed.

Lemma stripPrefix_app (p s : string) : Files.stripPrefix p (p +:+ s) = Some s.
Proof.
  induction p as [|a p IH]; [by destruct s|].
  change (String a p +:+ s) with (String a (p +:+ s)).
  cbn [Files.stripPrefix]. by rewrite Ascii.eqb_refl.
Qed.

Lemma afterLast_Some (c : Ascii.ascii) (s x : string) : Files.afterLast c s (Some x) ≠ None.
Proof.
  revert x. induction s as [|a s IH]; intros x; cbn [Files.afterLast]; [done|].
  destruct (Ascii.eqb a c); apply IH.
Qed.

(** A part without [c] in front does not change what follows the last [c]. *)
Lemma afterLast_app_clean (c : Ascii.ascii) (s1 s2 : string) (found : option string) :
  Files.afterLast c s1 None = None →
  Files.afterLast c (s1 +:+ s2) found = Files.afterLast c s2 found.
Proof.
  revert found. induction s1 as [|a s1 IH]; intros found Hclean; [done|].
  change (String a s1 +:+ s2) with (String a (s1 +:+ s2)).
  cbn [Files.afterLast] in *. destruct (Ascii.eqb a c).
  - by apply afterLast_Some in Hclean.
  - by apply IH.
Qed.

Lemma afterLast_app_hit (c : Ascii.ascii) (s1 s2 : string) (found : option string) :
  Files.afterLast c (s1 +:+ String c s2) found = Files.afterLast c s2 (Some s2).
Proof.
  revert found. induction s1 as [|a s1 IH]; intros found.
  - change ("" +:+ String c s2) with (String c s2).
    cbn [Files.afterLast]. by rewrite Ascii.eqb_refl.
  - change (String a s1 +:+ String c s2) with (String a (s1 +:+ String c s2)).
    cbn [Files.afterLast]. apply IH.
Qed.

(** The digits of a number hold no character other than a digit. *)
Lemma pretty_N_go_clean (c : Ascii.ascii) (x : N) (s : string) :
  (∀ d, pretty_N_char d ≠ c) →
  Files.afterLast c s None = None →
  Files.afterLast c (pretty_N_go x s) None = None.
Proof.
  intros Hc. revert s. induction (N.lt_wf_0 x) as [x _ IH]; intros s Hs.
  assert (x = 0 ∨ 0 < x)%N as [->|Hpos] by lia.
  - by rewrite pretty_N_go_0.
  - rewrite pretty_N_go_step by done. apply IH.
    + by apply N.div_lt.
    + cbn [Files.afterLast].
      destruct (Ascii.eqb_spec (pretty_N_char (x `mod` 10)) c) as [Heq|_]; [|done].
      by apply Hc in Heq.
Qed.

Lemma pretty_Z_clean (c : Ascii.ascii) (n : Z) :
  (∀ d, pretty_N_char d ≠ c) → c ≠ "-"%char →
  Files.afterLast c (pretty n) None = None.
Proof.
  intros Hc Hdash.
  assert (Hpos : ∀ p : positive, Files.afterLast c (pretty p) None = None).
  { intros p. unfold pretty, pretty_positive, pretty, pretty_N.
    rewrite decide_False by done. by apply pretty_N_go_clean. }
  assert (H0 : Files.afterLast c "0" None = None).
  { cbn [Files.afterLast].
    destruct (Ascii.eqb_spec "0" c) as [Heq|_]; [|done]. by apply (Hc 0%N) in Heq. }
  destruct n as [|p|p]; [done|apply Hpos|].
  change (pretty (Z.neg p)) with ("-" +:+ pretty p).
  change ("-" +:+ pretty p) with (String "-" (pretty p)).
  cbn [Files.afterLast].
  destruct (Ascii.eqb_spec "-" c) as [Heq|_]; [by destruct Hdash|apply Hpos].
Qed.

Lemma digit_not_slash (d : N) : pretty_N_char d ≠ "/"%char.
Proof. unfold pretty_N_char. by repeat case_match. Qed.

(** A segment's file name has no directory part, starts with the prefix and
    has the extension [mp4]. *)
Lemma fileName_shape (n : Z) :
  Files.afterLast "/" (SegmentManager.fileName n) None = None
  ∧ String.prefix SegmentManager.SEGMENT_PREFIX (SegmentManager.fileName n) = true
  ∧ Files.extension (SegmentManager.fileName n) = "mp4".
Proof.
  unfold SegmentManager.fileName. split_and!.
  - unfold SegmentManager.SEGMENT_PREFIX. rewrite afterLast_app_clean by done.
    rewrite afterLast_app_clean; [done|].
    apply pretty_Z_clean; [apply digit_not_slash|done].
  - apply String.prefix_correct.
    generalize (pretty n +:+ SegmentManager.SEGMENT_EXTENSION). intros s.
    unfold SegmentManager.SEGMENT_PREFIX.
    change (String.length "segment_") with 8%nat.
    change ("segment_" +:+ s) with
      (String "s" (String "e" (String "g" (String "m" (String "e" (String "n"
         (String "t" (String "_" s)))))))).
    cbn [String.substring]. by destruct s.
  - unfold Files.extension, SegmentManager.SEGMENT_EXTENSION.
    rewrite <- string_app_assoc.
    change ".mp4" with (String "." "mp4"). by rewrite afterLast_app_hit.
Qed.

(** ** The window of the Segment Store *)

(** X1. The window duration [setBufferDuration] stores is read back by
    [getBufferDurationSeconds] for every [Int] number of seconds, negative
    ones included; storing it tracks and deletes nothing. *)
Theorem bufferDuration_round_trip (d : Z) (sm : SegmentManager.t) :
  Kt.isInt d →
  SegmentManager.getBufferDurationSeconds (SegmentManager.setBufferDuration d sm) = d
  ∧ SegmentManager.segments (SegmentManager.setBufferDuration d sm)
    = SegmentManager.segments sm
  ∧ SegmentManager.segmentCounter (SegmentManager.setBufferDuration d sm)
    = SegmentManager.segmentCounter sm.
Proof.
  intros Hd. split; [|done]. unfold SegmentManager.getBufferDurationSeconds.
  rewrite bufferDurationMs_set by done. unfold Kt.ldiv.
  rewrite Z.quot_mul by lia.
  rewrite toLong_id by by apply isInt_isLong. by apply toInt_id.
Qed.

Lemma bufferDuration_round_trip_witness :
  SegmentManager.getBufferDurationSeconds
    (SegmentManager.setBufferDuration (-3) (SegmentManager.new "/cache")) = -3
  ∧ SegmentManager.segments (SegmentManager.setBufferDuration (-3) (SegmentManager.new "/cache"))
    = SegmentManager.segments (SegmentManager.new "/cache")
  ∧ SegmentManager.segmentCounter
      (SegmentManager.setBufferDuration (-3) (SegmentManager.new "/cache"))
    = SegmentManager.segmentCounter (SegmentManager.new "/cache").
Proof.
  apply (bufferDuration_round_trip (-3) (SegmentManager.new "/cache")).
  unfold_ranges. lia.
Defined.

(** The limit of a negative window. *)
Lemma maxSegments_negative d sm :
  -1073741824 <= d <= -2 →
  SegmentManager.maxSegments (SegmentManager.setBufferDuration d sm) = 2 * d + 2.
Proof.
  intros Hd. unfold SegmentManager.maxSegments, Kt.iadd, Kt.ldiv.
  rewrite bufferDurationMs_set by (unfold_ranges; lia).
  unfold SegmentManager.SEGMENT_DURATION_MS.
  replace (d * 1000) with ((2 * d) * 500) by lia. rewrite Z.quot_mul by lia.
  rewrite (toLong_id (2 * d)) by (unfold_ranges; lia).
  rewrite (toInt_id (2 * d)) by (unfold_ranges; lia).
  apply toInt_id. unfold_ranges. lia.
Qed.

Lemma createNewSegment_negative_window d fuel now sm fs :
  -1073741824 <= d <= -2 →
  SegmentManager.createNewSegment fuel now (SegmentManager.setBufferDuration d sm) fs = None.
Proof.
  intros Hd. pose proof (maxSegments_negative d sm Hd) as Hmax.
  unfold SegmentManager.createNewSegment, SegmentManager.trimBuffer.
  rewrite trimLoop_diverges; [done|].
  change (SegmentManager.maxSegments _)
    with (SegmentManager.maxSegments (SegmentManager.setBufferDuration d sm)).
  revert Hmax. generalize (SegmentManager.maxSegments (SegmentManager.setBufferDuration d sm)).
  intros m ->. lia.
Qed.

(** ** Reading the newest segments *)

Lemma preCaptureWalk_take (fs : Fs) (neededMs : Z) (l : list SegmentManager.SegmentInfo)
    (result : list File) (total : Z) :
  ∃ k, SegmentManager.preCaptureWalk fs neededMs l result total
       = (SegmentManager.file
            <$> filter (λ it, SegmentManager.readable fs it = true) (reverse (take k l)))
         ++ result.
Proof.
  revert result total.
  induction l as [|s older IH]; intros result total; cbn [SegmentManager.preCaptureWalk].
  - by exists 0%nat.
  - destruct (SegmentManager.readable fs s) eqn:Hr.
    + destruct (_ >=? _).
      * exists 1%nat. cbn [take]. rewrite take_0, reverse_singleton, filter_cons.
        rewrite decide_True by done. by rewrite filter_nil.
      * destruct (IH (SegmentManager.file s :: result)
                    (Kt.ladd total (SegmentManager.durationMs s))) as [k ->].
        exists (S k). cbn [take]. rewrite reverse_cons, filter_app, fmap_app, filter_cons.
        rewrite decide_True by done. rewrite filter_nil, <- app_assoc. done.
    + destruct (IH result total) as [k ->].
      exists (S k). cbn [take]. rewrite reverse_cons, filter_app, filter_cons.
      rewrite decide_False by (by rewrite Hr). by rewrite filter_nil, app_nil_r.
Qed.

(** X2. Whatever the requested duration and the state of the files,
    [getPreCaptureSegments] returns a suffix of what [getAllSegments]
    returns: the newest readable segments, oldest first, none left out in
    between. *)
Theorem getPreCaptureSegments_suffix (neededMs : Z) (sm : SegmentManager.t) (fs : Fs) :
  SegmentManager.getPreCaptureSegments neededMs sm fs
    `suffix_of` SegmentManager.getAllSegments sm fs.
Proof.
  unfold SegmentManager.getPreCaptureSegments.
  destruct (preCaptureWalk_take fs neededMs (reverse (SegmentManager.segments sm)) [] 0)
    as [k ->].
  rewrite app_nil_r, getAllSegments_filter, reverse_take, reverse_involutive.
  set (j := (length (reverse (SegmentManager.segments sm)) - k)%nat).
  exists (SegmentManager.file
            <$> filter (λ it, SegmentManager.readable fs it = true)
                  (take j (SegmentManager.segments sm))).
  by rewrite <- fmap_app, <- filter_app, take_drop.
Qed.

Lemma preCaptureWalk_count (fs : Fs) (neededMs : Z) (l : list SegmentManager.SegmentInfo)
    (result : list File) (j : Z) :
  Forall (λ it, SegmentManager.durationMs it = 500) l →
  0 <= j → j = 0 ∨ 500 * j < neededMs →
  500 * (j + Z.of_nat (length l)) <= Kt.Long_MAX_VALUE →
  SegmentManager.preCaptureWalk fs neededMs l result (500 * j)
  = (SegmentManager.file
       <$> reverse (take (Z.to_nat (Z.max 1 (Spec.ceilDiv neededMs 500) - j))
                      (filter (λ it, SegmentManager.readable fs it = true) l)))
    ++ result.
Proof.
  intros Hdur. revert result j.
  pose proof (Z.mul_div_le (neededMs + 500 - 1) 500 ltac:(lia)) as Hq1.
  pose proof (Z.mul_succ_div_gt (neededMs + 500 - 1) 500 ltac:(lia)) as Hq2.
  fold (Spec.ceilDiv neededMs 500) in Hq1, Hq2.
  revert Hq1 Hq2. generalize (Spec.ceilDiv neededMs 500). intros q Hq1 Hq2.
  induction Hdur as [|s older Hs Hdur IH]; intros result j Hj Hinv Hfit.
  - cbn [SegmentManager.preCaptureWalk]. by rewrite filter_nil, take_nil.
  - cbn [SegmentManager.preCaptureWalk]. cbn [length] in Hfit. rewrite filter_cons.
    destruct (SegmentManager.readable fs s) eqn:Hr.
    + rewrite decide_True by done.
      assert (Hadd : Kt.ladd (500 * j) (SegmentManager.durationMs s) = 500 * (j + 1)).
      { rewrite Hs. unfold Kt.ladd. rewrite toLong_id; [lia|]. unfold_ranges. lia. }
      rewrite Hadd.
      destruct (500 * (j + 1) >=? neededMs) eqn:Hge.
      * apply Z.geb_le in Hge.
        replace (Z.to_nat (Z.max 1 q - j)) with 1%nat by lia.
        cbn [take]. by rewrite take_0, reverse_singleton.
      * rewrite Z.geb_leb in Hge. apply Z.leb_gt in Hge.
        rewrite IH by lia.
        replace (Z.to_nat (Z.max 1 q - j)) with (S (Z.to_nat (Z.max 1 q - (j + 1)))) by lia.
        cbn [take]. by rewrite reverse_cons, fmap_app, <- app_assoc.
    + rewrite decide_False by done. apply IH; lia.
Qed.

(** X3. In a store whose segments have the nominal duration,
    [getPreCaptureSegments] returns exactly the newest
    [max 1 (ceil (neededMs / 500))] readable segments, oldest first, and
    all the readable segments when there are fewer; a request for no footage
    at all ([neededMs <= 0]) still returns the newest readable segment. *)
Theorem getPreCaptureSegments_newest (neededMs : Z) (sm : SegmentManager.t) (fs : Fs) :
  StoreRun.named sm →
  Z.of_nat (length (SegmentManager.segments sm)) <= Kt.Int_MAX_VALUE →
  let all := SegmentManager.getAllSegments sm fs in
  let want :=
    Z.to_nat (Z.max 1 (Spec.ceilDiv neededMs SegmentManager.SEGMENT_DURATION_MS)) in
  SegmentManager.getPreCaptureSegments neededMs sm fs = drop (length all - want) all.
Proof.
  intros Hnamed Hlen all want. subst all want.
  unfold SegmentManager.getPreCaptureSegments, SegmentManager.SEGMENT_DURATION_MS.
  pose proof (preCaptureWalk_count fs neededMs (reverse (SegmentManager.segments sm)) [] 0)
    as Hwalk.
  change (500 * 0) with 0 in Hwalk. rewrite Hwalk; clear Hwalk.
  - rewrite app_nil_r, Z.sub_0_r, getAllSegments_filter, filter_reverse, reverse_take.
    by rewrite reverse_involutive, length_reverse, fmap_drop, length_fmap.
  - apply Forall_reverse. eapply Forall_impl; [exact Hnamed|]. by intros it [_ ?].
  - done.
  - by left.
  - rewrite length_reverse. unfold_ranges. lia.
Qed.

Lemma getPreCaptureSegments_newest_witness :
  let st := default (SegmentManager.new "/cache", ∅)
              (StoreRun.run 3
                 [StoreRun.Create 0;
                  StoreRun.WriteFile "/cache/video_buffer/segment_0.mp4" ["a"]%byte;
                  StoreRun.Create 500;
                  StoreRun.WriteFile "/cache/video_buffer/segment_1.mp4" ["b"]%byte;
                  StoreRun.Create 1000;
                  StoreRun.Create 1500;
                  StoreRun.WriteFile "/cache/video_buffer/segment_3.mp4" ["d"]%byte]
                 (SegmentManager.new "/cache", ∅)) in
  let all := SegmentManager.getAllSegments st.1 st.2 in
  let want := Z.to_nat (Z.max 1 (Spec.ceilDiv 700 SegmentManager.SEGMENT_DURATION_MS)) in
  SegmentManager.getPreCaptureSegments 700 st.1 st.2 = drop (length all - want) all.
Proof.
  intros st.
  apply (getPreCaptureSegments_newest 700 st.1 st.2).
  - vm_compute. repeat constructor.
  - vm_compute. discriminate.
Defined.

Example getPreCaptureSegments_two_newest :
  (λ st, SegmentManager.getPreCaptureSegments 700 st.1 st.2)
    <$> StoreRun.run 3
          [StoreRun.Create 0;
           StoreRun.WriteFile "/cache/video_buffer/segment_0.mp4" ["a"]%byte;
           StoreRun.Create 500;
           StoreRun.WriteFile "/cache/video_buffer/segment_1.mp4" ["b"]%byte;
           StoreRun.Create 1000;
           StoreRun.Create 1500;
           StoreRun.WriteFile "/cache/video_buffer/segment_3.mp4" ["d"]%byte]
          (SegmentManager.new "/cache", ∅)
  = Some ["/cache/video_buffer/segment_1.mp4"; "/cache/video_buffer/segment_3.mp4"].
Proof. vm_compute. reflexivity. Qed.

(** ** Clearing and cleaning up *)

(** X4. [clearBuffer] deletes the files of the tracked segments and no
    other file, forgets every segment and restarts the counter: whatever
    happens to the files afterwards nothing is frozen, and the next segment
    is created under the name of the first one, [segment_0.mp4]. *)
Theorem clearBuffer_exact (sm : SegmentManager.t) (fs : Fs) :
  let sm' := (SegmentManager.clearBuffer sm fs).1 in
  let fs' := (SegmentManager.clearBuffer sm fs).2 in
  (∀ f, fs' !! f
        = if bool_decide (f ∈ SegmentManager.file <$> SegmentManager.segments sm)
          then None else fs !! f)
  ∧ (∀ later : Fs, SegmentManager.freezeBuffer sm' later = [])
  ∧ SegmentManager.bufferDurationMs sm' = SegmentManager.bufferDurationMs sm
  ∧ (∀ fuel now f sm2 fs2,
       SegmentManager.createNewSegment fuel now sm' fs' = Some (f, sm2, fs2) →
       f = Files.child (SegmentManager.segmentDir sm) "segment_0.mp4").
Proof.
  intros sm' fs'. subst sm' fs'. split_and!.
  - intros f. unfold SegmentManager.clearBuffer. cbn [snd]. apply clear_fold_lookup.
  - done.
  - done.
  - intros fuel now f sm2 fs2 Hc.
    apply createNewSegment_Some in Hc as (_ & _ & _ & -> & _). done.
Qed.

Lemma orphan_tracked (sm : SegmentManager.t) (it : SegmentManager.SegmentInfo) :
  it ∈ SegmentManager.segments sm →
  SegmentManager.orphan sm (SegmentManager.file it) = false.
Proof.
  intros Hin. unfold SegmentManager.orphan.
  destruct (Files.stripPrefix _ _) as [name|]; [|done].
  assert (Hex : existsb (λ it', String.eqb (SegmentManager.file it') (SegmentManager.file it))
                  (SegmentManager.segments sm) = true).
  { apply existsb_exists. exists it. split; [by apply list_elem_of_In|apply String.eqb_refl]. }
  rewrite Hex. cbn [negb]. apply andb_false_r.
Qed.

Lemma cleanupOrphanFiles_lookup (sm : SegmentManager.t) (fs : Fs) (f : File) :
  SegmentManager.cleanupOrphanFiles sm fs !! f
  = if SegmentManager.orphan sm f then None else fs !! f.
Proof.
  unfold SegmentManager.cleanupOrphanFiles. rewrite map_lookup_filter.
  destruct (fs !! f) as [bytes|]; cbn [mbind option_bind fst].
  - destruct (SegmentManager.orphan sm f) eqn:Ho.
    + by rewrite option_guard_False.
    + by rewrite option_guard_True.
  - by destruct (SegmentManager.orphan sm f).
Qed.

(** X5. [cleanupOrphanFiles] creates and changes no file, and it keeps
    every file of a tracked segment and every file outside the segment
    directory. *)
Theorem cleanupOrphanFiles_keeps (sm : SegmentManager.t) (fs : Fs) (f : File) :
  f ∈ SegmentManager.file <$> SegmentManager.segments sm
  ∨ Files.stripPrefix (SegmentManager.segmentDir sm +:+ "/") f = None →
  SegmentManager.cleanupOrphanFiles sm fs !! f = fs !! f
  ∧ SegmentManager.cleanupOrphanFiles sm fs ⊆ fs.
Proof.
  intros Hf. split; [|apply map_filter_subseteq].
  rewrite cleanupOrphanFiles_lookup.
  destruct Hf as [(it & -> & Hin)%list_elem_of_fmap|Hout].
  - by rewrite orphan_tracked.
  - unfold SegmentManager.orphan. by rewrite Hout.
Qed.

Lemma cleanupOrphanFiles_keeps_witness :
  let st := default (SegmentManager.new "/cache", ∅)
              (StoreRun.run 3
                 [StoreRun.Create 0;
                  StoreRun.WriteFile "/cache/video_buffer/segment_0.mp4" ["a"]%byte]
                 (SegmentManager.new "/cache", ∅)) in
  SegmentManager.cleanupOrphanFiles st.1 st.2 !! "/cache/video_buffer/segment_0.mp4"
  = st.2 !! "/cache/video_buffer/segment_0.mp4"
  ∧ SegmentManager.cleanupOrphanFiles st.1 st.2 ⊆ st.2.
Proof.
  intros st.
  apply (cleanupOrphanFiles_keeps st.1 st.2 "/cache/video_buffer/segment_0.mp4").
  left. assert (Hfiles : SegmentManager.file <$> SegmentManager.segments st.1
                         = ["/cache/video_buffer/segment_0.mp4"]) by (vm_compute; reflexivity).
  rewrite Hfiles. apply list_elem_of_here.
Defined.

Lemma orphan_leftover (sm : SegmentManager.t) (n : Z) :
  let leftover := Files.child (SegmentManager.segmentDir sm) (SegmentManager.fileName n) in
  leftover ∉ SegmentManager.file <$> SegmentManager.segments sm →
  SegmentManager.orphan sm leftover = true.
Proof.
  intros leftover Hnot. unfold SegmentManager.orphan.
  assert (Hstrip : Files.stripPrefix (SegmentManager.segmentDir sm +:+ "/") leftover
                   = Some (SegmentManager.fileName n)).
  { unfold leftover, Files.child. rewrite <- string_app_assoc. apply stripPrefix_app. }
  rewrite Hstrip. destruct (fileName_shape n) as (Hflat & Hprefix & Hext).
  rewrite Hflat, Hprefix, Hext. rewrite bool_decide_eq_true_2 by done.
  rewrite String.eqb_refl. cbn [andb].
  destruct (existsb _ _) eqn:Hex; [|done].
  apply existsb_exists in Hex as (it & Hin%list_elem_of_In & Heq%String.eqb_eq).
  destruct Hnot. rewrite <- Heq. by apply list_elem_of_fmap_2.
Qed.

(** X6. A file of the segment directory that has the name of a segment,
    [segment_<n>.mp4], and is not the file of a tracked segment is deleted
    by [cleanupOrphanFiles]; with a fresh store, which tracks nothing, every
    such leftover goes. *)
Theorem cleanupOrphanFiles_removes (sm : SegmentManager.t) (fs : Fs) (n : Z) :
  let leftover := Files.child (SegmentManager.segmentDir sm) (SegmentManager.fileName n) in
  leftover ∉ SegmentManager.file <$> SegmentManager.segments sm →
  SegmentManager.cleanupOrphanFiles sm fs !! leftover = None.
Proof.
  intros leftover Hnot. rewrite cleanupOrphanFiles_lookup.
  pose proof (orphan_leftover sm n Hnot) as Ho. cbv zeta in Ho. subst leftover.
  by rewrite Ho.
Qed.

Lemma cleanupOrphanFiles_removes_witness :
  SegmentManager.cleanupOrphanFiles (SegmentManager.new "/cache")
    {[ "/cache/video_buffer/segment_17.mp4" := ["a"]%byte ]}
    !! Files.child (SegmentManager.segmentDir (SegmentManager.new "/cache"))
         (SegmentManager.fileName 17)
  = None.
Proof.
  apply (cleanupOrphanFiles_removes (SegmentManager.new "/cache")
           {[ "/cache/video_buffer/segment_17.mp4" := ["a"]%byte ]} 17).
  cbn [SegmentManager.new SegmentManager.segments fmap list_fmap]. apply not_elem_of_nil.
Defined.

(** ** The names of the tracked files *)

Lemma createNewSegment_named fuel now sm fs f sm' fs' :
  StoreRun.named sm →
  SegmentManager.createNewSegment fuel now sm fs = Some (f, sm', fs') →
  StoreRun.named sm'.
Proof.
  intros Hn Hc.
  apply createNewSegment_Some in Hc as (_ & Hdir & _ & Hf & _ & k & Hsegs).
  unfold StoreRun.named, SegmentManager.segmentDir in *. rewrite Hsegs, Hdir.
  apply Forall_drop, Forall_app_2; [exact Hn|].
  constructor; [|constructor]. cbn [SegmentManager.file SegmentManager.index
    SegmentManager.durationMs]. split; [|done]. by subst f.
Qed.

Lemma step_named fuel op sm fs sm' fs' :
  StoreRun.named sm → StoreRun.step fuel (sm, fs) op = Some (sm', fs') → StoreRun.named sm'.
Proof.
  intros Hn. destruct op; cbn [StoreRun.step fst snd].
  - destruct (SegmentManager.createNewSegment _ _ _ _) as [[[f sm1] fs1]|] eqn:Hc; [|done].
    intros [= <- <-]. by eapply createNewSegment_named.
  - intros [= <- <-]. exact Hn.
  - intros [= <- <-]. constructor.
  - by intros [= <- <-].
  - by intros [= <- <-].
  - by intros [= <- <-].
Qed.

Lemma run_named fuel ops sm fs sm' fs' :
  StoreRun.named sm → StoreRun.run fuel ops (sm, fs) = Some (sm', fs') → StoreRun.named sm'.
Proof.
  revert sm fs. induction ops as [|op ops IH]; intros sm fs Hn; cbn [StoreRun.run].
  - by intros [= <- <-].
  - destruct (StoreRun.step fuel (sm, fs) op) as [[sm1 fs1]|] eqn:Hstep; [|done].
    apply step_named in Hstep; [|done]. by apply IH.
Qed.

Lemma new_named cache : StoreRun.named (SegmentManager.new cache).
Proof. constructor. Qed.

(** Segments with different indices have different files. *)
Lemma named_file_index (dir : string) (a b : SegmentManager.SegmentInfo) :
  SegmentManager.file a = Files.child dir (SegmentManager.fileName (SegmentManager.index a)) →
  SegmentManager.file b = Files.child dir (SegmentManager.fileName (SegmentManager.index b)) →
  SegmentManager.file a = SegmentManager.file b →
  SegmentManager.index a = SegmentManager.index b.
Proof.
  intros -> -> Heq. apply child_inj in Heq. by apply fileName_inj.
Qed.

Lemma sorted_named_NoDup (dir : string) (segs : list SegmentManager.SegmentInfo) :
  StronglySorted StoreRun.older segs →
  Forall (λ it, SegmentManager.file it
                = Files.child dir (SegmentManager.fileName (SegmentManager.index it))) segs →
  NoDup (SegmentManager.file <$> segs).
Proof.
  induction 1 as [|x l Hl IH Hx]; intros Hn; [constructor|].
  apply Forall_cons in Hn as [Hnx Hnl]. rewrite fmap_cons. constructor; [|by apply IH].
  intros (y & Heq & Hy)%list_elem_of_fmap.
  eapply Forall_forall in Hx; [|exact Hy]. eapply Forall_forall in Hnl; [|exact Hy].
  pose proof (named_file_index dir x y Hnx Hnl Heq). unfold StoreRun.older in Hx. lia.
Qed.

Lemma ordered_named_NoDup (sm : SegmentManager.t) :
  StoreRun.ordered sm → StoreRun.named sm →
  NoDup (SegmentManager.file <$> SegmentManager.segments sm).
Proof.
  intros (Hsorted & _) Hn. apply (sorted_named_NoDup (SegmentManager.segmentDir sm)); [done|].
  eapply Forall_impl; [exact Hn|]. by intros it [? _].
Qed.

(** X7. In every state the store reaches from a fresh [SegmentManager]
    (fewer than [2^31] steps), no two tracked segments share a file: every
    tracked segment has the file [segment_<index>.mp4] of the segment
    directory and the nominal duration, and the indices are distinct. *)
Theorem tracked_files_distinct (cache : string) (fuel : nat) (ops : list StoreRun.Op)
    (fs0 : Fs) (sm : SegmentManager.t) (fs : Fs) :
  Z.of_nat (length ops) <= Kt.Int_MAX_VALUE →
  StoreRun.run fuel ops (SegmentManager.new cache, fs0) = Some (sm, fs) →
  NoDup (SegmentManager.file <$> SegmentManager.segments sm)
  ∧ StoreRun.named sm
  ∧ SegmentManager.segmentDir sm = Files.child cache "video_buffer".
Proof.
  intros Hlen Hrun.
  assert (Hord : StoreRun.ordered sm).
  { eapply run_ordered; [apply new_ordered| |exact Hrun]. cbn. lia. }
  pose proof (run_named _ _ _ _ _ _ (new_named cache) Hrun) as Hn.
  split_and!; [by apply ordered_named_NoDup|done|].
  clear Hord Hn Hlen. unfold SegmentManager.segmentDir.
  assert (Hdir : ∀ ops sm0 fs0 sm fs,
            StoreRun.run fuel ops (sm0, fs0) = Some (sm, fs) →
            SegmentManager.cacheDir sm = SegmentManager.cacheDir sm0).
  { clear. intros ops. induction ops as [|op ops IH]; intros sm0 fs0 sm fs; cbn [StoreRun.run].
    - by intros [= <- <-].
    - destruct (StoreRun.step fuel (sm0, fs0) op) as [[sm1 fs1]|] eqn:Hstep; [|done].
      intros Hrun. rewrite (IH _ _ _ _ Hrun). clear Hrun IH.
      destruct op; cbn [StoreRun.step fst snd] in Hstep; try by injection Hstep as <- <-.
      destruct (SegmentManager.createNewSegment _ _ _ _) as [[[f sm2] fs2]|] eqn:Hc; [|done].
      injection Hstep as <- <-.
      by apply createNewSegment_Some in Hc as (_ & -> & _). }
  by rewrite (Hdir _ _ _ _ _ Hrun).
Qed.

Lemma tracked_files_distinct_witness :
  let ops := [StoreRun.Create 0; StoreRun.Create 500; StoreRun.Clear;
              StoreRun.Create 1000; StoreRun.Create 1500] in
  let st := default (SegmentManager.new "/cache", ∅)
              (StoreRun.run 3 ops (SegmentManager.new "/cache", ∅)) in
  NoDup (SegmentManager.file <$> SegmentManager.segments st.1)
  ∧ StoreRun.named st.1
  ∧ SegmentManager.segmentDir st.1 = Files.child "/cache" "video_buffer".
Proof.
  intros ops st.
  apply (tracked_files_distinct "/cache" 3 ops ∅ st.1 st.2).
  - unfold Kt.Int_MAX_VALUE. cbn. lia.
  - vm_compute. reflexivity.
Defined.

(** ** What creating a segment does to the files *)

(** The loop of [trimBuffer] deletes the files of the segments it drops, and
    it drops no more than it has to. *)
Lemma trimLoop_deleted fuel maxSegs segs fs segs' fs' :
  SegmentManager.trimLoop fuel maxSegs segs fs = Some (segs', fs') →
  ∃ k, segs' = drop k segs
       ∧ fs' = foldl (λ acc segment,
                        if Files.exists_ (SegmentManager.file segment) acc
                        then Files.delete (SegmentManager.file segment) acc else acc)
                 fs (take k segs)
       ∧ (k = 0%nat ∨ maxSegs <= Z.of_nat (length segs')).
Proof.
  revert segs fs. induction fuel as [|fuel IH]; intros segs fs; cbn [SegmentManager.trimLoop].
  - destruct (Z.gtb_spec (SegmentManager.size segs) maxSegs); [done|].
    intros [= <- <-]. exists 0%nat. split_and!; [done|done|by left].
  - destruct (Z.gtb_spec (SegmentManager.size segs) maxSegs) as [Hgt|].
    + destruct segs as [|oldest rest]; cbn [SegmentManager.pollFirst].
      * intros Hrun. apply IH in Hrun as (k & -> & -> & _). exists 0%nat.
        rewrite drop_nil, take_nil. split_and!; [done|done|by left].
      * intros Hrun. apply IH in Hrun as (k & -> & -> & Hmin). exists (S k).
        split_and!; [done|done|]. right.
        destruct Hmin as [->|Hmin]; [|done].
        rewrite drop_0. pose proof (size_le (oldest :: rest)) as Hle.
        cbn [length] in Hle. revert Hgt Hle.
        generalize (SegmentManager.size (oldest :: rest)). intros n Hgt Hle. lia.
    + intros [= <- <-]. exists 0%nat. split_and!; [done|done|by left].
Qed.

Lemma createNewSegment_files (fuel : nat) (now : Z) (sm : SegmentManager.t) (fs : Fs)
    (f : File) (sm' : SegmentManager.t) (fs' : Fs) :
  StoreRun.ordered sm → StoreRun.named sm →
  1 <= SegmentManager.maxSegments sm →
  SegmentManager.createNewSegment fuel now sm fs = Some (f, sm', fs') →
  (∃ it, last (SegmentManager.segments sm') = Some it
         ∧ SegmentManager.file it = f
         ∧ SegmentManager.index it = SegmentManager.segmentCounter sm)
  ∧ (∀ it, it ∈ SegmentManager.segments sm' →
           fs' !! SegmentManager.file it = fs !! SegmentManager.file it)
  ∧ (∀ it, it ∈ SegmentManager.segments sm → it ∉ SegmentManager.segments sm' →
           fs' !! SegmentManager.file it = None)
  ∧ (∀ p, p ∉ SegmentManager.file <$> SegmentManager.segments sm → fs' !! p = fs !! p).
Proof.
  intros (Hsorted & Hbelow & _) Hnamed Hmax.
  unfold SegmentManager.createNewSegment, SegmentManager.trimBuffer.
  cbn [SegmentManager.segments SegmentManager.bufferDurationMs SegmentManager.cacheDir
       SegmentManager.segmentCounter].
  match goal with |- context [SegmentManager.trimLoop ?a ?b ?c ?d] =>
    change b with (SegmentManager.maxSegments sm);
    destruct (SegmentManager.trimLoop a (SegmentManager.maxSegments sm) c d)
      as [[segs fs1]|] eqn:Htrim end; [|done].
  intros [= <- <- <-]. cbn [SegmentManager.segments].
  apply trimLoop_deleted in Htrim as (k & -> & -> & Hmin).
  set (new := {| SegmentManager.file :=
                   Files.child (SegmentManager.segmentDir sm)
                     (SegmentManager.fileName (SegmentManager.segmentCounter sm));
                 SegmentManager.startTimeMs := now;
                 SegmentManager.durationMs := SegmentManager.SEGMENT_DURATION_MS;
                 SegmentManager.index := SegmentManager.segmentCounter sm |}) in *.
  set (L := SegmentManager.segments sm ++ [new]) in *.
  assert (HND : NoDup (SegmentManager.file <$> L)).
  { apply (sorted_named_NoDup (SegmentManager.segmentDir sm)).
    - apply StronglySorted_app_2; [|done|repeat constructor].
      intros a b Ha ->%list_elem_of_singleton. unfold StoreRun.older. cbn.
      by eapply Forall_forall in Hbelow.
    - apply Forall_app_2; [|by repeat constructor].
      eapply Forall_impl; [exact Hnamed|]. by intros it [? _]. }
  assert (HL : length L = S (length (SegmentManager.segments sm))).
  { unfold L. rewrite length_app. cbn [length]. lia. }
  assert (Hkeep : drop k L ≠ []).
  { intros Hnil. apply (f_equal length) in Hnil. rewrite length_drop in Hnil.
    cbn [length] in Hnil. destruct Hmin as [->|Hmin]; [lia|].
    rewrite length_drop in Hmin. lia. }
  assert (Hk : (k ≤ length (SegmentManager.segments sm))%nat).
  { destruct (decide (k ≤ length (SegmentManager.segments sm))%nat); [done|].
    destruct Hkeep. apply drop_ge. lia. }
  assert (Hfs : ∀ p, foldl (λ acc segment,
                        if Files.exists_ (SegmentManager.file segment) acc
                        then Files.delete (SegmentManager.file segment) acc else acc)
                      fs (take k L) !! p
                     = if bool_decide (p ∈ SegmentManager.file <$> take k L)
                       then None else fs !! p) by (intros p; apply clear_fold_lookup).
  rewrite <- (take_drop k L), fmap_app in HND. apply NoDup_app in HND as (_ & Hdisj & _).
  split_and!.
  - exists new. split_and!; [|done|done].
    pose proof (last_snoc new (SegmentManager.segments sm)) as Hlast. fold L in Hlast.
    rewrite <- (take_drop k L), last_app in Hlast.
    destruct (last (drop k L)) as [y|] eqn:Hy; [done|]. by apply last_None in Hy.
  - intros it Hin. rewrite Hfs, bool_decide_eq_false_2; [done|].
    intros Htake. apply (Hdisj _ Htake). by apply list_elem_of_fmap_2.
  - intros it Hin Hout. rewrite Hfs, bool_decide_eq_true_2; [done|].
    apply list_elem_of_fmap_2.
    assert (HinL : it ∈ take k L ++ drop k L).
    { rewrite take_drop. apply elem_of_app. by left. }
    apply elem_of_app in HinL as [?|?]; done.
  - intros p Hp. rewrite Hfs, bool_decide_eq_false_2; [done|].
    unfold L. rewrite take_app_le by done. intros Htake. apply Hp.
    rewrite <- (take_drop k (SegmentManager.segments sm)), fmap_app.
    apply elem_of_app. by left.
Qed.

(** X8. In a store that names its files after the indices,
    [createNewSegment] with a limit of at least one segment returns the file
    of the segment it has just put last, deletes the files of the segments
    it evicts and touches no other file: the files of the segments it keeps
    and every file that was not tracked are as before. *)
Theorem createNewSegment_frame (fuel : nat) (now : Z) (sm : SegmentManager.t) (fs : Fs)
    (f : File) (sm' : SegmentManager.t) (fs' : Fs) :
  StoreRun.ordered sm → StoreRun.named sm →
  1 <= SegmentManager.maxSegments sm →
  SegmentManager.createNewSegment fuel now sm fs = Some (f, sm', fs') →
  (∃ it, last (SegmentManager.segments sm') = Some it
         ∧ SegmentManager.file it = f
         ∧ SegmentManager.index it = SegmentManager.segmentCounter sm)
  ∧ (∀ it, it ∈ SegmentManager.segments sm' →
           fs' !! SegmentManager.file it = fs !! SegmentManager.file it)
  ∧ (∀ it, it ∈ SegmentManager.segments sm → it ∉ SegmentManager.segments sm' →
           fs' !! SegmentManager.file it = None)
  ∧ (∀ p, p ∉ SegmentManager.file <$> SegmentManager.segments sm → fs' !! p = fs !! p).
Proof. apply createNewSegment_files. Qed.

Lemma createNewSegment_frame_witness :
  let st := default (SegmentManager.new "/cache", ∅)
              (StoreRun.run 3
                 [StoreRun.SetBufferDuration 0;
                  StoreRun.Create 0;
                  StoreRun.WriteFile "/cache/video_buffer/segment_0.mp4" ["a"]%byte;
                  StoreRun.Create 500;
                  StoreRun.WriteFile "/cache/video_buffer/segment_1.mp4" ["b"]%byte]
                 (SegmentManager.new "/cache", ∅)) in
  let out := default ("", st.1, st.2) (SegmentManager.createNewSegment 3 1000 st.1 st.2) in
  (∃ it, last (SegmentManager.segments out.1.2) = Some it
         ∧ SegmentManager.file it = out.1.1
         ∧ SegmentManager.index it = SegmentManager.segmentCounter st.1)
  ∧ (∀ it, it ∈ SegmentManager.segments out.1.2 →
           out.2 !! SegmentManager.file it = st.2 !! SegmentManager.file it)
  ∧ (∀ it, it ∈ SegmentManager.segments st.1 → it ∉ SegmentManager.segments out.1.2 →
           out.2 !! SegmentManager.file it = None)
  ∧ (∀ p, p ∉ SegmentManager.file <$> SegmentManager.segments st.1 → out.2 !! p = st.2 !! p).
Proof.
  intros st out.
  apply (createNewSegment_frame 3 1000 st.1 st.2 out.1.1 out.1.2 out.2).
  - split_and!.
    + vm_compute. repeat constructor.
    + vm_compute. repeat constructor.
    + vm_compute. discriminate.
  - vm_compute. repeat constructor.
  - vm_compute. discriminate.
  - vm_compute. reflexivity.
Defined.

(** With a window of zero seconds the store keeps two segments: the third
    one evicts the first and deletes its file. *)
Example createNewSegment_evicts_oldest :
  (λ st, (SegmentManager.index <$> SegmentManager.segments st.1, dom st.2))
    <$> StoreRun.run 3
          [StoreRun.SetBufferDuration 0;
           StoreRun.Create 0;
           StoreRun.WriteFile "/cache/video_buffer/segment_0.mp4" ["a"]%byte;
           StoreRun.Create 500;
           StoreRun.WriteFile "/cache/video_buffer/segment_1.mp4" ["b"]%byte;
           StoreRun.Create 1000]
          (SegmentManager.new "/cache", ∅)
  = Some ([1; 2], {[ "/cache/video_buffer/segment_1.mp4" ]}).
Proof. vm_compute. reflexivity. Qed.

(** ** The status the store reports *)

Lemma totalDuration_nominal (segs : list SegmentManager.SegmentInfo) (a : Z) :
  Forall (λ it, SegmentManager.durationMs it = 500) segs →
  0 <= a → a + 500 * Z.of_nat (length segs) <= Kt.Long_MAX_VALUE →
  foldl (λ acc it, Kt.ladd acc (SegmentManager.durationMs it)) a segs
  = a + 500 * Z.of_nat (length segs).
Proof.
  intros Hdur. revert a. induction Hdur as [|s segs Hs _ IH]; intros a Ha Hfit.
  - cbn. lia.
  - cbn [foldl length] in *. rewrite Hs. unfold Kt.ladd at 2.
    rewrite toLong_id by (unfold_ranges; lia). rewrite IH by lia. lia.
Qed.

(** X9. The status counts every tracked segment with its nominal duration,
    recorded or not: the total duration is 500 ms times the segment count,
    which is never less than the number of segments [freezeBuffer] returns. *)
Theorem getBufferStatus_nominal (sm : SegmentManager.t) (fs : Fs) :
  StoreRun.named sm →
  Z.of_nat (length (SegmentManager.segments sm)) <= Kt.Int_MAX_VALUE →
  let status := SegmentManager.getBufferStatus sm fs in
  SegmentManager.segmentCount status = Z.of_nat (length (SegmentManager.segments sm))
  ∧ SegmentManager.totalDurationMs status
    = SegmentManager.SEGMENT_DURATION_MS * SegmentManager.segmentCount status
  ∧ SegmentManager.bufferCapacityMs status = SegmentManager.bufferDurationMs sm
  ∧ Z.of_nat (length (SegmentManager.freezeBuffer sm fs))
    <= SegmentManager.segmentCount status.
Proof.
  intros Hnamed Hlen status. subst status.
  unfold SegmentManager.getBufferStatus.
  cbn [SegmentManager.segmentCount SegmentManager.totalDurationMs
       SegmentManager.bufferCapacityMs].
  rewrite toInt_id by (unfold_ranges; lia).
  split_and!; [done| |done|].
  - rewrite totalDuration_nominal; [done| |done|unfold_ranges; lia].
    eapply Forall_impl; [exact Hnamed|]. by intros it [_ ?].
  - unfold SegmentManager.freezeBuffer. rewrite getAllSegments_filter, length_fmap.
    pose proof (length_filter (λ it, SegmentManager.readable fs it = true)
                  (SegmentManager.segments sm)). lia.
Qed.

Lemma getBufferStatus_nominal_witness :
  let st := default (SegmentManager.new "/cache", ∅)
              (StoreRun.run 3
                 [StoreRun.Create 0;
                  StoreRun.WriteFile "/cache/video_buffer/segment_0.mp4" ["a"]%byte;
                  StoreRun.Create 500]
                 (SegmentManager.new "/cache", ∅)) in
  let status := SegmentManager.getBufferStatus st.1 st.2 in
  SegmentManager.segmentCount status = Z.of_nat (length (SegmentManager.segments st.1))
  ∧ SegmentManager.totalDurationMs status
    = SegmentManager.SEGMENT_DURATION_MS * SegmentManager.segmentCount status
  ∧ SegmentManager.bufferCapacityMs status = SegmentManager.bufferDurationMs st.1
  ∧ Z.of_nat (length (SegmentManager.freezeBuffer st.1 st.2))
    <= SegmentManager.segmentCount status.
Proof.
  intros st.
  apply (getBufferStatus_nominal st.1 st.2).
  - vm_compute. repeat constructor.
  - vm_compute. discriminate.
Defined.

(** ** Configuration of the session *)

Lemma segmentManager_setClipDuration (T : Z) (r : Recorder.t) :
  Recorder.segmentManager (Recorder.setClipDuration T r)
  = SegmentManager.setBufferDuration (Kt.idiv T 2) (Recorder.segmentManager r).
Proof. reflexivity. Qed.

(** X10. A total clip duration of [-4] seconds or less gives the Segment
    Store a negative limit: the next iteration of the segment loop does not
    come back from [trimBuffer], whatever the fuel, so a running loop never
    ends. [setClipDuration] itself accepts the value. *)
Theorem negative_clip_duration_hangs `{Media.Platform} (T : Z) (fuel : nat)
    (env : Recorder.FinalizeEnv) (it : Recorder.Iteration) (rest : list Recorder.Iteration)
    (r : Recorder.t) (w : VideoMuxer.World) :
  Kt.Int_MIN_VALUE <= T <= -4 →
  Recorder.preBufferSeconds (Recorder.setClipDuration T r) = Z.quot T 2
  ∧ Recorder.loopBody fuel it (Recorder.setClipDuration T r) w = None
  ∧ (Recorder.loopCond r = true →
     Recorder.segmentLoop fuel env (it :: rest) (Recorder.setClipDuration T r) w = None).
Proof.
  intros HT. unfold_ranges.
  pose proof (Z.quot_rem' T 2) as Hqr.
  pose proof (Z.rem_bound_pos_neg T 2 ltac:(lia) ltac:(lia)) as Hrem.
  assert (Hq : Kt.idiv T 2 = Z.quot T 2).
  { unfold Kt.idiv. apply toInt_id. unfold_ranges. lia. }
  assert (Hbody : Recorder.loopBody fuel it (Recorder.setClipDuration T r) w = None).
  { unfold Recorder.loopBody.
    rewrite segmentManager_setClipDuration, Hq, createNewSegment_negative_window; [done|lia]. }
  split_and!; [exact Hq|exact Hbody|].
  intros Hcond. cbn [Recorder.segmentLoop].
  change (Recorder.loopCond (Recorder.setClipDuration T r)) with (Recorder.loopCond r).
  by rewrite Hcond, Hbody.
Qed.

Lemma negative_clip_duration_hangs_witness :
  let env := {| Recorder.stamp := "20240101_120000";
                Recorder.sink := {| VideoMuxer.sdkAtLeastQ := true;
                                    VideoMuxer.insertResult := None;
                                    VideoMuxer.opensOutputStream := true |};
                Recorder.fault := None |} in
  let it := {| Recorder.now := 0; Recorder.started := true;
               Recorder.recorded := Some []; Recorder.during := [] |} in
  let w := {| VideoMuxer.fs := ∅; VideoMuxer.mediaStore := ∅ |} in
  let r := (Recorder.startBuffering true (Recorder.new Recorder.UseCases "/cache") w).1 in
  Recorder.preBufferSeconds (Recorder.setClipDuration (-4) r) = Z.quot (-4) 2
  ∧ Recorder.loopBody 5 it (Recorder.setClipDuration (-4) r) w = None
  ∧ (Recorder.loopCond r = true →
     @Recorder.segmentLoop Toy.platform 5 env [it] (Recorder.setClipDuration (-4) r) w = None).
Proof.
  intros env it w r.
  apply (@negative_clip_duration_hangs Toy.platform (-4) 5 env it [] r w).
  unfold_ranges. lia.
Defined.

Lemma wordChar_sanitized (c : Ascii.ascii) :
  Recorder.wordChar (if Recorder.wordChar c then c else "_"%char) = true.
Proof. destruct (Recorder.wordChar c) eqn:Hc; [exact Hc|reflexivity]. Qed.

(** X11. The user name the session keeps consists of letters, digits and
    underscores only, has as many characters as the name given, and is the
    name given when that one is already clean; sanitising twice changes
    nothing more. *)
Theorem setUsername_sanitized (username : string) (r : Recorder.t) :
  let name := Recorder.currentUsername (Recorder.setUsername username r) in
  Forall (λ c, Recorder.wordChar c = true) (list_ascii_of_string name)
  ∧ String.length name = String.length username
  ∧ Recorder.setUsername name (Recorder.setUsername username r)
    = Recorder.setUsername username r
  ∧ (Forall (λ c, Recorder.wordChar c = true) (list_ascii_of_string username) →
     name = username).
Proof.
  intros name. subst name.
  change (Recorder.currentUsername (Recorder.setUsername username r))
    with (Recorder.sanitize username).
  assert (Hidem : ∀ s, Recorder.sanitize (Recorder.sanitize s) = Recorder.sanitize s).
  { induction s as [|c s IH]; [done|]. cbn [Recorder.sanitize].
    rewrite wordChar_sanitized. by rewrite IH. }
  split_and!.
  - induction username as [|c s IH]; [constructor|].
    cbn [Recorder.sanitize list_ascii_of_string]. constructor; [apply wordChar_sanitized|done].
  - induction username as [|c s IH]; [done|]. cbn [Recorder.sanitize String.length].
    by rewrite IH.
  - unfold Recorder.setUsername. rewrite Hidem. by destruct r.
  - induction username as [|c s IH]; [done|]. cbn [Recorder.sanitize list_ascii_of_string].
    intros [Hc Hs]%Forall_cons. rewrite Hc. by rewrite IH.
Qed.

Example setUsername_example :
  Recorder.currentUsername
    (Recorder.setUsername "j.doe@example.com/../x" (Recorder.new Recorder.UseCases "/cache"))
  = "j_doe_example_com____x".
Proof. vm_compute. reflexivity. Qed.

(** ** Starting, stopping and starting again *)

(** X12. [startBuffering] on an idle session with the permissions granted
    goes to [BUFFERING], announces the state and the buffer, leaves the
    store and the files of its segments alone and deletes every leftover
    [segment_<n>.mp4] of the segment directory that the store does not
    track; a second call in a row does nothing. *)
Theorem startBuffering_removes_leftovers (r : Recorder.t) (w : VideoMuxer.World)
    (permitted : bool) :
  Recorder.state r = Recorder.IDLE →
  let r1 := (Recorder.startBuffering true r w).1 in
  let w1 := (Recorder.startBuffering true r w).2 in
  let sm := Recorder.segmentManager r in
  Recorder.state r1 = Recorder.BUFFERING
  ∧ Recorder.emitted r1
    = Recorder.emitted r ++ [Recorder.StateChanged Recorder.BUFFERING; Recorder.BufferReady]
  ∧ Recorder.segmentManager r1 = sm
  ∧ VideoMuxer.mediaStore w1 = VideoMuxer.mediaStore w
  ∧ (∀ it, it ∈ SegmentManager.segments sm →
           VideoMuxer.fs w1 !! SegmentManager.file it
           = VideoMuxer.fs w !! SegmentManager.file it)
  ∧ (∀ n, Files.child (SegmentManager.segmentDir sm) (SegmentManager.fileName n)
            ∉ SegmentManager.file <$> SegmentManager.segments sm →
          VideoMuxer.fs w1
            !! Files.child (SegmentManager.segmentDir sm) (SegmentManager.fileName n) = None)
  ∧ Recorder.startBuffering permitted r1 w1 = (r1, w1).
Proof.
  destruct r as [v st ita cr cb sm tl es sa pre post un ja ps pos em], w as [fs ms].
  cbn [Recorder.state]. intros ->.
  unfold Recorder.startBuffering. recorder_simpl.
  rewrite (bool_decide_eq_true_2 (Recorder.IDLE = Recorder.IDLE)) by done.
  cbn [negb]. recorder_simpl.
  rewrite (bool_decide_eq_false_2 (Recorder.BUFFERING = Recorder.IDLE)) by done.
  cbn [negb]. split_and!; try reflexivity.
  - by rewrite <- app_assoc.
  - intros it Hin. rewrite cleanupOrphanFiles_lookup. by rewrite orphan_tracked.
  - intros n Hnot. rewrite cleanupOrphanFiles_lookup.
    pose proof (orphan_leftover sm n Hnot) as Ho. cbv zeta in Ho. by rewrite Ho.
Qed.

Lemma startBuffering_removes_leftovers_witness :
  let r := Recorder.new Recorder.UseCases "/cache" in
  let w := {| VideoMuxer.fs := {[ "/cache/video_buffer/segment_3.mp4" := ["a"]%byte ]};
              VideoMuxer.mediaStore := ∅ |} in
  let r1 := (Recorder.startBuffering true r w).1 in
  let w1 := (Recorder.startBuffering true r w).2 in
  let sm := Recorder.segmentManager r in
  Recorder.state r1 = Recorder.BUFFERING
  ∧ Recorder.emitted r1
    = Recorder.emitted r ++ [Recorder.StateChanged Recorder.BUFFERING; Recorder.BufferReady]
  ∧ Recorder.segmentManager r1 = sm
  ∧ VideoMuxer.mediaStore w1 = VideoMuxer.mediaStore w
  ∧ (∀ it, it ∈ SegmentManager.segments sm →
           VideoMuxer.fs w1 !! SegmentManager.file it
           = VideoMuxer.fs w !! SegmentManager.file it)
  ∧ (∀ n, Files.child (SegmentManager.segmentDir sm) (SegmentManager.fileName n)
            ∉ SegmentManager.file <$> SegmentManager.segments sm →
          VideoMuxer.fs w1
            !! Files.child (SegmentManager.segmentDir sm) (SegmentManager.fileName n) = None)
  ∧ Recorder.startBuffering false r1 w1 = (r1, w1).
Proof.
  intros r w.
  apply (startBuffering_removes_leftovers r w false). reflexivity.
Defined.

(** A loop whose job is not active does nothing. *)
Lemma segmentLoop_inactive `{Media.Platform} fuel env its r w :
  Recorder.jobActive r = false → Recorder.segmentLoop fuel env its r w = Some (r, w).
Proof.
  intros Hjob.
  assert (Hcond : Recorder.loopCond r = false) by (unfold Recorder.loopCond; by rewrite Hjob).
  assert (Hafter : Recorder.afterLoop env r w = (r, w)).
  { unfold Recorder.afterLoop. by rewrite Hjob, andb_false_r. }
  destruct its; cbn [Recorder.segmentLoop]; by rewrite Hcond, Hafter.
Qed.

(** X13. [stopCamera] cancels the recording scope for good: a
    [startBuffering] after it reports [BUFFERING] and a ready buffer, but the
    loop it launches is cancelled from the start and records nothing; a
    trigger then takes the session to [CAPTURING_POST], where it stays,
    because the cancelled loop never reaches [finalizeCapture]. *)
Theorem restart_after_stop_is_dead `{Media.Platform} (fuel : nat) (env : Recorder.FinalizeEnv)
    (its : list Recorder.Iteration) (r : Recorder.t) (w : VideoMuxer.World)
    (nowPressed nowStarted : Z) :
  let stopped := Recorder.stopCamera r w in
  let restarted := Recorder.startBuffering true stopped.1 stopped.2 in
  let triggered := Recorder.triggerCapture nowPressed nowStarted restarted.1 restarted.2 in
  Recorder.state restarted.1 = Recorder.BUFFERING
  ∧ last (Recorder.emitted restarted.1) = Some Recorder.BufferReady
  ∧ Recorder.segmentLoop fuel env its restarted.1 restarted.2 = Some restarted
  ∧ Recorder.state triggered = Recorder.CAPTURING_POST
  ∧ Recorder.segmentLoop fuel env its triggered restarted.2 = Some (triggered, restarted.2).
Proof.
  destruct r as [v st ita cr cb sm tl es sa pre post un ja ps pos em], w as [fs ms].
  intros stopped restarted triggered.
  assert (Hr : Recorder.state restarted.1 = Recorder.BUFFERING
               ∧ Recorder.jobActive restarted.1 = false
               ∧ last (Recorder.emitted restarted.1) = Some Recorder.BufferReady).
  { subst restarted stopped. unfold Recorder.stopCamera. recorder_simpl.
    unfold Recorder.startBuffering. recorder_simpl.
    rewrite (bool_decide_eq_true_2 (Recorder.IDLE = Recorder.IDLE)) by done.
    cbn [negb]. recorder_simpl. split_and!; [done|done|apply last_snoc]. }
  destruct Hr as (Hst & Hjob & Hlast).
  assert (Ht : Recorder.state triggered = Recorder.CAPTURING_POST
               ∧ Recorder.jobActive triggered = false).
  { subst triggered. revert Hst Hjob. generalize restarted.2. generalize restarted.1.
    intros r2 w2 Hst Hjob.
    destruct r2 as [v2 st2 ita2 cr2 cb2 sm2 tl2 es2 sa2 pre2 post2 un2 ja2 ps2 pos2 em2].
    cbn [Recorder.state Recorder.jobActive] in Hst, Hjob. subst st2 ja2.
    unfold Recorder.triggerCapture.
    rewrite (bool_decide_eq_true_2 (Recorder.state _ = Recorder.BUFFERING)) by done.
    cbn [negb]. recorder_simpl. done. }
  destruct Ht as (Hst3 & Hjob3).
  split_and!; [done|done| |done|].
  - rewrite segmentLoop_inactive by done. by destruct restarted.
  - by rewrite segmentLoop_inactive.
Qed.

(** ** The frozen segments during post-capture *)

Lemma applyCall_post (c : Recorder.Call) (r : Recorder.t) (w : VideoMuxer.World) :
  c ≠ Recorder.CallStop →
  Recorder.state r = Recorder.CAPTURING_POST →
  let rw := Recorder.applyCall (r, w) c in
  Recorder.state rw.1 = Recorder.CAPTURING_POST
  ∧ Recorder.preSegments rw.1 = Recorder.preSegments r
  ∧ Recorder.postSegments rw.1 = Recorder.postSegments r
  ∧ rw.2 = w.
Proof.
  intros Hc Hst.
  destruct r as [v st ita cr cb sm tl es sa pre post un ja ps pos em].
  cbn [Recorder.state] in Hst. subst st.
  destruct c as [n1 n2| |T]; [|done|]; cbn [Recorder.applyCall fst snd].
  - unfold Recorder.triggerCapture. rewrite bool_decide_eq_false_2 by done.
    cbn [negb]. recorder_simpl. done.
  - unfold Recorder.setClipDuration. recorder_simpl. done.
Qed.

Lemma calls_post (calls : list Recorder.Call) (r : Recorder.t) (w : VideoMuxer.World) :
  Forall (λ c, c ≠ Recorder.CallStop) calls →
  Recorder.state r = Recorder.CAPTURING_POST →
  let rw := foldl Recorder.applyCall (r, w) calls in
  Recorder.state rw.1 = Recorder.CAPTURING_POST
  ∧ Recorder.preSegments rw.1 = Recorder.preSegments r
  ∧ Recorder.postSegments rw.1 = Recorder.postSegments r
  ∧ rw.2 = w.
Proof.
  intros Hcalls. revert r w.
  induction Hcalls as [|c calls Hc _ IH]; intros r w Hst; [done|].
  cbn [foldl].
  destruct (applyCall_post c r w Hc Hst) as (H1 & H2 & H3 & H4).
  destruct (Recorder.applyCall (r, w) c) as [r1 w1]. cbn [fst snd] in *.
  destruct (IH r1 w1 H1) as (?&?&?&?).
  split_and!; congruence.
Qed.

(** One iteration of the loop during post-capture, as long as no
    [stopCamera] arrives. *)
Lemma loopBody_post (fuel : nat) (it : Recorder.Iteration) (r : Recorder.t)
    (w : VideoMuxer.World) (step : Recorder.LoopStep) :
  Recorder.state r = Recorder.CAPTURING_POST →
  Forall (λ c, c ≠ Recorder.CallStop) (Recorder.during it) →
  Recorder.loopBody fuel it r w = Some step →
  ∃ f sm1 fs1,
    SegmentManager.createNewSegment fuel (Recorder.now it) (Recorder.segmentManager r)
      (VideoMuxer.fs w) = Some (f, sm1, fs1)
    ∧ Recorder.state (Recorder.stepRecorder step) = Recorder.CAPTURING_POST
    ∧ Recorder.preSegments (Recorder.stepRecorder step) = Recorder.preSegments r
    ∧ Recorder.postSegments (Recorder.stepRecorder step) = Recorder.postSegments r ++ [f]
    ∧ VideoMuxer.fs (Recorder.stepWorld step)
      = match Recorder.recorded it with
        | Some bytes => <[f := bytes]> fs1
        | None => fs1
        end
    ∧ VideoMuxer.mediaStore (Recorder.stepWorld step) = VideoMuxer.mediaStore w.
Proof.
  intros Hst Hcalls. unfold Recorder.loopBody.
  destruct (SegmentManager.createNewSegment _ _ _ _) as [[[f sm1] fs1]|] eqn:Hc; [|done].
  intros Hbody. exists f, sm1, fs1. split; [done|]. revert Hbody.
  destruct r as [v st ita cr cb sm0 tl es sa pre post un ja ps pos em], w as [fs0 ms].
  cbn [Recorder.state] in Hst. subst st. unfold Recorder.recordSegment.
  cbv beta iota zeta delta [Recorder.set_segmentManager Recorder.set_currentRecording
    VideoMuxer.fs VideoMuxer.mediaStore Recorder.preSegments Recorder.postSegments].
  match goal with |- context [foldl Recorder.applyCall (?r2, ?w2) _] =>
    destruct (calls_post (Recorder.during it) r2 w2 Hcalls eq_refl)
      as (Hst3 & Hpre3 & Hpost3 & Hw3);
    destruct (foldl Recorder.applyCall (r2, w2) (Recorder.during it)) as [r3 w3]
  end.
  destruct r3 as [v3 st3 ita3 cr3 cb3 sm3 tl3 es3 sa3 pre3 post3 un3 ja3 ps3 pos3 em3].
  cbn [fst snd Recorder.state Recorder.preSegments Recorder.postSegments] in *.
  subst st3 ps3 pos3 w3.
  rewrite (bool_decide_eq_true_2 (Recorder.CAPTURING_POST = Recorder.CAPTURING_POST)) by done.
  destruct (_ >=? _); intros [= <-]; unfold Recorder.telemetryUpdate;
    cbn [Recorder.stepRecorder Recorder.stepWorld]; recorder_simpl; done.
Qed.

(** X14. Once frozen, the list of pre-segments does not change while the
    loop records the post-segments: an iteration during post-capture, with
    any calls but [stopCamera] arriving meanwhile, leaves [preSegments] as
    the trigger set it and adds the file it created to [postSegments]. *)
Theorem preSegments_frozen (fuel : nat) (it : Recorder.Iteration) (r : Recorder.t)
    (w : VideoMuxer.World) (step : Recorder.LoopStep) :
  Recorder.state r = Recorder.CAPTURING_POST →
  Forall (λ c, c ≠ Recorder.CallStop) (Recorder.during it) →
  Recorder.loopBody fuel it r w = Some step →
  Recorder.preSegments (Recorder.stepRecorder step) = Recorder.preSegments r
  ∧ Recorder.state (Recorder.stepRecorder step) = Recorder.CAPTURING_POST
  ∧ length (Recorder.postSegments (Recorder.stepRecorder step))
    = S (length (Recorder.postSegments r)).
Proof.
  intros Hst Hcalls Hbody.
  destruct (loopBody_post fuel it r w step Hst Hcalls Hbody)
    as (f & sm1 & fs1 & _ & Hst' & Hpre & Hpost & _).
  split_and!; [done|done|]. rewrite Hpost, length_app. cbn [length]. lia.
Qed.

(** The oldest segment of a full store is evicted by the next
    [createNewSegment], and its file deleted. *)
Lemma createNewSegment_evicts_full fuel now sm fs oldest rest f sm1 fs1 :
  StoreRun.ordered sm → StoreRun.named sm →
  SegmentManager.segments sm = oldest :: rest →
  1 <= SegmentManager.maxSegments sm <= Z.of_nat (length (SegmentManager.segments sm)) →
  Z.of_nat (length (SegmentManager.segments sm)) < Kt.Int_MAX_VALUE →
  SegmentManager.createNewSegment fuel now sm fs = Some (f, sm1, fs1) →
  fs1 !! SegmentManager.file oldest = None ∧ f ≠ SegmentManager.file oldest.
Proof.
  intros Hord Hnamed Hsegs Hmax Hlen Hc.
  pose proof Hord as (Hsorted & Hbelow & _).
  destruct (createNewSegment_files fuel now sm fs f sm1 fs1 Hord Hnamed ltac:(lia) Hc)
    as (_ & _ & Hevict & _).
  apply createNewSegment_Some in Hc as (_ & _ & _ & Hf & Hsize & k & Hdrop).
  rewrite Hsegs in Hsorted, Hbelow.
  apply StronglySorted_inv in Hsorted as [_ Holder].
  apply Forall_cons in Hbelow as [Hidx _].
  assert (Hnamed0 : SegmentManager.file oldest
                    = Files.child (SegmentManager.segmentDir sm)
                        (SegmentManager.fileName (SegmentManager.index oldest))).
  { unfold StoreRun.named in Hnamed. rewrite Hsegs in Hnamed.
    by apply Forall_cons in Hnamed as [[? _] _]. }
  split.
  - apply Hevict; [rewrite Hsegs; apply list_elem_of_here|].
    rewrite Hdrop. destruct k as [|k].
    + exfalso. rewrite drop_0 in Hdrop. rewrite Hdrop in Hsize.
      unfold SegmentManager.size in Hsize. rewrite length_app in Hsize.
      cbn [length] in Hsize. unfold Kt.Int_MAX_VALUE in *. lia.
    + rewrite Hsegs. cbn [app drop]. intros Hin.
      apply (subseteq_drop k) in Hin.
      apply elem_of_app in Hin as [Hin|Hin%list_elem_of_singleton].
      * eapply Forall_forall in Holder; [|exact Hin]. unfold StoreRun.older in Holder. lia.
      * rewrite Hin in Hidx. cbn in Hidx. lia.
  - rewrite Hf, Hnamed0. intros Heq. apply child_inj, fileName_inj in Heq. lia.
Qed.

(** X15. Freezing does not stop the eviction. When the store is full, an
    iteration of the loop during post-capture evicts the oldest tracked
    segment and deletes its file, also when the trigger has frozen that file
    as a pre-segment: the file stays in [preSegments] and is gone from the
    disk. *)
Theorem post_capture_evicts_frozen (fuel : nat) (it : Recorder.Iteration) (r : Recorder.t)
    (w : VideoMuxer.World) (oldest : SegmentManager.SegmentInfo)
    (rest : list SegmentManager.SegmentInfo) (step : Recorder.LoopStep) :
  Recorder.state r = Recorder.CAPTURING_POST →
  Forall (λ c, c ≠ Recorder.CallStop) (Recorder.during it) →
  StoreRun.ordered (Recorder.segmentManager r) →
  StoreRun.named (Recorder.segmentManager r) →
  SegmentManager.segments (Recorder.segmentManager r) = oldest :: rest →
  1 <= SegmentManager.maxSegments (Recorder.segmentManager r)
    <= Z.of_nat (length (SegmentManager.segments (Recorder.segmentManager r))) →
  Z.of_nat (length (SegmentManager.segments (Recorder.segmentManager r)))
    < Kt.Int_MAX_VALUE →
  SegmentManager.file oldest ∈ Recorder.preSegments r →
  Recorder.loopBody fuel it r w = Some step →
  SegmentManager.file oldest ∈ Recorder.preSegments (Recorder.stepRecorder step)
  ∧ VideoMuxer.fs (Recorder.stepWorld step) !! SegmentManager.file oldest = None.
Proof.
  intros Hst Hcalls Hord Hnamed Hsegs Hmax Hlen Hpre Hbody.
  destruct (loopBody_post fuel it r w step Hst Hcalls Hbody)
    as (f & sm1 & fs1 & Hc & _ & Hpre' & _ & Hfs & _).
  destruct (createNewSegment_evicts_full _ _ _ _ _ _ _ _ _ Hord Hnamed Hsegs Hmax Hlen Hc)
    as [Hgone Hne].
  rewrite Hpre', Hfs. split; [done|].
  destruct (Recorder.recorded it); [by rewrite lookup_insert_ne|done].
Qed.

Lemma preSegments_frozen_witness :
  let w0 := {| VideoMuxer.fs := ∅; VideoMuxer.mediaStore := ∅ |} in
  let r := Recorder.set_resources true true true false
             (Recorder.set_preSegments ["/cache/video_buffer/segment_7.mp4"]
                (Recorder.set_state Recorder.CAPTURING_POST
                   (Recorder.new Recorder.UseCases "/cache"))) in
  let it := {| Recorder.now := 1000; Recorder.started := true;
               Recorder.recorded := Some ["a"]%byte;
               Recorder.during := [Recorder.CallTrigger 1 2; Recorder.CallSetClipDuration 4] |} in
  let step := default (Recorder.Continue r w0) (Recorder.loopBody 3 it r w0) in
  Recorder.preSegments (Recorder.stepRecorder step) = Recorder.preSegments r
  ∧ Recorder.state (Recorder.stepRecorder step) = Recorder.CAPTURING_POST
  ∧ length (Recorder.postSegments (Recorder.stepRecorder step))
    = S (length (Recorder.postSegments r)).
Proof.
  intros w0 r it step.
  apply (preSegments_frozen 3 it r w0 step).
  - reflexivity.
  - repeat constructor; discriminate.
  - vm_compute. reflexivity.
Defined.

Lemma post_capture_evicts_frozen_witness :
  let w0 := {| VideoMuxer.fs := ∅; VideoMuxer.mediaStore := ∅ |} in
  let ok (n : Z) (b : byte) :=
    {| Recorder.now := n; Recorder.started := true;
       Recorder.recorded := Some [b]; Recorder.during := [] |} in
  let rw1 := Recorder.startBuffering true
               (Recorder.setClipDuration 0 (Recorder.new Recorder.UseCases "/cache")) w0 in
  let step1 := default (Recorder.Continue rw1.1 rw1.2)
                 (Recorder.loopBody 3 (ok 0 x00) rw1.1 rw1.2) in
  let step2 := default step1
                 (Recorder.loopBody 3 (ok 500 x01) (Recorder.stepRecorder step1)
                    (Recorder.stepWorld step1)) in
  let w := Recorder.stepWorld step2 in
  let r := Recorder.triggerCapture 1400 1401 (Recorder.stepRecorder step2) w in
  let step := default step2 (Recorder.loopBody 3 (ok 1000 x02) r w) in
  let oldest := {| SegmentManager.file := "/cache/video_buffer/segment_0.mp4";
                   SegmentManager.startTimeMs := 0;
                   SegmentManager.durationMs := 500;
                   SegmentManager.index := 0 |} in
  SegmentManager.file oldest ∈ Recorder.preSegments (Recorder.stepRecorder step)
  ∧ VideoMuxer.fs (Recorder.stepWorld step) !! SegmentManager.file oldest = None.
Proof.
  intros w0 ok rw1 step1 step2 w r step oldest.
  assert (Hpre : Recorder.preSegments r
                 = ["/cache/video_buffer/segment_0.mp4"; "/cache/video_buffer/segment_1.mp4"])
    by (vm_compute; reflexivity).
  apply (post_capture_evicts_frozen 3 (ok 1000 x02) r w oldest
           [{| SegmentManager.file := "/cache/video_buffer/segment_1.mp4";
               SegmentManager.startTimeMs := 500;
               SegmentManager.durationMs := 500;
               SegmentManager.index := 1 |}] step).
  - vm_compute. reflexivity.
  - constructor.
  - split_and!.
    + vm_compute. repeat constructor.
    + vm_compute. repeat constructor.
    + vm_compute. discriminate.
  - vm_compute. repeat constructor.
  - vm_compute. reflexivity.
  - vm_compute. split; discriminate.
  - vm_compute. reflexivity.
  - rewrite Hpre. apply list_elem_of_here.
  - vm_compute. reflexivity.
Defined.

(** A clip of three seconds: one second before and two after the trigger,
    so the store holds four segments. Four segments are buffered and the
    trigger arrives while the fourth is recorded; the three post-segments
    that follow evict the first three pre-segments, and the capture that is
    saved holds, of the second before the trigger, only the segment that was
    being recorded (twice: it is a post-segment too). *)
Example capture_loses_pre_segments :
  let env := {| Recorder.stamp := "20240101_120000";
                Recorder.sink := {| VideoMuxer.sdkAtLeastQ := true;
                                    VideoMuxer.insertResult := Some "content://media/1";
                                    VideoMuxer.opensOutputStream := true |};
                Recorder.fault := None |} in
  let ok (n : Z) (b : byte) (calls : list Recorder.Call) :=
    {| Recorder.now := n; Recorder.started := true;
       Recorder.recorded := Some [b]; Recorder.during := calls |} in
  let r0 := Recorder.setClipDuration 3 (Recorder.new Recorder.UseCases "/cache") in
  let w0 := {| VideoMuxer.fs := ∅; VideoMuxer.mediaStore := ∅ |} in
  let rw1 := Recorder.startBuffering true r0 w0 in
  (λ rw : Recorder.t * VideoMuxer.World,
     (Recorder.state rw.1,
      VideoMuxer.content <$> (VideoMuxer.mediaStore rw.2 !! "content://media/1")))
    <$> @Recorder.segmentLoop Toy.platform 2 env
          [ok 0 x00 []; ok 500 x01 []; ok 1000 x02 [];
           ok 1500 x03 [Recorder.CallTrigger 1900 1901];
           ok 2000 x04 []; ok 2500 x05 []; ok 3000 x06 []]
          rw1.1 rw1.2
  = Some (Recorder.IDLE, Some [x03; x03; x04; x05; x06]).
Proof. vm_compute. reflexivity. Qed.

(** ** A trigger while a segment is recorded *)

Lemma last_filter_keep {A} (P : A → Prop) `{∀ x, Decision (P x)} (l : list A) (x : A) :
  last l = Some x → P x → last (filter P l) = Some x.
Proof.
  intros [l' ->]%last_Some HP. rewrite filter_app, filter_cons, decide_True by done.
  rewrite filter_nil. apply last_snoc.
Qed.

(** X16. When the trigger arrives while a segment is being recorded and
    that segment's file already holds data, the segment is frozen as the
    last pre-segment and, the iteration ending in post-capture, counted as
    the first post-segment as well: the list handed to the concatenator
    holds it twice. *)
Theorem trigger_mid_segment_duplicated (fuel : nat) (it : Recorder.Iteration)
    (r : Recorder.t) (w : VideoMuxer.World) (nowPressed nowStarted : Z)
    (bytes : list byte) (f : File) (sm1 : SegmentManager.t) (fs1 : Fs) :
  Recorder.state r = Recorder.BUFFERING →
  Recorder.during it = [Recorder.CallTrigger nowPressed nowStarted] →
  Recorder.recorded it = Some bytes → bytes ≠ [] →
  StoreRun.ordered (Recorder.segmentManager r) →
  StoreRun.named (Recorder.segmentManager r) →
  1 <= SegmentManager.maxSegments (Recorder.segmentManager r) →
  SegmentManager.createNewSegment fuel (Recorder.now it) (Recorder.segmentManager r)
    (VideoMuxer.fs w) = Some (f, sm1, fs1) →
  ∃ step,
    Recorder.loopBody fuel it r w = Some step
    ∧ Recorder.state (Recorder.stepRecorder step) = Recorder.CAPTURING_POST
    ∧ last (Recorder.preSegments (Recorder.stepRecorder step)) = Some f
    ∧ Recorder.postSegments (Recorder.stepRecorder step) = [f].
Proof.
  intros Hst Hcalls Hrec Hne Hord Hnamed Hmax Hc.
  destruct (createNewSegment_files fuel _ _ _ f sm1 fs1 Hord Hnamed Hmax Hc)
    as ((new & Hlast & Hfile & _) & _).
  assert (Hfrozen : last (SegmentManager.freezeBuffer sm1 (<[f := bytes]> fs1)) = Some f).
  { unfold SegmentManager.freezeBuffer. rewrite getAllSegments_filter, fmap_last.
    rewrite (last_filter_keep _ _ new); [by rewrite <- Hfile|done|].
    apply readable_spec. exists bytes. by rewrite Hfile, lookup_insert_eq. }
  unfold Recorder.loopBody. rewrite Hc, Hcalls.
  destruct r as [v st ita cr cb sm0 tl es sa pre post un ja ps pos em], w as [fs0 ms].
  cbn [Recorder.state] in Hst. subst st. unfold Recorder.recordSegment. rewrite Hrec.
  cbn [foldl Recorder.applyCall fst snd]. unfold Recorder.triggerCapture.
  recorder_simpl.
  rewrite (bool_decide_eq_true_2 (Recorder.BUFFERING = Recorder.BUFFERING)) by done.
  cbn [negb]. recorder_simpl.
  rewrite (bool_decide_eq_true_2 (Recorder.CAPTURING_POST = Recorder.CAPTURING_POST)) by done.
  cbn [app].
  destruct (_ >=? _); eexists; (split; [reflexivity|]);
    unfold Recorder.telemetryUpdate; cbn [Recorder.stepRecorder]; recorder_simpl; done.
Qed.

Lemma trigger_mid_segment_duplicated_witness :
  let w := {| VideoMuxer.fs := ∅; VideoMuxer.mediaStore := ∅ |} in
  let r := (Recorder.startBuffering true (Recorder.new Recorder.UseCases "/cache") w).1 in
  let it := {| Recorder.now := 0; Recorder.started := true;
               Recorder.recorded := Some ["a"]%byte;
               Recorder.during := [Recorder.CallTrigger 400 401] |} in
  let created := default ("", Recorder.segmentManager r, ∅)
                   (SegmentManager.createNewSegment 2 (Recorder.now it)
                      (Recorder.segmentManager r) (VideoMuxer.fs w)) in
  ∃ step,
    Recorder.loopBody 2 it r w = Some step
    ∧ Recorder.state (Recorder.stepRecorder step) = Recorder.CAPTURING_POST
    ∧ last (Recorder.preSegments (Recorder.stepRecorder step)) = Some created.1.1
    ∧ Recorder.postSegments (Recorder.stepRecorder step) = [created.1.1].
Proof.
  intros w r it created.
  apply (trigger_mid_segment_duplicated 2 it r w 400 401 ["a"]%byte
           created.1.1 created.1.2 created.2).
  - reflexivity.
  - reflexivity.
  - reflexivity.
  - discriminate.
  - split_and!.
    + vm_compute. repeat constructor.
    + vm_compute. repeat constructor.
    + vm_compute. discriminate.
  - vm_compute. repeat constructor.
  - vm_compute. discriminate.
  - vm_compute. reflexivity.
Defined.

(** ** Latency telemetry *)

Lemma lsub_clock (a b : Z) :
  0 <= a <= Kt.Long_MAX_VALUE → 0 <= b <= Kt.Long_MAX_VALUE → Kt.lsub a b = a - b.
Proof. intros Ha Hb. unfold Kt.lsub. apply toLong_id. unfold_ranges. lia. Qed.

(** X17. After an accepted trigger the latency metrics are those of that
    trigger: the trigger-to-recording latency is the difference of the two
    clock readings [triggerCapture] took, and at any later reading of the
    clock the total is the sum of the two parts. Before any trigger, and
    after [clearMetrics], the three are zero. *)
Theorem trigger_latency (nowPressed nowStarted now : Z) (r : Recorder.t)
    (w : VideoMuxer.World) :
  Recorder.state r = Recorder.BUFFERING →
  0 < nowPressed <= Kt.Long_MAX_VALUE →
  0 < nowStarted <= Kt.Long_MAX_VALUE →
  0 <= now <= Kt.Long_MAX_VALUE →
  let tl := Recorder.telemetry (Recorder.triggerCapture nowPressed nowStarted r w) in
  let m := Recorder.getLatencyMetrics now tl in
  Recorder.triggerToRecordingMs m = nowStarted - nowPressed
  ∧ Recorder.recordingToCompletionMs m = now - nowStarted
  ∧ Recorder.totalCaptureMs m
    = Recorder.triggerToRecordingMs m + Recorder.recordingToCompletionMs m
  ∧ Recorder.getLatencyMetrics now (Recorder.clearMetrics tl)
    = {| Recorder.triggerToRecordingMs := 0;
         Recorder.recordingToCompletionMs := 0;
         Recorder.totalCaptureMs := 0 |}
  ∧ Recorder.getLatencyMetrics now (Recorder.telemetry (Recorder.new (Recorder.variant r) ""))
    = {| Recorder.triggerToRecordingMs := 0;
         Recorder.recordingToCompletionMs := 0;
         Recorder.totalCaptureMs := 0 |}.
Proof.
  intros Hst Hp Hs Hn.
  destruct r as [v st ita cr cb sm tl es sa pre post un ja ps pos em].
  cbn [Recorder.state] in Hst. subst st. unfold Recorder.triggerCapture.
  rewrite (bool_decide_eq_true_2 (Recorder.state _ = Recorder.BUFFERING)) by done.
  cbn [negb]. recorder_simpl. unfold Recorder.getLatencyMetrics, Recorder.clearMetrics.
  cbn [Recorder.triggerToRecordingMs Recorder.recordingToCompletionMs
       Recorder.totalCaptureMs Recorder.triggerPressTime Recorder.recordingStartTime].
  assert (Hgp : (nowPressed >? 0) = true) by (apply Z.gtb_lt; lia).
  assert (Hgs : (nowStarted >? 0) = true) by (apply Z.gtb_lt; lia).
  rewrite Hgp, Hgs. cbn [andb].
  rewrite !lsub_clock by lia. split_and!; [done|done|lia|done|done].
Qed.

Lemma trigger_latency_witness :
  let w := {| VideoMuxer.fs := ∅; VideoMuxer.mediaStore := ∅ |} in
  let r := (Recorder.startBuffering true (Recorder.new Recorder.UseCases "/cache") w).1 in
  let tl := Recorder.telemetry (Recorder.triggerCapture 1000 1040 r w) in
  let m := Recorder.getLatencyMetrics 3500 tl in
  Recorder.triggerToRecordingMs m = 1040 - 1000
  ∧ Recorder.recordingToCompletionMs m = 3500 - 1040
  ∧ Recorder.totalCaptureMs m
    = Recorder.triggerToRecordingMs m + Recorder.recordingToCompletionMs m
  ∧ Recorder.getLatencyMetrics 3500 (Recorder.clearMetrics tl)
    = {| Recorder.triggerToRecordingMs := 0;
         Recorder.recordingToCompletionMs := 0;
         Recorder.totalCaptureMs := 0 |}
  ∧ Recorder.getLatencyMetrics 3500
      (Recorder.telemetry (Recorder.new (Recorder.variant r) ""))
    = {| Recorder.triggerToRecordingMs := 0;
         Recorder.recordingToCompletionMs := 0;
         Recorder.totalCaptureMs := 0 |}.
Proof.
  intros w r.
  apply (trigger_latency 1000 1040 3500 r w).
  - reflexivity.
  - unfold_ranges. lia.
  - unfold_ranges. lia.
  - unfold_ranges. lia.
Defined.

(** ** The length of the post-capture *)

(** One iteration during post-capture while no call arrives. *)
Lemma loopBody_quiet (fuel : nat) (it : Recorder.Iteration) (r : Recorder.t)
    (w : VideoMuxer.World) (f : File) (sm1 : SegmentManager.t) (fs1 : Fs) :
  Recorder.state r = Recorder.CAPTURING_POST →
  Recorder.during it = [] →
  Kt.isInt (Recorder.postBufferSeconds r) →
  Z.of_nat (length (Recorder.postSegments r)) < Kt.Int_MAX_VALUE →
  SegmentManager.createNewSegment fuel (Recorder.now it) (Recorder.segmentManager r)
    (VideoMuxer.fs w) = Some (f, sm1, fs1) →
  ∃ step,
    Recorder.loopBody fuel it r w = Some step
    ∧ Recorder.state (Recorder.stepRecorder step) = Recorder.CAPTURING_POST
    ∧ Recorder.jobActive (Recorder.stepRecorder step) = Recorder.jobActive r
    ∧ Recorder.scopeActive (Recorder.stepRecorder step) = Recorder.scopeActive r
    ∧ Recorder.variant (Recorder.stepRecorder step) = Recorder.variant r
    ∧ Recorder.postBufferSeconds (Recorder.stepRecorder step) = Recorder.postBufferSeconds r
    ∧ Recorder.segmentManager (Recorder.stepRecorder step) = sm1
    ∧ Recorder.postSegments (Recorder.stepRecorder step) = Recorder.postSegments r ++ [f]
    ∧ (Recorder.isBreak step = true
       ↔ Recorder.postBufferSeconds r * 1000
         <= (Z.of_nat (length (Recorder.postSegments r)) + 1)
            * Recorder.SEGMENT_DURATION_MS (Recorder.variant r)).
Proof.
  intros Hst Hcalls Hint Hlen Hc. unfold Recorder.loopBody. rewrite Hc, Hcalls.
  destruct r as [v st ita cr cb sm0 tl es sa pre post un ja ps pos em], w as [fs0 ms].
  cbn [Recorder.state Recorder.postBufferSeconds Recorder.postSegments] in *.
  subst st. unfold Recorder.recordSegment. cbn [foldl].
  recorder_simpl.
  rewrite (bool_decide_eq_true_2 (Recorder.CAPTURING_POST = Recorder.CAPTURING_POST)) by done.
  assert (Hcmp :
    (Kt.lmul (Kt.toInt (Z.of_nat (length (pos ++ [f]))))
       (Recorder.SEGMENT_DURATION_MS v) >=? Kt.lmul post 1000) = true
    ↔ post * 1000 <= (Z.of_nat (length pos) + 1) * Recorder.SEGMENT_DURATION_MS v).
  { rewrite length_app. cbn [length]. rewrite Nat2Z.inj_add. change (Z.of_nat 1) with 1.
    revert Hlen. generalize (Z.of_nat (length pos)) (Nat2Z.is_nonneg (length pos)).
    intros n Hn Hlen. unfold Kt.lmul.
    rewrite (toInt_id (n + 1)) by (unfold_ranges; lia).
    rewrite (toLong_id (post * 1000)) by (unfold_ranges; lia).
    destruct (SEGMENT_DURATION_MS_cases v) as [-> | ->].
    - rewrite toLong_id by (unfold_ranges; lia). rewrite Z.geb_le. lia.
    - rewrite toLong_id by (unfold_ranges; lia). rewrite Z.geb_le. lia. }
  destruct (_ >=? _) eqn:Hge.
  - eexists (Recorder.Break _ _). split; [reflexivity|].
    cbn [Recorder.stepRecorder Recorder.isBreak]. recorder_simpl.
    split_and!; try done; intros _; by apply Hcmp.
  - eexists (Recorder.Continue _ _). split; [reflexivity|].
    unfold Recorder.telemetryUpdate. cbn [Recorder.stepRecorder Recorder.isBreak].
    recorder_simpl. split_and!; try done; try (intros Hle; apply Hcmp in Hle; congruence).
Qed.

Section PostCapture.
Context `{Media.Platform}.
Variables (fuel : nat) (env : Recorder.FinalizeEnv) (v : Recorder.Variant) (post : Z).

(** The number of post-segments the loop records. *)
Variable N : Z.
Hypothesis N_def :
  N = Z.max 1 (Spec.ceilDiv (post * 1000) (Recorder.SEGMENT_DURATION_MS v)).

Lemma break_iff_count (n : Z) :
  0 <= n →
  post * 1000 <= (n + 1) * Recorder.SEGMENT_DURATION_MS v ↔ N <= n + 1.
Proof.
  intros Hn. revert N_def. unfold Spec.ceilDiv.
  destruct (SEGMENT_DURATION_MS_cases v) as [-> | ->]; intros ->.
  - pose proof (Z.mul_div_le (post * 1000 + 500 - 1) 500 ltac:(lia)).
    pose proof (Z.mul_succ_div_gt (post * 1000 + 500 - 1) 500 ltac:(lia)). lia.
  - pose proof (Z.mul_div_le (post * 1000 + 2000 - 1) 2000 ltac:(lia)).
    pose proof (Z.mul_succ_div_gt (post * 1000 + 2000 - 1) 2000 ltac:(lia)). lia.
Qed.

Lemma post_capture_loop (its : list Recorder.Iteration) (r : Recorder.t)
    (w : VideoMuxer.World) :
  Recorder.state r = Recorder.CAPTURING_POST →
  Recorder.jobActive r = true → Recorder.scopeActive r = true →
  Recorder.variant r = v → Recorder.postBufferSeconds r = post →
  Kt.isInt post → N <= Kt.Int_MAX_VALUE →
  Forall (λ it, Recorder.during it = []) its →
  0 <= SegmentManager.maxSegments (Recorder.segmentManager r) < Kt.Int_MAX_VALUE →
  1 <= Z.of_nat fuel →
  Z.of_nat (length (SegmentManager.segments (Recorder.segmentManager r))) + 1
    - SegmentManager.maxSegments (Recorder.segmentManager r) <= Z.of_nat fuel →
  Z.of_nat (length (Recorder.postSegments r)) < N →
  (Z.of_nat (length its) < N - Z.of_nat (length (Recorder.postSegments r)) →
   Recorder.segmentLoop fuel env its r w = None)
  ∧ (N - Z.of_nat (length (Recorder.postSegments r)) <= Z.of_nat (length its) →
     ∃ r' w', Recorder.segmentLoop fuel env its r w = Some (r', w')
              ∧ Recorder.state r' = Recorder.IDLE
              ∧ Recorder.segmentLoop fuel env
                  (take (Z.to_nat (N - Z.of_nat (length (Recorder.postSegments r)))) its)
                  r w
                = Some (r', w')).
Proof.
  intros Hst Hjob Hscope Hvar Hpost Hint HN Hquiet. revert r w Hst Hjob Hscope Hvar Hpost.
  induction Hquiet as [|it rest Hit Hquiet IH];
    intros r w Hst Hjob Hscope Hvar Hpost Hmax Hfuel Hlen Hn;
    assert (Hcond : Recorder.loopCond r = true)
      by (unfold Recorder.loopCond; rewrite Hjob, Hst; done).
  - cbn [Recorder.segmentLoop]. rewrite Hcond. split; [done|]. cbn [length]. lia.
  - destruct (createNewSegment_total fuel (Recorder.now it) (Recorder.segmentManager r)
                (VideoMuxer.fs w)) as [[[f sm1] fs1] Hc]; [lia|done|].
    destruct (loopBody_quiet fuel it r w f sm1 fs1 Hst Hit) as
      (step & Hbody & Hst' & Hjob' & Hscope' & Hvar' & Hpost' & Hsm' & Hpos' & Hbrk);
      [by rewrite Hpost|lia|done|].
    rewrite Hpost, Hvar, break_iff_count in Hbrk by lia.
    apply createNewSegment_Some in Hc as (Hms & _ & _ & _ & Hsize & _).
    apply maxSegments_ext in Hms. unfold SegmentManager.size in Hsize.
    cbn [Recorder.segmentLoop]. rewrite Hcond, Hbody.
    destruct step as [r1 w1|r1 w1]; cbn [Recorder.stepRecorder Recorder.isBreak] in *.
    + assert (Hmore : Z.of_nat (length (Recorder.postSegments r)) + 1 < N).
      { destruct (decide (N <= Z.of_nat (length (Recorder.postSegments r)) + 1)) as [Hle|];
          [|lia]. apply Hbrk in Hle. done. }
      assert (Hlen1 : Z.of_nat (length (Recorder.postSegments r1))
                      = Z.of_nat (length (Recorder.postSegments r)) + 1).
      { rewrite Hpos', length_app. cbn [length]. lia. }
      destruct (IH r1 w1) as [Hnone Hsome];
        [congruence..|by rewrite Hsm', Hms|done| |lia|].
      { rewrite Hsm', Hms. clear -Hsize Hmax Hfuel. revert Hsize Hmax.
        generalize (SegmentManager.maxSegments (Recorder.segmentManager r))
                   (Z.of_nat (length (SegmentManager.segments sm1))).
        unfold Kt.Int_MAX_VALUE. intros m l Hsize Hmax. lia. }
      rewrite Hlen1 in Hnone, Hsome. cbn [length]. split.
      * intros Hshort. apply Hnone. lia.
      * intros Hlong. destruct Hsome as (r' & w' & Hrun & Hidle & Htake); [lia|].
        exists r', w'. split_and!; [done|done|].
        replace (Z.to_nat (N - Z.of_nat (length (Recorder.postSegments r)))) with
          (S (Z.to_nat (N - (Z.of_nat (length (Recorder.postSegments r)) + 1))))
          by lia.
        cbn [take Recorder.segmentLoop]. by rewrite Hcond, Hbody.
    + assert (Hlast : N - Z.of_nat (length (Recorder.postSegments r)) = 1).
      { assert (N <= Z.of_nat (length (Recorder.postSegments r)) + 1) by by apply Hbrk.
        lia. }
      rewrite Hlast. cbn [length]. split; [lia|]. intros _.
      assert (Hafter : Recorder.afterLoop env r1 w1 = Recorder.finalizeCapture env r1 w1).
      { unfold Recorder.afterLoop. rewrite Hst', Hjob', Hjob.
        by rewrite bool_decide_eq_true_2. }
      destruct (finalizeCapture_state env r1 w1) as (Hidle & _); [congruence|].
      exists (Recorder.finalizeCapture env r1 w1).1, (Recorder.finalizeCapture env r1 w1).2.
      rewrite Hafter, <- surjective_pairing. split_and!; [done|done|].
      change (Z.to_nat 1) with 1%nat. cbn [take Recorder.segmentLoop].
      by rewrite take_0, Hcond, Hbody, Hafter.
Qed.

End PostCapture.

(** X18. From an accepted trigger on, while no call arrives, the loop
    records exactly [max 1 (ceil (postBufferSeconds * 1000 /
    SEGMENT_DURATION_MS))] post-segments: with fewer iterations it is still
    running, and with that many it has left, finalized the capture and put
    the session back to [IDLE], whatever each recording left behind; further
    iterations are not run. A post-window of zero seconds or less still
    records one segment. *)
Theorem post_capture_length `{Media.Platform} (fuel : nat) (env : Recorder.FinalizeEnv)
    (its : list Recorder.Iteration) (r : Recorder.t) (w : VideoMuxer.World) :
  Recorder.state r = Recorder.CAPTURING_POST →
  Recorder.jobActive r = true → Recorder.scopeActive r = true →
  Recorder.postSegments r = [] →
  Kt.Int_MIN_VALUE <= Recorder.postBufferSeconds r <= 1073741823 →
  Forall (λ it, Recorder.during it = []) its →
  0 <= SegmentManager.maxSegments (Recorder.segmentManager r) < Kt.Int_MAX_VALUE →
  1 <= Z.of_nat fuel →
  Z.of_nat (length (SegmentManager.segments (Recorder.segmentManager r))) + 1
    - SegmentManager.maxSegments (Recorder.segmentManager r) <= Z.of_nat fuel →
  let N := Z.max 1 (Spec.ceilDiv (Recorder.postBufferSeconds r * 1000)
                      (Recorder.SEGMENT_DURATION_MS (Recorder.variant r))) in
  (Z.of_nat (length its) < N → Recorder.segmentLoop fuel env its r w = None)
  ∧ (N <= Z.of_nat (length its) →
     ∃ r' w', Recorder.segmentLoop fuel env its r w = Some (r', w')
              ∧ Recorder.state r' = Recorder.IDLE
              ∧ Recorder.segmentLoop fuel env (take (Z.to_nat N) its) r w = Some (r', w')).
Proof.
  intros Hst Hjob Hscope Hpos Hpost Hquiet Hmax Hfuel Hlen N.
  assert (HN : N <= Kt.Int_MAX_VALUE).
  { subst N. unfold Spec.ceilDiv. unfold_ranges.
    destruct (SEGMENT_DURATION_MS_cases (Recorder.variant r)) as [-> | ->].
    - pose proof (Z.mul_div_le (Recorder.postBufferSeconds r * 1000 + 500 - 1) 500
                    ltac:(lia)). lia.
    - pose proof (Z.mul_div_le (Recorder.postBufferSeconds r * 1000 + 2000 - 1) 2000
                    ltac:(lia)). lia. }
  pose proof (post_capture_loop fuel env (Recorder.variant r) (Recorder.postBufferSeconds r)
                N eq_refl its r w Hst Hjob Hscope eq_refl eq_refl) as Hloop.
  rewrite Hpos in Hloop. cbn [length] in Hloop.
  rewrite Z.sub_0_r in Hloop. apply Hloop; try done.
  - unfold_ranges. lia.
  - subst N. lia.
Qed.

Lemma post_capture_length_witness :
  let env := {| Recorder.stamp := "20240101_120000";
                Recorder.sink := {| VideoMuxer.sdkAtLeastQ := true;
                                    VideoMuxer.insertResult := Some "content://media/1";
                                    VideoMuxer.opensOutputStream := true |};
                Recorder.fault := None |} in
  let quiet (n : Z) (b : byte) :=
    {| Recorder.now := n; Recorder.started := true;
       Recorder.recorded := Some [b]; Recorder.during := [] |} in
  let its := [quiet 0 x00; quiet 500 x01; quiet 1000 x02] in
  let w := {| VideoMuxer.fs := ∅; VideoMuxer.mediaStore := ∅ |} in
  let r := Recorder.triggerCapture 1 2
             (Recorder.startBuffering true
                (Recorder.setClipDuration 2 (Recorder.new Recorder.UseCases "/cache")) w).1 w in
  let N := Z.max 1 (Spec.ceilDiv (Recorder.postBufferSeconds r * 1000)
                      (Recorder.SEGMENT_DURATION_MS (Recorder.variant r))) in
  (Z.of_nat (length its) < N → @Recorder.segmentLoop Toy.platform 2 env its r w = None)
  ∧ (N <= Z.of_nat (length its) →
     ∃ r' w', @Recorder.segmentLoop Toy.platform 2 env its r w = Some (r', w')
              ∧ Recorder.state r' = Recorder.IDLE
              ∧ @Recorder.segmentLoop Toy.platform 2 env (take (Z.to_nat N) its) r w
                = Some (r', w')).
Proof.
  intros env quiet its w r.
  apply (@post_capture_length Toy.platform 2 env its r w).
  - reflexivity.
  - reflexivity.
  - reflexivity.
  - reflexivity.
  - vm_compute. split; discriminate.
  - repeat constructor.
  - vm_compute. split; [discriminate|reflexivity].
  - vm_compute. discriminate.
  - vm_compute. discriminate.
Defined.

(** ** The files and the media store around a concatenation *)

Lemma saveToMediaStore_fs env tempFile name w :
  VideoMuxer.fs (VideoMuxer.saveToMediaStore env tempFile name w).2 = VideoMuxer.fs w.
Proof.
  unfold VideoMuxer.saveToMediaStore.
  destruct (VideoMuxer.insertResult env); [|done].
  destruct (VideoMuxer.opensOutputStream env); [|done].
  by destruct (VideoMuxer.fs w !! tempFile).
Qed.

Lemma saveToMediaStore_refused env tempFile name w :
  VideoMuxer.insertResult env = None →
  VideoMuxer.saveToMediaStore env tempFile name w = (None, w).
Proof. unfold VideoMuxer.saveToMediaStore. by intros ->. Qed.

(** X19. Whatever the segments and the answers of the media store,
    [concatenateSegments] on a list that is not empty leaves no temporary
    output file behind and changes no other file: the input segments are as
    they were, whether the capture was saved or not. When the media store
    refuses the insertion nothing is stored and the result is null. *)
Theorem concatenateSegments_files `{Media.Platform} (cacheDir stamp : string)
    (env : VideoMuxer.SinkEnv) (segments : list File) (username : string)
    (w : VideoMuxer.World) :
  segments ≠ [] →
  let result := VideoMuxer.concatenateSegments cacheDir stamp env segments username w in
  let temp := VideoMuxer.tempOutputFile cacheDir stamp in
  VideoMuxer.fs result.2 !! temp = None
  ∧ (∀ f, f ≠ temp → VideoMuxer.fs result.2 !! f = VideoMuxer.fs w !! f)
  ∧ (VideoMuxer.insertResult env = None →
     result.1 = None ∧ VideoMuxer.mediaStore result.2 = VideoMuxer.mediaStore w).
Proof.
  intros Hne result temp. subst result.
  destruct segments as [|first others]; [done|]. clear Hne.
  unfold VideoMuxer.concatenateSegments. fold temp.
  set (copied := match others with
                 | [] => Files.copyTo first temp (VideoMuxer.fs w)
                 | _ :: _ => Some (VideoMuxer.concatenateWithMuxer (first :: others) temp
                                     (VideoMuxer.fs w))
                 end).
  assert (Hcopied : ∀ fs1, copied = Some fs1 →
            ∃ bytes, fs1 = <[temp := bytes]> (VideoMuxer.fs w)).
  { intros fs1. subst copied. destruct others.
    - unfold Files.copyTo. destruct (VideoMuxer.fs w !! first) as [bytes|]; [|done].
      intros [= <-]. by eexists.
    - unfold VideoMuxer.concatenateWithMuxer. intros [= <-].
      destruct (VideoMuxer.muxerStarted _); by eexists. }
  destruct copied as [fs1|].
  - destruct (Hcopied fs1 eq_refl) as [bytes ->]. cbv zeta.
    match goal with |- context [VideoMuxer.saveToMediaStore ?e ?t ?n ?w1] =>
      pose proof (saveToMediaStore_fs e t n w1) as Hfs;
      pose proof (saveToMediaStore_refused e t n w1) as Hrefused;
      destruct (VideoMuxer.saveToMediaStore e t n w1) as [[saved|] w2]
    end; cbn [fst snd VideoMuxer.fs VideoMuxer.mediaStore] in *; rewrite Hfs.
    + unfold Files.delete. rewrite lookup_delete_eq. split_and!; [done| |].
      * intros f Hf. by rewrite lookup_delete_ne, lookup_insert_ne.
      * intros Hnone. by specialize (Hrefused Hnone).
    + unfold Files.delete. rewrite lookup_delete_eq. split_and!; [done| |].
      * intros f Hf. by rewrite lookup_delete_ne, lookup_insert_ne.
      * intros Hnone. specialize (Hrefused Hnone). by injection Hrefused as ->.
  - cbn [fst snd VideoMuxer.fs VideoMuxer.mediaStore]. unfold Files.delete.
    rewrite lookup_delete_eq. split_and!; [done| |done].
    intros f Hf. by rewrite lookup_delete_ne.
Qed.

Lemma concatenateSegments_files_witness :
  let env := {| VideoMuxer.sdkAtLeastQ := true;
                VideoMuxer.insertResult := Some "content://media/1";
                VideoMuxer.opensOutputStream := true |} in
  let segments := ["/cache/video_buffer/segment_1.mp4"; "/cache/video_buffer/segment_2.mp4"] in
  let w := {| VideoMuxer.fs := {[ "/cache/video_buffer/segment_1.mp4" := [x00; x21];
                                  "/cache/temp_output_t.mp4" := [x42] ]};
              VideoMuxer.mediaStore := ∅ |} in
  let result := @VideoMuxer.concatenateSegments Toy.platform "/cache" "t" env segments "user" w in
  let temp := VideoMuxer.tempOutputFile "/cache" "t" in
  VideoMuxer.fs result.2 !! temp = None
  ∧ (∀ f, f ≠ temp → VideoMuxer.fs result.2 !! f = VideoMuxer.fs w !! f)
  ∧ (VideoMuxer.insertResult env = None →
     result.1 = None ∧ VideoMuxer.mediaStore result.2 = VideoMuxer.mediaStore w).
Proof.
  intros env segments w.
  apply (@concatenateSegments_files Toy.platform "/cache" "t" env segments "user" w).
  discriminate.
Defined.

(** X20. With two segments or more the concatenator reports success even
    when it could read none of them: every segment missing, empty or refused
    by the extractor, the muxer is never started, and an empty video is
    stored under the capture's name and its uri returned. With a single
    segment that is missing the result is null and nothing is stored. *)
Theorem unreadable_segments_still_saved `{Media.Platform} (cacheDir stamp : string)
    (env : VideoMuxer.SinkEnv) (first second : File) (others : list File)
    (username : string) (w : VideoMuxer.World) (uri : string) :
  (∀ s, s ∈ first :: second :: others → MuxObs.tracksOf (VideoMuxer.fs w) s = None) →
  VideoMuxer.insertResult env = Some uri →
  VideoMuxer.opensOutputStream env = true →
  let result := VideoMuxer.concatenateSegments cacheDir stamp env
                  (first :: second :: others) username w in
  let single := VideoMuxer.concatenateSegments cacheDir stamp env [first] username w in
  result.1 = Some uri
  ∧ VideoMuxer.mediaStore result.2 !! uri
    = Some {| VideoMuxer.displayName := username +:+ "_" +:+ stamp +:+ ".mp4";
              VideoMuxer.mimeType := "video/mp4";
              VideoMuxer.relativePath :=
                if VideoMuxer.sdkAtLeastQ env then Some "Movies/RORK" else None;
              VideoMuxer.isPending := false;
              VideoMuxer.content := [] |}
  ∧ (VideoMuxer.fs w !! first = None →
     single.1 = None ∧ VideoMuxer.mediaStore single.2 = VideoMuxer.mediaStore w).
Proof.
  intros Hnone Huri Hopen result single. subst result single.
  set (temp := VideoMuxer.tempOutputFile cacheDir stamp).
  assert (Hmux : VideoMuxer.muxSegments (first :: second :: others) temp (VideoMuxer.fs w)
                 = VideoMuxer.initialMuxState).
  { unfold VideoMuxer.muxSegments. rewrite foldl_processSegment_omap.
    assert (Hall : omap (MuxObs.tracksOf (<[temp := []]> (VideoMuxer.fs w)))
                     (first :: second :: others) = []).
    { revert Hnone. generalize (first :: second :: others). intros l Hl.
      induction l as [|s l IH]; [done|]. cbn [omap list_omap].
      assert (Hs : MuxObs.tracksOf (<[temp := []]> (VideoMuxer.fs w)) s = None).
      { destruct (MuxObs.tracksOf (<[temp := []]> (VideoMuxer.fs w)) s) as [tracks|] eqn:Htr;
          [|done].
        apply tracksOf_insert_empty in Htr as [_ Htr].
        rewrite Hl in Htr by apply list_elem_of_here. done. }
      rewrite Hs. apply IH. intros s' Hin. apply Hl. by right. }
    by rewrite Hall. }
  split_and!.
  - unfold VideoMuxer.concatenateSegments. fold temp.
    unfold VideoMuxer.concatenateWithMuxer. rewrite Hmux.
    cbn [VideoMuxer.initialMuxState VideoMuxer.muxerStarted].
    unfold VideoMuxer.saveToMediaStore. rewrite Huri, Hopen.
    cbn [VideoMuxer.fs]. by rewrite lookup_insert_eq.
  - unfold VideoMuxer.concatenateSegments. fold temp.
    unfold VideoMuxer.concatenateWithMuxer. rewrite Hmux.
    cbn [VideoMuxer.initialMuxState VideoMuxer.muxerStarted].
    unfold VideoMuxer.saveToMediaStore. rewrite Huri, Hopen.
    cbn [VideoMuxer.fs]. rewrite lookup_insert_eq.
    cbn [snd VideoMuxer.mediaStore]. by rewrite lookup_insert_eq.
  - intros Hmissing. unfold VideoMuxer.concatenateSegments, Files.copyTo.
    by rewrite Hmissing.
Qed.

Lemma unreadable_segments_still_saved_witness :
  let env := {| VideoMuxer.sdkAtLeastQ := true;
                VideoMuxer.insertResult := Some "content://media/1";
                VideoMuxer.opensOutputStream := true |} in
  let w := {| VideoMuxer.fs := {[ "/cache/video_buffer/segment_2.mp4" := [] ]};
              VideoMuxer.mediaStore := ∅ |} in
  let result := @VideoMuxer.concatenateSegments Toy.platform "/cache" "t" env
                  ["/cache/video_buffer/segment_1.mp4"; "/cache/video_buffer/segment_2.mp4"]
                  "user" w in
  let single := @VideoMuxer.concatenateSegments Toy.platform "/cache" "t" env
                  ["/cache/video_buffer/segment_1.mp4"] "user" w in
  result.1 = Some "content://media/1"
  ∧ VideoMuxer.mediaStore result.2 !! "content://media/1"
    = Some {| VideoMuxer.displayName := "user" +:+ "_" +:+ "t" +:+ ".mp4";
              VideoMuxer.mimeType := "video/mp4";
              VideoMuxer.relativePath :=
                if VideoMuxer.sdkAtLeastQ env then Some "Movies/RORK" else None;
              VideoMuxer.isPending := false;
              VideoMuxer.content := [] |}
  ∧ (VideoMuxer.fs w !! "/cache/video_buffer/segment_1.mp4" = None →
     single.1 = None ∧ VideoMuxer.mediaStore single.2 = VideoMuxer.mediaStore w).
Proof.
  intros env w.
  apply (@unreadable_segments_still_saved Toy.platform "/cache" "t" env
           "/cache/video_buffer/segment_1.mp4" "/cache/video_buffer/segment_2.mp4" []
           "user" w "content://media/1").
  - intros s Hs.
    apply elem_of_cons in Hs as [->|Hs]; [vm_compute; reflexivity|].
    apply elem_of_cons in Hs as [->|Hs]; [vm_compute; reflexivity|].
    by apply elem_of_nil in Hs.
  - reflexivity.
  - reflexivity.
Defined.

(** ** What the muxer carries *)

Lemma payload_same i off (l : list Media.Sample) :
  (λ w, (Media.flags w, Media.size w, Media.data w)) <$> (MuxObs.rewriteSample i off <$> l)
  = (λ s, (Media.sampleFlags s, Z.of_nat (length (Media.sampleData s)), Media.sampleData s))
      <$> l.
Proof. induction l as [|s l IH]; [done|]. rewrite !fmap_cons. by rewrite IH. Qed.

Section Payload.
Context `{Media.Platform}.
Variable k : MuxObs.Kind.

(** One more segment on a started muxer, seen from track [k]. *)
Lemma processTracks_payload st tracks :
  VideoMuxer.muxerStarted st = true → MuxObs.distinct st →
  0 <= MuxObs.indexOf k st →
  let st' := MuxObs.processTracks st tracks in
  VideoMuxer.muxerStarted st' = true
  ∧ VideoMuxer.videoTrackIndex st' = VideoMuxer.videoTrackIndex st
  ∧ VideoMuxer.audioTrackIndex st' = VideoMuxer.audioTrackIndex st
  ∧ MuxObs.payloadOf (MuxObs.indexOf k st) (VideoMuxer.muxer st')
    = MuxObs.payloadOf (MuxObs.indexOf k st) (VideoMuxer.muxer st)
      ++ MuxObs.payloadsOf (MuxObs.mimePrefix k) tracks.
Proof.
  intros Hstarted Hdist Hidx st'. subst st'.
  unfold MuxObs.processTracks. rewrite Hstarted. cbv zeta. cbn [negb andb].
  cbn [VideoMuxer.muxerStarted VideoMuxer.videoTrackIndex VideoMuxer.audioTrackIndex
       VideoMuxer.muxer].
  split; [done|]. split; [done|]. split; [done|].
  unfold MuxObs.payloadOf, MuxObs.payloadsOf. cbn [VideoMuxer.written].
  rewrite !filter_app, !fmap_app. f_equal.
  destruct k; cbn [MuxObs.indexOf MuxObs.mimePrefix] in *.
  - rewrite (proj2 (Z.geb_le _ _) Hidx), filter_track_same, payload_same.
    destruct (Z.geb_spec (VideoMuxer.audioTrackIndex st) 0) as [Ha|Ha].
    + rewrite filter_track_other by (by apply Hdist). apply app_nil_r.
    + apply app_nil_r.
  - rewrite (proj2 (Z.geb_le (VideoMuxer.audioTrackIndex st) _) Hidx), filter_track_same,
      payload_same.
    destruct (Z.geb_spec (VideoMuxer.videoTrackIndex st) 0) as [Hv|Hv]; [|done].
    rewrite filter_track_other; [done|]. intros Heq. by apply Hdist.
Qed.

Lemma foldl_processTracks_payload st (tl : list (list Media.Track)) :
  VideoMuxer.muxerStarted st = true → MuxObs.distinct st →
  0 <= MuxObs.indexOf k st →
  let st' := foldl MuxObs.processTracks st tl in
  MuxObs.indexOf k st' = MuxObs.indexOf k st
  ∧ MuxObs.payloadOf (MuxObs.indexOf k st) (VideoMuxer.muxer st')
    = MuxObs.payloadOf (MuxObs.indexOf k st) (VideoMuxer.muxer st)
      ++ concat (MuxObs.payloadsOf (MuxObs.mimePrefix k) <$> tl).
Proof.
  revert st. induction tl as [|tracks tl IH]; intros st Hstarted Hdist Hidx; cbn [foldl].
  { cbn. by rewrite app_nil_r. }
  destruct (processTracks_payload st tracks) as (Hs & Hv & Ha & Hpay); [done..|].
  set (st1 := MuxObs.processTracks st tracks) in *.
  assert (Hidx1 : MuxObs.indexOf k st1 = MuxObs.indexOf k st) by (by destruct k).
  destruct (IH st1) as (Hidx' & Hpay'); [done| |lia|].
  { unfold MuxObs.distinct. rewrite Hv, Ha. exact Hdist. }
  split; [congruence|].
  rewrite Hidx1 in Hpay'. rewrite Hpay', Hpay, <- app_assoc. by rewrite fmap_cons.
Qed.

Hypothesis start_with_track : ∀ fmts, fmts ≠ [] → Media.start_ok fmts = true.

Lemma muxSegments_payload (first : list Media.Track) (rest : list (list Media.Track)) trk :
  trk ∈ first → VideoMuxer.hasMime (MuxObs.mimePrefix k) trk = true →
  let st := foldl MuxObs.processTracks VideoMuxer.initialMuxState (first :: rest) in
  0 <= MuxObs.indexOf k st
  ∧ MuxObs.payloadOf (MuxObs.indexOf k st) (VideoMuxer.muxer st)
    = concat (MuxObs.payloadsOf (MuxObs.mimePrefix k) <$> first :: rest).
Proof.
  intros Htrk Hmime. cbn [foldl].
  set (st1 := foldl VideoMuxer.registerTrack VideoMuxer.initialMuxState first).
  assert (Hreg0 : MuxObs.registered VideoMuxer.initialMuxState).
  { split_and!; [by left|by left|]. intros Hv. cbn in Hv. lia. }
  assert (Hreg : MuxObs.registered st1) by by apply registerTracks_registered.
  assert (Hidx : 0 <= MuxObs.indexOf k st1) by by eapply registerTracks_index_new.
  destruct (registerTracks_keep VideoMuxer.initialMuxState first) as (Hw & _).
  fold st1 in Hw.
  assert (Hne : VideoMuxer.formats (VideoMuxer.muxer st1) ≠ []).
  { eapply registerTracks_usable; [done|by eapply hasMime_usable|cbn; lia..]. }
  rewrite processTracks_first by (done || by apply start_with_track).
  fold st1.
  change (MuxObs.processTracks (MuxObs.setStarted st1) first)
    with (foldl MuxObs.processTracks (MuxObs.setStarted st1) [first]).
  rewrite <- foldl_app. change ([first] ++ rest) with (first :: rest).
  assert (Hidx' : MuxObs.indexOf k (MuxObs.setStarted st1) = MuxObs.indexOf k st1)
    by by destruct k.
  destruct (foldl_processTracks_payload (MuxObs.setStarted st1) (first :: rest))
    as (Hi & Hpay); [done|by destruct Hreg as (_ & _ & ?)|lia|].
  rewrite Hi, Hidx'. split; [done|].
  rewrite Hidx' in Hpay. rewrite Hpay.
  unfold MuxObs.payloadOf at 1. cbn [MuxObs.setStarted VideoMuxer.muxer]. rewrite Hw. done.
Qed.

End Payload.



(** ** A kind of track the first segment lacks *)

Lemma registerTrack_index_absent k st trk :
  VideoMuxer.hasMime (MuxObs.mimePrefix k) trk = false →
  MuxObs.indexOf k (VideoMuxer.registerTrack st trk) = MuxObs.indexOf k st.
Proof.
  unfold VideoMuxer.hasMime, VideoMuxer.registerTrack.
  destruct (Media.mime (Media.format trk)) as [m|]; [|done].
  destruct k; cbn [MuxObs.indexOf MuxObs.mimePrefix]; intros Hm.
  - rewrite Hm. cbn [andb]. by destruct (String.prefix "audio/" m && _).
  - rewrite Hm. cbn [andb]. by destruct (String.prefix "video/" m && _).
Qed.

Lemma registerTracks_index_absent k st tracks :
  (∀ trk, trk ∈ tracks → VideoMuxer.hasMime (MuxObs.mimePrefix k) trk = false) →
  MuxObs.indexOf k (foldl VideoMuxer.registerTrack st tracks) = MuxObs.indexOf k st.
Proof.
  revert st. induction tracks as [|trk tracks IH]; intros st Hno; [done|].
  cbn [foldl]. rewrite IH by (intros t Ht; apply Hno; by right).
  apply registerTrack_index_absent, Hno. by left.
Qed.

Section Absent.
Context `{Media.Platform}.
Variable k : MuxObs.Kind.

(** A started muxer without a track of kind [k] writes to the other track
    only. *)
Lemma processTracks_absent st tracks :
  VideoMuxer.muxerStarted st = true → MuxObs.indexOf k st = -1 →
  Forall (λ ws, Media.trackIndex ws = MuxObs.indexOf (MuxObs.other k) st)
    (VideoMuxer.written (VideoMuxer.muxer st)) →
  let st' := MuxObs.processTracks st tracks in
  VideoMuxer.muxerStarted st' = true
  ∧ MuxObs.indexOf k st' = -1
  ∧ MuxObs.indexOf (MuxObs.other k) st' = MuxObs.indexOf (MuxObs.other k) st
  ∧ VideoMuxer.formats (VideoMuxer.muxer st') = VideoMuxer.formats (VideoMuxer.muxer st)
  ∧ Forall (λ ws, Media.trackIndex ws = MuxObs.indexOf (MuxObs.other k) st')
      (VideoMuxer.written (VideoMuxer.muxer st')).
Proof.
  intros Hstarted Hidx Hall st'. subst st'.
  unfold MuxObs.processTracks. rewrite Hstarted. cbv zeta. cbn [negb andb].
  assert (Hsame : ∀ i off l, Forall (λ ws, Media.trackIndex ws = i)
                               (MuxObs.rewriteSample i off <$> l)).
  { intros i off l. apply Forall_fmap, Forall_forall. by intros s _. }
  destruct k; cbn [MuxObs.indexOf MuxObs.other VideoMuxer.muxerStarted
                   VideoMuxer.videoTrackIndex VideoMuxer.audioTrackIndex
                   VideoMuxer.muxer VideoMuxer.formats VideoMuxer.written] in *;
    rewrite Hidx; change (-1 >=? 0) with false; cbv iota;
    (split_and!; [done..|]); rewrite ?fmap_nil, ?app_nil_r;
    (apply Forall_app_2; [done|]); try apply Forall_app_2; try apply Hsame;
    try apply Forall_nil_2.
Qed.

Lemma foldl_processTracks_absent st (tl : list (list Media.Track)) :
  VideoMuxer.muxerStarted st = true → MuxObs.indexOf k st = -1 →
  Forall (λ ws, Media.trackIndex ws = MuxObs.indexOf (MuxObs.other k) st)
    (VideoMuxer.written (VideoMuxer.muxer st)) →
  let st' := foldl MuxObs.processTracks st tl in
  MuxObs.indexOf k st' = -1
  ∧ VideoMuxer.formats (VideoMuxer.muxer st') = VideoMuxer.formats (VideoMuxer.muxer st)
  ∧ Forall (λ ws, Media.trackIndex ws = MuxObs.indexOf (MuxObs.other k) st')
      (VideoMuxer.written (VideoMuxer.muxer st')).
Proof.
  revert st. induction tl as [|tracks tl IH]; intros st Hstarted Hidx Hall; cbn [foldl].
  { done. }
  destruct (processTracks_absent st tracks Hstarted Hidx Hall) as (Hs & Hi & _ & Hf & Hw).
  destruct (IH _ Hs Hi Hw) as (Hi' & Hf' & Hw'). split_and!; [done|congruence|done].
Qed.

End Absent.

(** X22. The output tracks are fixed by the first processed segment. When
    that segment has no track of one kind (no audio, say) while the muxer
    starts on its other track, no track of that kind is ever added: the
    samples of that kind in every later segment are dropped, and everything
    written goes to the one output track. *)
Theorem absent_kind_dropped `{Media.Platform} (k : MuxObs.Kind)
    (segments : list File) (output : File) (fs : Fs)
    (first : list Media.Track) (rest : list (list Media.Track)) (trk : Media.Track) :
  (∀ fmts, fmts ≠ [] → Media.start_ok fmts = true) →
  omap (MuxObs.tracksOf (<[output := []]> fs)) segments = first :: rest →
  (∀ t, t ∈ first → VideoMuxer.hasMime (MuxObs.mimePrefix k) t = false) →
  trk ∈ first → VideoMuxer.hasMime (MuxObs.mimePrefix (MuxObs.other k)) trk = true →
  let st := VideoMuxer.muxSegments segments output fs in
  MuxObs.indexOf k st = -1
  ∧ 0 <= MuxObs.indexOf (MuxObs.other k) st
  ∧ MuxObs.payloadOf (MuxObs.indexOf k st) (VideoMuxer.muxer st) = []
  ∧ Forall (λ ws, Media.trackIndex ws = MuxObs.indexOf (MuxObs.other k) st)
      (VideoMuxer.written (VideoMuxer.muxer st))
  ∧ VideoMuxer.formats (VideoMuxer.muxer st)
    = VideoMuxer.formats
        (VideoMuxer.muxer (foldl VideoMuxer.registerTrack VideoMuxer.initialMuxState first)).
Proof.
  intros Hstart Hproc Hno Htrk Hmime st. subst st.
  unfold VideoMuxer.muxSegments. rewrite foldl_processSegment_omap, Hproc.
  destruct (muxSegments_payload (MuxObs.other k) Hstart first rest trk Htrk Hmime)
    as (Hother & _).
  revert Hother. cbn [foldl].
  set (st1 := foldl VideoMuxer.registerTrack VideoMuxer.initialMuxState first).
  destruct (registerTracks_keep VideoMuxer.initialMuxState first) as (Hw & _).
  fold st1 in Hw.
  assert (Hne : VideoMuxer.formats (VideoMuxer.muxer st1) ≠ []).
  { eapply registerTracks_usable; [done|by eapply hasMime_usable|cbn; lia..]. }
  assert (Hidx : MuxObs.indexOf k st1 = -1).
  { unfold st1. rewrite registerTracks_index_absent by done. by destruct k. }
  rewrite processTracks_first by (done || by apply Hstart). fold st1.
  change (MuxObs.processTracks (MuxObs.setStarted st1) first)
    with (foldl MuxObs.processTracks (MuxObs.setStarted st1) [first]).
  rewrite <- foldl_app. change ([first] ++ rest) with (first :: rest).
  destruct (foldl_processTracks_absent k (MuxObs.setStarted st1) (first :: rest))
    as (Hi & Hf & Hall).
  { done. }
  { by destruct k. }
  { cbn [MuxObs.setStarted VideoMuxer.muxer]. rewrite Hw. constructor. }
  intros Hother. split_and!; [done|done| |done|done].
  rewrite Hi. unfold MuxObs.payloadOf.
  assert (Hnone : filter (λ ws, Media.trackIndex ws = -1)
                    (VideoMuxer.written
                       (VideoMuxer.muxer
                          (foldl MuxObs.processTracks (MuxObs.setStarted st1) (first :: rest))))
                  = []).
  { revert Hall Hother.
    generalize (foldl MuxObs.processTracks (MuxObs.setStarted st1) (first :: rest)).
    intros st Hall Hother.
    induction Hall as [|ws l Hws _ IH]; [done|].
    rewrite filter_cons, decide_False; [done|]. rewrite Hws. lia. }
  by rewrite Hnone.
Qed.

Lemma absent_kind_dropped_witness :
  let segments := ["/cache/video_buffer/segment_0.mp4"; "/cache/video_buffer/segment_1.mp4"] in
  let fs : Fs := {[ "/cache/video_buffer/segment_0.mp4" := [x00; x21];
                    "/cache/video_buffer/segment_1.mp4" := [x64; x85] ]} in
  let first := [Toy.track [x00; x21]] in
  let st := @VideoMuxer.muxSegments Toy.platform segments "/cache/temp_output_t.mp4" fs in
  MuxObs.indexOf MuxObs.Audio st = -1
  ∧ 0 <= MuxObs.indexOf (MuxObs.other MuxObs.Audio) st
  ∧ MuxObs.payloadOf (MuxObs.indexOf MuxObs.Audio st) (VideoMuxer.muxer st) = []
  ∧ Forall (λ ws, Media.trackIndex ws = MuxObs.indexOf (MuxObs.other MuxObs.Audio) st)
      (VideoMuxer.written (VideoMuxer.muxer st))
  ∧ VideoMuxer.formats (VideoMuxer.muxer st)
    = VideoMuxer.formats
        (VideoMuxer.muxer (foldl VideoMuxer.registerTrack VideoMuxer.initialMuxState first)).
Proof.
  intros segments fs first.
  apply (@absent_kind_dropped Toy.platform MuxObs.Audio segments "/cache/temp_output_t.mp4" fs
           first [[Toy.track [x64; x85]]] (Toy.track [x00; x21])).
  - exact toy_starts.
  - vm_compute. reflexivity.
  - intros t ->%list_elem_of_singleton. reflexivity.
  - apply list_elem_of_here.
  - reflexivity.
Defined.

(** The first segment has video only, the second video and audio: the
    audio samples of the second segment are not written. *)
Example later_audio_is_dropped :
  let video (b : byte) :=
    {| Media.format := {| Media.mime := Some "video/avc"; Media.codecParams := [] |};
       Media.samples := [{| Media.sampleTime := 0; Media.sampleFlags := 1;
                            Media.sampleData := [b] |}] |} in
  let audio (b : byte) :=
    {| Media.format := {| Media.mime := Some "audio/mp4a-latm"; Media.codecParams := [] |};
       Media.samples := [{| Media.sampleTime := 0; Media.sampleFlags := 0;
                            Media.sampleData := [b; b] |}] |} in
  let platform :=
    {| Media.extract := λ bytes,
         match bytes with
         | [b] => Some [video b]
         | [b; c] => Some [video b; audio c]
         | _ => None
         end;
       Media.start_ok := λ fmts, negb (bool_decide (fmts = []));
       Media.container := Toy.toyContainer |} in
  let fs : Fs := {[ "/cache/video_buffer/segment_0.mp4" := [x01];
                    "/cache/video_buffer/segment_1.mp4" := [x02; x03] ]} in
  let st := @VideoMuxer.muxSegments platform
              ["/cache/video_buffer/segment_0.mp4"; "/cache/video_buffer/segment_1.mp4"]
              "/cache/temp_output_t.mp4" fs in
  (VideoMuxer.audioTrackIndex st,
   Media.data <$> VideoMuxer.written (VideoMuxer.muxer st))
  = (-1, [[x01]; [x02]]).
Proof. vm_compute. reflexivity. Qed.

(** ** Stopping while the loop runs *)

Lemma applyCall_mediaStore (c : Recorder.Call) (r : Recorder.t) (w : VideoMuxer.World) :
  VideoMuxer.mediaStore (Recorder.applyCall (r, w) c).2 = VideoMuxer.mediaStore w.
Proof.
  destruct r as [v st ita cr cb sm tl es sa pre post un ja ps pos em], w as [fs ms].
  destruct c as [n1 n2| |T]; cbn [Recorder.applyCall fst snd]; [done| |done].
  unfold Recorder.stopCamera. recorder_simpl. done.
Qed.

Lemma calls_mediaStore (calls : list Recorder.Call) (r : Recorder.t) (w : VideoMuxer.World) :
  VideoMuxer.mediaStore (foldl Recorder.applyCall (r, w) calls).2 = VideoMuxer.mediaStore w.
Proof.
  revert r w. induction calls as [|c calls IH]; intros r w; [done|].
  cbn [foldl]. pose proof (applyCall_mediaStore c r w) as Hc.
  destruct (Recorder.applyCall (r, w) c) as [r1 w1]. by rewrite IH.
Qed.

(** A stopped session: idle, the loop cancelled, nothing tracked. *)
Lemma applyCall_stopped (c : Recorder.Call) (r : Recorder.t) (w : VideoMuxer.World) :
  (c = Recorder.CallStop
   ∨ (Recorder.state r = Recorder.IDLE ∧ Recorder.jobActive r = false
      ∧ SegmentManager.segments (Recorder.segmentManager r) = [])) →
  let r' := (Recorder.applyCall (r, w) c).1 in
  Recorder.state r' = Recorder.IDLE ∧ Recorder.jobActive r' = false
  ∧ SegmentManager.segments (Recorder.segmentManager r') = [].
Proof.
  destruct r as [v st ita cr cb sm tl es sa pre post un ja ps pos em], w as [fs ms].
  cbn [Recorder.state Recorder.jobActive Recorder.segmentManager].
  destruct c as [n1 n2| |T]; cbn [Recorder.applyCall fst snd].
  - intros [[=]|(-> & -> & Hsegs)]. unfold Recorder.triggerCapture.
    rewrite bool_decide_eq_false_2 by done. cbn [negb]. recorder_simpl. done.
  - intros _. unfold Recorder.stopCamera. recorder_simpl. done.
  - intros [[=]|(-> & -> & Hsegs)]. unfold Recorder.setClipDuration. recorder_simpl. done.
Qed.

Lemma calls_stopped (calls : list Recorder.Call) (r : Recorder.t) (w : VideoMuxer.World) :
  (Recorder.CallStop ∈ calls
   ∨ (Recorder.state r = Recorder.IDLE ∧ Recorder.jobActive r = false
      ∧ SegmentManager.segments (Recorder.segmentManager r) = [])) →
  let r' := (foldl Recorder.applyCall (r, w) calls).1 in
  Recorder.state r' = Recorder.IDLE ∧ Recorder.jobActive r' = false
  ∧ SegmentManager.segments (Recorder.segmentManager r') = [].
Proof.
  revert r w. induction calls as [|c calls IH]; intros r w Hcase; cbn [foldl].
  - destruct Hcase as [Hin|Hidle]; [by apply elem_of_nil in Hin|done].
  - pose proof (applyCall_stopped c r w) as Hc.
    destruct (Recorder.applyCall (r, w) c) as [r1 w1]. cbn [fst] in Hc.
    apply IH. destruct Hcase as [[<-|Hin]%elem_of_cons|Hidle].
    + right. apply Hc. by left.
    + by left.
    + right. apply Hc. by right.
Qed.

(** X23. A [stopCamera] that arrives while a segment is recorded ends the
    loop after that iteration, in every state of the session: the session
    is idle, the store is empty, [finalizeCapture] is not run, and nothing is
    saved: the media store is as it was, also when the stop arrives during
    post-capture. Later iterations are not run. *)
Theorem stop_during_capture_discards `{Media.Platform} (fuel : nat)
    (env : Recorder.FinalizeEnv) (it : Recorder.Iteration) (rest : list Recorder.Iteration)
    (r : Recorder.t) (w : VideoMuxer.World) (step : Recorder.LoopStep) :
  Recorder.loopCond r = true →
  Recorder.CallStop ∈ Recorder.during it →
  Recorder.loopBody fuel it r w = Some step →
  Recorder.state (Recorder.stepRecorder step) = Recorder.IDLE
  ∧ SegmentManager.segments (Recorder.segmentManager (Recorder.stepRecorder step)) = []
  ∧ VideoMuxer.mediaStore (Recorder.stepWorld step) = VideoMuxer.mediaStore w
  ∧ Recorder.segmentLoop fuel env (it :: rest) r w
    = Some (Recorder.stepRecorder step, Recorder.stepWorld step).
Proof.
  intros Hcond Hstop Hbody.
  assert (Hstep : Recorder.isBreak step = false
                  ∧ Recorder.state (Recorder.stepRecorder step) = Recorder.IDLE
                  ∧ Recorder.jobActive (Recorder.stepRecorder step) = false
                  ∧ SegmentManager.segments
                      (Recorder.segmentManager (Recorder.stepRecorder step)) = []
                  ∧ VideoMuxer.mediaStore (Recorder.stepWorld step)
                    = VideoMuxer.mediaStore w).
  { revert Hbody. unfold Recorder.loopBody.
    destruct (SegmentManager.createNewSegment _ _ _ _) as [[[f sm1] fs1]|]; [|done].
    destruct r as [v st ita cr cb sm0 tl es sa pre post un ja ps pos em], w as [fs0 ms].
    unfold Recorder.recordSegment.
    cbv beta iota zeta delta [Recorder.set_segmentManager Recorder.set_currentRecording
      VideoMuxer.fs VideoMuxer.mediaStore].
    match goal with |- context [foldl Recorder.applyCall (?r2, ?w2) _] =>
      destruct (calls_stopped (Recorder.during it) r2 w2 (or_introl Hstop))
        as (Hst3 & Hjob3 & Hsegs3);
      pose proof (calls_mediaStore (Recorder.during it) r2 w2) as Hms3;
      destruct (foldl Recorder.applyCall (r2, w2) (Recorder.during it)) as [r3 w3]
    end.
    destruct r3 as [v3 st3 ita3 cr3 cb3 sm3 tl3 es3 sa3 pre3 post3 un3 ja3 ps3 pos3 em3].
    cbn [fst snd Recorder.state Recorder.jobActive Recorder.segmentManager
         VideoMuxer.mediaStore] in *.
    subst st3 ja3.
    rewrite (bool_decide_eq_false_2 (Recorder.IDLE = Recorder.CAPTURING_POST)) by done.
    intros [= <-]. unfold Recorder.telemetryUpdate.
    cbn [Recorder.stepRecorder Recorder.stepWorld Recorder.isBreak]. recorder_simpl. done. }
  destruct Hstep as (Hbrk & Hst & Hjob & Hsegs & Hms).
  split_and!; [done|done|done|].
  cbn [Recorder.segmentLoop]. rewrite Hcond, Hbody.
  destruct step as [r1 w1|r1 w1]; [|done].
  cbn [Recorder.stepRecorder Recorder.stepWorld] in *. by apply segmentLoop_inactive.
Qed.

Lemma stop_during_capture_discards_witness :
  let env := {| Recorder.stamp := "20240101_120000";
                Recorder.sink := {| VideoMuxer.sdkAtLeastQ := true;
                                    VideoMuxer.insertResult := Some "content://media/1";
                                    VideoMuxer.opensOutputStream := true |};
                Recorder.fault := None |} in
  let w := {| VideoMuxer.fs := ∅; VideoMuxer.mediaStore := ∅ |} in
  let r := Recorder.triggerCapture 1 2
             (Recorder.startBuffering true (Recorder.new Recorder.UseCases "/cache") w).1 w in
  let it := {| Recorder.now := 0; Recorder.started := true;
               Recorder.recorded := Some ["a"]%byte;
               Recorder.during := [Recorder.CallStop; Recorder.CallTrigger 3 4] |} in
  let later := {| Recorder.now := 500; Recorder.started := true;
                  Recorder.recorded := Some ["b"]%byte; Recorder.during := [] |} in
  let step := default (Recorder.Continue r w) (Recorder.loopBody 2 it r w) in
  Recorder.state (Recorder.stepRecorder step) = Recorder.IDLE
  ∧ SegmentManager.segments (Recorder.segmentManager (Recorder.stepRecorder step)) = []
  ∧ VideoMuxer.mediaStore (Recorder.stepWorld step) = VideoMuxer.mediaStore w
  ∧ @Recorder.segmentLoop Toy.platform 2 env [it; later] r w
    = Some (Recorder.stepRecorder step, Recorder.stepWorld step).
Proof.
  intros env w r it later step.
  apply (@stop_during_capture_discards Toy.platform 2 env it [later] r w step).
  - reflexivity.
  - apply list_elem_of_here.
  - vm_compute. reflexivity.
Defined.

Lemma segmentLoop_not_stuck_witness :
  let env := {| Recorder.stamp := "20240101_120000";
                Recorder.sink := {| VideoMuxer.sdkAtLeastQ := true;
                                    VideoMuxer.insertResult := Some "content://media/1";
                                    VideoMuxer.opensOutputStream := true |};
                Recorder.fault := None |} in
  let ok (n : Z) (b : byte) (calls : list Recorder.Call) :=
    {| Recorder.now := n; Recorder.started := true;
       Recorder.recorded := Some [b]; Recorder.during := calls |} in
  let its := [ok 0 x00 []; ok 500 x01 [Recorder.CallTrigger 900 901];
              ok 1000 x02 [Recorder.CallSetClipDuration 1]] in
  let w := {| VideoMuxer.fs := ∅; VideoMuxer.mediaStore := ∅ |} in
  let r := (Recorder.startBuffering true
              (Recorder.setClipDuration 2 (Recorder.new Recorder.UseCases "/cache")) w).1 in
  let out := default (r, w) (@Recorder.segmentLoop Toy.platform 2 env its r w) in
  Recorder.state out.1 ≠ Recorder.FINALIZING.
Proof.
  intros env ok its w r out.
  apply (@segmentLoop_not_stuck Toy.platform 2 env its r w out.1 out.2).
  - intros _. reflexivity.
  - discriminate.
  - vm_compute. reflexivity.
Defined.

(** ** The bridge to JavaScript *)

(** X25. [CameraModule.triggerCapture] rejects its promise only when no
    recorder was created. With a recorder it resolves the promise with
    [true] in every state: when the session is not buffering the recorder
    rejects the trigger, which the caller learns from the [onError] event
    alone, the state and the frozen segments staying as they were. *)
Theorem bridge_trigger_resolves (nowPressed nowStarted : Z) (m : CameraModule.t)
    (w : VideoMuxer.World) :
  let out := CameraModule.triggerCapture nowPressed nowStarted m w in
  match CameraModule.recorder m with
  | None => out = (CameraModule.Rejected "CAPTURE_ERROR" "Camera not initialized", m)
  | Some r =>
      out.1 = CameraModule.Resolved CameraModule.VTrue
      ∧ ∃ r', CameraModule.recorder out.2 = Some r'
              ∧ (Recorder.state r = Recorder.BUFFERING →
                 Recorder.state r' = Recorder.CAPTURING_POST
                 ∧ CameraModule.getCameraState out.2
                   = CameraModule.Resolved (CameraModule.VString "capturing"))
              ∧ (Recorder.state r ≠ Recorder.BUFFERING →
                 Recorder.state r' = Recorder.state r
                 ∧ Recorder.preSegments r' = Recorder.preSegments r
                 ∧ Recorder.emitted r'
                   = Recorder.emitted r
                     ++ [Recorder.Error "INVALID_STATE" "Camera not in buffering state"]
                 ∧ CameraModule.getCameraState out.2 = CameraModule.getCameraState m)
  end.
Proof.
  intros out. subst out. unfold CameraModule.triggerCapture, CameraModule.getCameraState.
  destruct m as [[r|] name]; cbn [CameraModule.recorder CameraModule.currentUsername fst snd];
    [|done].
  split; [done|]. eexists. split; [reflexivity|].
  destruct r as [v st ita cr cb sm tl es sa pre post un ja ps pos em].
  cbn [Recorder.state Recorder.preSegments Recorder.emitted]. unfold Recorder.triggerCapture.
  split.
  - intros ->.
    rewrite (bool_decide_eq_true_2 (Recorder.state _ = Recorder.BUFFERING)) by done.
    cbn [negb]. recorder_simpl. done.
  - intros Hst.
    rewrite (bool_decide_eq_false_2 (Recorder.state _ = Recorder.BUFFERING)) by done.
    cbn [negb]. recorder_simpl. done.
Qed.

Lemma startBuffering_after_stop (r : Recorder.t) (w : VideoMuxer.World) :
  let stopped := Recorder.stopCamera r w in
  let restarted := Recorder.startBuffering true stopped.1 stopped.2 in
  Recorder.state restarted.1 = Recorder.BUFFERING
  ∧ Recorder.jobActive restarted.1 = false
  ∧ Recorder.currentUsername restarted.1 = Recorder.currentUsername r.
Proof.
  destruct r as [v st ita cr cb sm tl es sa pre post un ja ps pos em], w as [fs ms].
  intros stopped restarted. subst restarted stopped.
  unfold Recorder.stopCamera. recorder_simpl.
  unfold Recorder.startBuffering. recorder_simpl.
  rewrite (bool_decide_eq_true_2 (Recorder.IDLE = Recorder.IDLE)) by done.
  cbn [negb]. recorder_simpl. done.
Qed.

(** X26. The module keeps the recorder it created: after [stopCamera] a
    new [initializeCamera] resolves without creating another one, so the
    [startBuffering] that follows resolves and the state reads
    ["buffering"], but it is the stopped recorder that was started: its loop
    is cancelled and records nothing. *)
Theorem bridge_restart_after_stop `{Media.Platform} (v : Recorder.Variant) (cache : string)
    (m : CameraModule.t) (w : VideoMuxer.World) (username : string)
    (fuel : nat) (env : Recorder.FinalizeEnv) (its : list Recorder.Iteration) :
  CameraModule.currentUsername m = Some username →
  let first := CameraModule.initializeCamera v cache m in
  let stopped := CameraModule.stopCamera first.2 w in
  let again := CameraModule.initializeCamera v cache stopped.1.2 in
  let started := CameraModule.startBuffering true again.2 stopped.2 in
  first.1 = CameraModule.Resolved CameraModule.VTrue
  ∧ stopped.1.1 = CameraModule.Resolved CameraModule.VTrue
  ∧ again.1 = CameraModule.Resolved CameraModule.VTrue
  ∧ again.2 = stopped.1.2
  ∧ started.1.1 = CameraModule.Resolved CameraModule.VTrue
  ∧ CameraModule.getCameraState started.1.2
    = CameraModule.Resolved (CameraModule.VString "buffering")
  ∧ ∃ r, CameraModule.recorder started.1.2 = Some r
         ∧ Recorder.jobActive r = false
         ∧ Recorder.segmentLoop fuel env its r started.2 = Some (r, started.2).
Proof.
  intros Hname first stopped again started. subst started again stopped first.
  destruct m as [ro name]. cbn [CameraModule.currentUsername] in Hname. subst name.
  set (r0 := match ro with
             | Some r => r
             | None => Recorder.setUsername username (Recorder.new v cache)
             end).
  assert (Hfirst : CameraModule.initializeCamera v cache
                     {| CameraModule.recorder := ro;
                        CameraModule.currentUsername := Some username |}
                   = (CameraModule.Resolved CameraModule.VTrue,
                      {| CameraModule.recorder := Some r0;
                         CameraModule.currentUsername := Some username |})).
  { unfold CameraModule.initializeCamera, r0.
    cbn [CameraModule.currentUsername CameraModule.recorder]. by destruct ro. }
  rewrite Hfirst. cbn [fst snd].
  unfold CameraModule.stopCamera. cbn [CameraModule.currentUsername CameraModule.recorder].
  pose proof (startBuffering_after_stop r0 w) as Hdead. cbv zeta in Hdead.
  destruct (Recorder.stopCamera r0 w) as [r1 w1]. cbn [fst snd] in *.
  unfold CameraModule.initializeCamera.
  cbn [CameraModule.currentUsername CameraModule.recorder fst snd].
  unfold CameraModule.startBuffering, CameraModule.getCameraState.
  cbn [CameraModule.currentUsername CameraModule.recorder].
  destruct (Recorder.startBuffering true r1 w1) as [r2 w2]. cbn [fst snd] in *.
  cbn [CameraModule.currentUsername CameraModule.recorder].
  destruct Hdead as (Hst & Hjob & _).
  split_and!; try done.
  - by rewrite Hst.
  - exists r2. split_and!; [done|done|]. by apply segmentLoop_inactive.
Qed.

Lemma bridge_restart_after_stop_witness :
  let env := {| Recorder.stamp := "20240101_120000";
                Recorder.sink := {| VideoMuxer.sdkAtLeastQ := true;
                                    VideoMuxer.insertResult := Some "content://media/1";
                                    VideoMuxer.opensOutputStream := true |};
                Recorder.fault := None |} in
  let its := [{| Recorder.now := 0; Recorder.started := true;
                 Recorder.recorded := Some ["a"]%byte; Recorder.during := [] |}] in
  let w := {| VideoMuxer.fs := ∅; VideoMuxer.mediaStore := ∅ |} in
  let m := (CameraModule.login (CameraModule.Success "ann") CameraModule.new).2 in
  let first := CameraModule.initializeCamera Recorder.UseCases "/cache" m in
  let stopped := CameraModule.stopCamera first.2 w in
  let again := CameraModule.initializeCamera Recorder.UseCases "/cache" stopped.1.2 in
  let started := CameraModule.startBuffering true again.2 stopped.2 in
  first.1 = CameraModule.Resolved CameraModule.VTrue
  ∧ stopped.1.1 = CameraModule.Resolved CameraModule.VTrue
  ∧ again.1 = CameraModule.Resolved CameraModule.VTrue
  ∧ again.2 = stopped.1.2
  ∧ started.1.1 = CameraModule.Resolved CameraModule.VTrue
  ∧ CameraModule.getCameraState started.1.2
    = CameraModule.Resolved (CameraModule.VString "buffering")
  ∧ ∃ r, CameraModule.recorder started.1.2 = Some r
         ∧ Recorder.jobActive r = false
         ∧ @Recorder.segmentLoop Toy.platform 2 env its r started.2 = Some (r, started.2).
Proof.
  intros env its w m.
  apply (@bridge_restart_after_stop Toy.platform Recorder.UseCases "/cache" m w "ann" 2 env its).
  reflexivity.
Defined.

(** X27. The name captures are saved under. [initializeCamera] is
    rejected while nobody is logged in; for a logged-in user it creates the
    recorder, idle, with the sanitised user name, and on a module that has a
    recorder it resolves and changes nothing. A later successful [login]
    renames the recorder in place; a failed one and a [logout] leave it as
    it is. *)
Theorem bridge_username (v : Recorder.Variant) (cache : string) (m : CameraModule.t)
    (username other message : string) (r : Recorder.t) :
  (CameraModule.currentUsername m = None →
   CameraModule.initializeCamera v cache m
   = (CameraModule.Rejected "NOT_AUTHENTICATED" "Please login first", m))
  ∧ (CameraModule.currentUsername m = Some username → CameraModule.recorder m = None →
     ∃ created,
       CameraModule.initializeCamera v cache m
       = (CameraModule.Resolved CameraModule.VTrue,
          {| CameraModule.recorder := Some created;
             CameraModule.currentUsername := Some username |})
       ∧ Recorder.currentUsername created = Recorder.sanitize username
       ∧ Recorder.state created = Recorder.IDLE
       ∧ Recorder.segmentManager created = SegmentManager.new cache)
  ∧ (CameraModule.currentUsername m = Some username → CameraModule.recorder m = Some r →
     CameraModule.initializeCamera v cache m = (CameraModule.Resolved CameraModule.VTrue, m))
  ∧ (CameraModule.recorder m = Some r →
     ∃ renamed,
       CameraModule.recorder (CameraModule.login (CameraModule.Success other) m).2
       = Some renamed
       ∧ Recorder.currentUsername renamed = Recorder.sanitize other
       ∧ Recorder.state renamed = Recorder.state r
       ∧ Recorder.segmentManager renamed = Recorder.segmentManager r
       ∧ Recorder.preSegments renamed = Recorder.preSegments r)
  ∧ CameraModule.login (CameraModule.Error message) m
    = (CameraModule.Rejected "LOGIN_FAILED" message, m)
  ∧ CameraModule.recorder (CameraModule.logout m).2 = CameraModule.recorder m.
Proof.
  destruct m as [ro name]. cbn [CameraModule.currentUsername CameraModule.recorder].
  split_and!.
  - intros ->. reflexivity.
  - intros -> ->. eexists. split; [reflexivity|]. done.
  - intros -> ->. reflexivity.
  - intros ->. eexists. split; [reflexivity|]. by destruct r.
  - reflexivity.
  - reflexivity.
Qed.

(** ** Saving the capture *)

(** X28. When the media store accepts the entry but gives no output
    stream for it, nothing is copied, and [concatenateSegments] still
    returns the uri: the capture is reported as saved with an entry that is
    not pending any more and holds no data. *)
Theorem unopened_stream_saves_empty `{Media.Platform} (cacheDir stamp : string)
    (env : VideoMuxer.SinkEnv) (first : File) (others : list File) (username : string)
    (w : VideoMuxer.World) (uri : string) :
  VideoMuxer.insertResult env = Some uri →
  VideoMuxer.opensOutputStream env = false →
  (others = [] → is_Some (VideoMuxer.fs w !! first)) →
  let result := VideoMuxer.concatenateSegments cacheDir stamp env (first :: others)
                  username w in
  result.1 = Some uri
  ∧ VideoMuxer.mediaStore result.2 !! uri
    = Some {| VideoMuxer.displayName := username +:+ "_" +:+ stamp +:+ ".mp4";
              VideoMuxer.mimeType := "video/mp4";
              VideoMuxer.relativePath :=
                if VideoMuxer.sdkAtLeastQ env then Some "Movies/RORK" else None;
              VideoMuxer.isPending := false;
              VideoMuxer.content := [] |}.
Proof.
  intros Huri Hopen Hfirst result. subst result.
  unfold VideoMuxer.concatenateSegments.
  set (temp := VideoMuxer.tempOutputFile cacheDir stamp).
  assert (Hcopied : ∃ fs1,
            match others with
            | [] => Files.copyTo first temp (VideoMuxer.fs w)
            | _ :: _ => Some (VideoMuxer.concatenateWithMuxer (first :: others) temp
                                (VideoMuxer.fs w))
            end = Some fs1).
  { destruct others; [|by eexists]. destruct (Hfirst eq_refl) as [bytes Hbytes].
    unfold Files.copyTo. rewrite Hbytes. by eexists. }
  destruct Hcopied as [fs1 ->]. cbv zeta.
  unfold VideoMuxer.saveToMediaStore. rewrite Huri, Hopen.
  cbn [fst snd VideoMuxer.mediaStore]. by rewrite lookup_insert_eq.
Qed.

Lemma unopened_stream_saves_empty_witness :
  let env := {| VideoMuxer.sdkAtLeastQ := true;
                VideoMuxer.insertResult := Some "content://media/1";
                VideoMuxer.opensOutputStream := false |} in
  let w := {| VideoMuxer.fs := {[ "/cache/video_buffer/segment_1.mp4" := [x00; x21] ]};
              VideoMuxer.mediaStore := ∅ |} in
  let result := @VideoMuxer.concatenateSegments Toy.platform "/cache" "t" env
                  ["/cache/video_buffer/segment_1.mp4"] "user" w in
  result.1 = Some "content://media/1"
  ∧ VideoMuxer.mediaStore result.2 !! "content://media/1"
    = Some {| VideoMuxer.displayName := "user" +:+ "_" +:+ "t" +:+ ".mp4";
              VideoMuxer.mimeType := "video/mp4";
              VideoMuxer.relativePath :=
                if VideoMuxer.sdkAtLeastQ env then Some "Movies/RORK" else None;
              VideoMuxer.isPending := false;
              VideoMuxer.content := [] |}.
Proof.
  intros env w.
  apply (@unopened_stream_saves_empty Toy.platform "/cache" "t" env
           "/cache/video_buffer/segment_1.mp4" [] "user" w "content://media/1").
  - reflexivity.
  - reflexivity.
  - intros _. vm_compute. by eexists.
Defined.

(** X29. What [finalizeCapture] leaves behind when the muxer was called:
    the media store is as [concatenateSegments] left it, so a saved capture
    survives the reset; of the files, those of the tracked segments are
    deleted and every other file is as [concatenateSegments] left it; and
    the callbacks report [FINALIZING], the outcome and [IDLE], in that
    order. *)
Theorem finalizeCapture_keeps_capture `{Media.Platform} (env : Recorder.FinalizeEnv)
    (r : Recorder.t) (w : VideoMuxer.World) :
  Recorder.scopeActive r = true →
  Recorder.fault env = None →
  Recorder.preSegments r ++ Recorder.postSegments r ≠ [] →
  let out := VideoMuxer.concatenateSegments
               (SegmentManager.cacheDir (Recorder.segmentManager r)) (Recorder.stamp env)
               (Recorder.sink env) (Recorder.preSegments r ++ Recorder.postSegments r)
               (Recorder.currentUsername r) w in
  let fin := Recorder.finalizeCapture env r w in
  VideoMuxer.mediaStore fin.2 = VideoMuxer.mediaStore out.2
  ∧ (∀ f, VideoMuxer.fs fin.2 !! f
          = if bool_decide (f ∈ SegmentManager.file
                                  <$> SegmentManager.segments (Recorder.segmentManager r))
            then None else VideoMuxer.fs out.2 !! f)
  ∧ Recorder.emitted fin.1
    = Recorder.emitted r
      ++ [Recorder.StateChanged Recorder.FINALIZING;
          match out.1 with
          | Some path => Recorder.CaptureCompleted path
          | None => Recorder.Error "MUXER_FAILED" "Failed to create final video"
          end;
          Recorder.StateChanged Recorder.IDLE].
Proof.
  destruct r as [v st ita cr cb sm tl es sa pre post un ja ps pos em], w as [fs ms].
  cbn [Recorder.scopeActive Recorder.preSegments Recorder.postSegments
       Recorder.segmentManager Recorder.currentUsername Recorder.emitted].
  intros -> Hfault Hsome.
  unfold Recorder.finalizeCapture. recorder_simpl. cbn [negb]. rewrite Hfault.
  destruct (ps ++ pos) as [|f rest] eqn:Hall; [done|].
  destruct (VideoMuxer.concatenateSegments _ _ _ _ _ _) as [[path|] [fs1 ms1]];
    unfold Recorder.resetToIdle; recorder_simpl;
    (split_and!; [done|intros f'; apply clear_fold_lookup|by rewrite <- !app_assoc]).
Qed.

Lemma finalizeCapture_keeps_capture_witness :
  let env := {| Recorder.stamp := "20240101_120000";
                Recorder.sink := {| VideoMuxer.sdkAtLeastQ := true;
                                    VideoMuxer.insertResult := Some "content://media/1";
                                    VideoMuxer.opensOutputStream := true |};
                Recorder.fault := None |} in
  let r := Recorder.set_postSegments ["/cache/video_buffer/segment_0.mp4"]
             (Recorder.set_state Recorder.CAPTURING_POST
                (Recorder.new Recorder.UseCases "/cache")) in
  let w := {| VideoMuxer.fs := {[ "/cache/video_buffer/segment_0.mp4" := [x00; x21] ]};
              VideoMuxer.mediaStore := ∅ |} in
  let out := @VideoMuxer.concatenateSegments Toy.platform
               (SegmentManager.cacheDir (Recorder.segmentManager r)) (Recorder.stamp env)
               (Recorder.sink env) (Recorder.preSegments r ++ Recorder.postSegments r)
               (Recorder.currentUsername r) w in
  let fin := @Recorder.finalizeCapture Toy.platform env r w in
  VideoMuxer.mediaStore fin.2 = VideoMuxer.mediaStore out.2
  ∧ (∀ f, VideoMuxer.fs fin.2 !! f
          = if bool_decide (f ∈ SegmentManager.file
                                  <$> SegmentManager.segments (Recorder.segmentManager r))
            then None else VideoMuxer.fs out.2 !! f)
  ∧ Recorder.emitted fin.1
    = Recorder.emitted r
      ++ [Recorder.StateChanged Recorder.FINALIZING;
          match out.1 with
          | Some path => Recorder.CaptureCompleted path
          | None => Recorder.Error "MUXER_FAILED" "Failed to create final video"
          end;
          Recorder.StateChanged Recorder.IDLE].
Proof.
  intros env r w.
  apply (@finalizeCapture_keeps_capture Toy.platform env r w).
  - reflexivity.
  - reflexivity.
  - discriminate.
Defined.

(** ** How much is frozen *)

(** X30. The trigger freezes at most as many segments as the store's limit
    allows: when it arrives during an iteration of the buffering loop, the
    list of pre-segments has at most [maxSegments] entries, whatever the
    files hold. *)
Theorem pre_roll_bound (fuel : nat) (it : Recorder.Iteration) (r : Recorder.t)
    (w : VideoMuxer.World) (nowPressed nowStarted : Z) (step : Recorder.LoopStep) :
  Recorder.state r = Recorder.BUFFERING →
  Recorder.during it = [Recorder.CallTrigger nowPressed nowStarted] →
  SegmentManager.maxSegments (Recorder.segmentManager r) < Kt.Int_MAX_VALUE →
  Recorder.loopBody fuel it r w = Some step →
  Recorder.state (Recorder.stepRecorder step) = Recorder.CAPTURING_POST
  ∧ Z.of_nat (length (Recorder.preSegments (Recorder.stepRecorder step)))
    <= SegmentManager.maxSegments (Recorder.segmentManager r).
Proof.
  intros Hst Hcalls Hmax. unfold Recorder.loopBody. rewrite Hcalls.
  destruct (SegmentManager.createNewSegment _ _ _ _) as [[[f sm1] fs1]|] eqn:Hc; [|done].
  apply createNewSegment_Some in Hc as (_ & _ & _ & _ & Hsize & _).
  assert (Hfrozen : ∀ fs', Z.of_nat (length (SegmentManager.freezeBuffer sm1 fs'))
                           <= SegmentManager.maxSegments (Recorder.segmentManager r)).
  { intros fs'. unfold SegmentManager.freezeBuffer.
    rewrite getAllSegments_filter, length_fmap.
    pose proof (length_filter (λ it0, SegmentManager.readable fs' it0 = true)
                  (SegmentManager.segments sm1)) as Hle.
    unfold SegmentManager.size in Hsize. revert Hsize Hmax Hle.
    generalize (SegmentManager.maxSegments (Recorder.segmentManager r)).
    unfold Kt.Int_MAX_VALUE. intros m Hsize Hmax Hle. lia. }
  revert Hfrozen.
  destruct r as [v st ita cr cb sm0 tl es sa pre post un ja ps pos em], w as [fs0 ms].
  cbn [Recorder.state Recorder.segmentManager] in *. subst st.
  unfold Recorder.recordSegment.
  cbn [foldl Recorder.applyCall fst snd]. unfold Recorder.triggerCapture.
  recorder_simpl.
  rewrite (bool_decide_eq_true_2 (Recorder.BUFFERING = Recorder.BUFFERING)) by done.
  cbn [negb]. recorder_simpl.
  rewrite (bool_decide_eq_true_2 (Recorder.CAPTURING_POST = Recorder.CAPTURING_POST)) by done.
  intros Hfrozen.
  destruct (_ >=? _); intros [= <-]; unfold Recorder.telemetryUpdate;
    cbn [Recorder.stepRecorder Recorder.stepWorld]; recorder_simpl;
    (split; [done|apply Hfrozen]).
Qed.

Lemma pre_roll_bound_witness :
  let ok (n : Z) (b : byte) (calls : list Recorder.Call) :=
    {| Recorder.now := n; Recorder.started := true;
       Recorder.recorded := Some [b]; Recorder.during := calls |} in
  let w0 := {| VideoMuxer.fs := ∅; VideoMuxer.mediaStore := ∅ |} in
  let rw1 := Recorder.startBuffering true
               (Recorder.setClipDuration 0 (Recorder.new Recorder.UseCases "/cache")) w0 in
  let step1 := default (Recorder.Continue rw1.1 rw1.2)
                 (Recorder.loopBody 3 (ok 0 x00 []) rw1.1 rw1.2) in
  let step2 := default step1
                 (Recorder.loopBody 3 (ok 500 x01 []) (Recorder.stepRecorder step1)
                    (Recorder.stepWorld step1)) in
  let r := Recorder.stepRecorder step2 in
  let w := Recorder.stepWorld step2 in
  let it := ok 1000 x02 [Recorder.CallTrigger 1400 1401] in
  let step := default step2 (Recorder.loopBody 3 it r w) in
  Recorder.state (Recorder.stepRecorder step) = Recorder.CAPTURING_POST
  ∧ Z.of_nat (length (Recorder.preSegments (Recorder.stepRecorder step)))
    <= SegmentManager.maxSegments (Recorder.segmentManager r).
Proof.
  intros ok w0 rw1 step1 step2 r w it step.
  apply (pre_roll_bound 3 it r w 1400 1401 step).
  - vm_compute. reflexivity.
  - reflexivity.
  - vm_compute. reflexivity.
  - vm_compute. reflexivity.
Defined.

(** ** Missing and empty segments *)




Section Carried.
Context `{Media.Platform}.




Hypothesis start_with_track : ∀ fmts, fmts ≠ [] → Media.start_ok fmts = true.


End Carried.



(** Segments {1, missing, 3}: the output has the one video track, and it
    holds the two samples of segment 1 followed by the three of segment 3. *)
Example one_missing_three_written :
  let fs : Fs := {[ "/cache/video_buffer/segment_1.mp4" := [x00; x21];
                    "/cache/video_buffer/segment_3.mp4" := [x00; x21; x42] ]} in
  let st := @VideoMuxer.muxSegments Toy.platform
              ["/cache/video_buffer/segment_1.mp4"; "/cache/video_buffer/segment_2.mp4";
               "/cache/video_buffer/segment_3.mp4"]
              (VideoMuxer.tempOutputFile "/cache" "20240101_120000") fs in
  MuxObs.indexOf MuxObs.Video st = 0
  ∧ MuxObs.indexOf MuxObs.Audio st = -1
  ∧ MuxObs.payloadOf 0 (VideoMuxer.muxer st)
    = [(0, 1, [x00]); (0, 1, [x21]); (0, 1, [x00]); (0, 1, [x21]); (0, 1, [x42])]
  ∧ length (VideoMuxer.written (VideoMuxer.muxer st)) = 5%nat.
Proof. vm_compute. done. Qed.
